(** * MSD SEO Audit: a shallow embedding of the analysis and scoring code

    The development follows the repository file by file:
    - [JS]             the fragment of the JavaScript runtime the code relies on
                       (strings with their white space and UTF-16 length,
                       truthiness, numbers with NaN, Math.round);
    - [WebURL]         the URL objects of the platform, with and without an
                       opaque path;
    - [URLNormalizer]  src/url-normalizer.js;
    - [SEOScorer]      src/seo-scorer.js;
    - [SitemapAnalyzer] src/sitemap-analyzer.js;
    - [SEOAnalyzer]    analyzeLinks of src/seo-analyzer.js;
    - [Main]           calculateDomainAnalysis of src/main.js;
    - [Headings]       analyzeHeadingStructure and calculateHeadingScore of
                       src/seo-analyzer.js;
    - [SitemapDomain]  the rest of src/sitemap-analyzer.js: redirects,
                       robots.txt and the domain analysis;
    - [LinkStatus]     checkLinkStatuses and the broken-link figures of
                       src/seo-analyzer.js;
    - [Crawl]          the crawl loop of src/main.js;
    - [TitleWords]     countDuplicateWords of src/seo-analyzer.js;
    - [Images]         analyzeImagesDetailed and detectImageInfo of
                       src/seo-analyzer.js.

    Definitions come first, the properties proved about them afterwards. *)

From Stdlib Require Import ZArith QArith Qround Lia Bool List.
From Stdlib Require Import Ascii String DecimalString.
From Stdlib Require Import Sorted.
Import ListNotations.

#[local] Open Scope string_scope.
#[local] Open Scope Z_scope.

(* ================================================================== *)
(** * The JavaScript fragment used by the sources *)
(* ================================================================== *)

Module JS.

(** ** Strings

    A JavaScript string is held as the [string] of the bytes of its UTF-8
    encoding, which for ASCII text is one byte per character.  [s.length]
    counts UTF-16 code units: one for a character of one, two or three
    bytes, two for a character of four bytes.  (A string with an unpaired
    surrogate has no UTF-8 encoding; text decoded from a page has none.) *)

(** The code units the byte [c] stands for: those of its character for a
    leading byte, none for a continuation byte. *)
Definition code_units (c : ascii) : nat :=
  let n := nat_of_ascii c in
  if (n <? 128)%nat then 1%nat          (* one-byte character *)
  else if (n <? 192)%nat then 0%nat     (* continuation byte *)
  else if (n <? 240)%nat then 1%nat     (* leads two or three bytes *)
  else 2%nat.                           (* leads four bytes: a surrogate pair *)

Fixpoint utf16_length (s : string) : nat :=
  match s with
  | EmptyString => 0%nat
  | String c r => (code_units c + utf16_length r)%nat
  end.

(** [s.length] *)
Definition length (s : string) : Z := Z.of_nat (utf16_length s).

(** The text has ASCII characters only. *)
Fixpoint is_ascii (s : string) : bool :=
  match s with
  | EmptyString => true
  | String c r => (nat_of_ascii c <? 128)%nat && is_ascii r
  end.

(** A string is truthy when it is not empty. *)
Definition truthy (s : string) : bool :=
  match s with EmptyString => false | String _ _ => true end.

Definition lower_ascii (c : ascii) : ascii :=
  let n := nat_of_ascii c in
  if ((65 <=? n) && (n <=? 90))%nat then ascii_of_nat (n + 32) else c.

(** [s.toLowerCase()] for text whose letters are ASCII (host names,
    header values, keys, paths): the letters A to Z are mapped and every
    other byte is kept. *)
Fixpoint toLowerCase (s : string) : string :=
  match s with
  | EmptyString => EmptyString
  | String c r => String (lower_ascii c) (toLowerCase r)
  end.

(** [p] is a prefix of [s]. *)
Fixpoint is_prefix (p s : string) : bool :=
  match p with
  | EmptyString => true
  | String a p' =>
      match s with
      | EmptyString => false
      | String b s' => Ascii.eqb a b && is_prefix p' s'
      end
  end.

(** [s.startsWith(p)] *)
Definition startsWith (s p : string) : bool := is_prefix p s.

(** [s.includes(needle)] *)
Fixpoint includes (s needle : string) : bool :=
  is_prefix needle s ||
  match s with
  | EmptyString => false
  | String _ r => includes r needle
  end.

(** [s.endsWith(suffix)] *)
Fixpoint endsWith (s suffix : string) : bool :=
  String.eqb s suffix ||
  match s with
  | EmptyString => false
  | String _ r => endsWith r suffix
  end.

(** The white space characters of one byte, removed by [trim] and matched
    by [\s]: TAB, LF, VT, FF, CR and SPACE. *)
Definition is_space (c : ascii) : bool :=
  let n := nat_of_ascii c in
  (((9 <=? n) && (n <=? 13)) || (n =? 32))%nat.

(** The white space character of two bytes: U+00A0. *)
Definition is_space2 (c1 c2 : ascii) : bool :=
  ((nat_of_ascii c1 =? 194) && (nat_of_ascii c2 =? 160))%nat.

(** The white space characters of three bytes: U+1680, U+2000 to U+200A,
    U+2028, U+2029, U+202F, U+205F, U+3000 and U+FEFF. *)
Definition is_space3 (c1 c2 c3 : ascii) : bool :=
  let n1 := nat_of_ascii c1 in
  let n2 := nat_of_ascii c2 in
  let n3 := nat_of_ascii c3 in
  (((n1 =? 225) && (n2 =? 154) && (n3 =? 128)) ||
   ((n1 =? 226) && (n2 =? 128) &&
    (((128 <=? n3) && (n3 <=? 138)) || (n3 =? 168) || (n3 =? 169) || (n3 =? 175))) ||
   ((n1 =? 226) && (n2 =? 129) && (n3 =? 159)) ||
   ((n1 =? 227) && (n2 =? 128) && (n3 =? 128)) ||
   ((n1 =? 239) && (n2 =? 187) && (n3 =? 191)))%nat.

(** The number of bytes of the white space character [s] starts with, and
    0 when it starts with none. *)
Definition leading_space (s : string) : nat :=
  match s with
  | EmptyString => 0%nat
  | String c1 r1 =>
      if is_space c1 then 1%nat
      else
        match r1 with
        | EmptyString => 0%nat
        | String c2 r2 =>
            if is_space2 c1 c2 then 2%nat
            else
              match r2 with
              | EmptyString => 0%nat
              | String c3 _ => if is_space3 c1 c2 c3 then 3%nat else 0%nat
              end
        end
  end.

(** [s.trimStart()] *)
Fixpoint trimStart (s : string) : string :=
  match s with
  | EmptyString => EmptyString
  | String c1 r1 =>
      if is_space c1 then trimStart r1
      else
        match r1 with
        | EmptyString => s
        | String c2 r2 =>
            if is_space2 c1 c2 then trimStart r2
            else
              match r2 with
              | EmptyString => s
              | String c3 r3 => if is_space3 c1 c2 c3 then trimStart r3 else s
              end
        end
  end.

(** [s] is made of white space characters only. *)
Fixpoint all_space (s : string) : bool :=
  match s with
  | EmptyString => true
  | String c1 r1 =>
      if is_space c1 then all_space r1
      else
        match r1 with
        | EmptyString => false
        | String c2 r2 =>
            if is_space2 c1 c2 then all_space r2
            else
              match r2 with
              | EmptyString => false
              | String c3 r3 => if is_space3 c1 c2 c3 then all_space r3 else false
              end
        end
  end.

(** [s.trimEnd()]: the string up to the point from which only white space
    follows. *)
Fixpoint trimEnd (s : string) : string :=
  match s with
  | EmptyString => EmptyString
  | String c r => if all_space s then EmptyString else String c (trimEnd r)
  end.

(** [s.trim()] *)
Definition trim (s : string) : string := trimEnd (trimStart s).

(** [String(n)] for an integer [n], as a template literal prints it. *)
Definition string_of_Z (n : Z) : string := NilZero.string_of_int (Z.to_int n).

(** [xs.join(sep)] *)
Definition join (sep : string) (xs : list string) : string := String.concat sep xs.

(** ** Optional integers

    A numeric property of an object is an integer or [undefined]; [None] is
    [undefined]. *)

(** [Number(a || d)]: the first operand unless it is falsy (undefined or 0). *)
Definition or_num (a : option Z) (d : Z) : Z :=
  match a with
  | Some z => if z =? 0 then d else z
  | None => d
  end.

(** [a > k] where [a] may be undefined (undefined compares false). *)
Definition gt_num (a : option Z) (k : Z) : bool :=
  match a with Some z => k <? z | None => false end.

(** Truthiness of an optional number. *)
Definition truthy_num (a : option Z) : bool :=
  match a with Some z => negb (z =? 0) | None => false end.

(** ** Numbers

    The results of divisions are held as exact rationals, together with the
    special values a division by zero produces.  A double can differ from
    the exact figure in its last place, which [Math.round] turns into
    another integer only where the exact figure is that close to a half:
    a percentage rounded after the multiplication by 100 can be one less
    than here (23 of 40 is 57.5 exactly).  About the percentages only
    what holds either way is stated: the range, the ends of the range and
    the distance from the exact figure. *)

Inductive number : Type :=
| Num (q : Q)
| NaN
| Infinity (negative : bool).

Definition of_Z (z : Z) : number := Num (inject_Z z).

Definition is_zero (q : Q) : bool := Qnum q =? 0.
Definition is_neg (q : Q) : bool := Qnum q <? 0.

(** [a * b] *)
Definition mul (a b : number) : number :=
  match a, b with
  | NaN, _ | _, NaN => NaN
  | Num x, Num y => Num (x * y)
  | Infinity s, Num y | Num y, Infinity s =>
      if is_zero y then NaN else Infinity (xorb s (is_neg y))
  | Infinity s, Infinity t => Infinity (xorb s t)
  end.

(** [a / b]: [0 / 0] is NaN, any other division by zero is infinite. *)
Definition div (a b : number) : number :=
  match a, b with
  | NaN, _ | _, NaN => NaN
  | Num x, Num y =>
      if is_zero y then (if is_zero x then NaN else Infinity (is_neg x))
      else Num (x / y)
  | Num _, Infinity _ => Num 0
  | Infinity s, Num y => Infinity (xorb s (is_neg y))
  | Infinity _, Infinity _ => NaN
  end.

(** [Math.round] on a rational: the nearest integer, halves upwards. *)
Definition round_Q (q : Q) : Z := Qfloor (q + (1 # 2)).

(** [Math.round(a)] *)
Definition Math_round (a : number) : number :=
  match a with
  | Num q => of_Z (round_Q q)
  | other => other
  end.

(** [a >= k] for an integer constant [k]; comparisons with NaN are false. *)
Definition geb (a : number) (k : Z) : bool :=
  match a with
  | Num q => Qle_bool (inject_Z k) q
  | NaN => false
  | Infinity negative => negb negative
  end.

End JS.

(* ================================================================== *)
(** * src/seo-scorer.js *)
(* ================================================================== *)

Module SEOScorer.

(** The feature record [seoData] read by [calculateScore].  Numeric
    properties are optional integers ([None] is [undefined]); a string
    property that the code reads through [|| ''] is a [string] whose empty
    value also stands for [undefined]; flags are booleans. *)
Record seoData : Type := mkSeoData {
  title : string;
  titleLength : option Z;
  description : string;
  descriptionLength : option Z;
  headingScore : option Z;
  h1Count : option Z;
  h1 : option (list string);
  h2Count : option Z;
  h3Count : option Z;
  hasHttps : bool;
  xRobots : string;
  metaRobots : string;
  favicon : bool;
  hasOpenGraph : bool;
  viewport : bool;
  wordcountcontentonly : option Z;
  words : option Z;
  totalwordcount : option Z;
  wordcount : option Z;
  strongTags : option Z;
  imagesWithoutAlt : option Z;
  hasSchema : bool;
  hasJsonLd : bool;
  canonicalUrl : string;
  hasHreflang : bool;
  appleTouchIcon : bool;
  javascriptFiles : option Z;
  cssFiles : option Z
}.

(** The two locals [calculateScore] mutates: [score] and [issues]. *)
Record locals : Type := mkLocals {
  score : Z;
  issues : list string
}.

(** A block of [calculateScore] is a command on its locals. *)
Definition command : Type := locals -> locals.

Definition skip : command := fun l => l.

(** [score += n] *)
Definition add_score (n : Z) : command :=
  fun l => mkLocals (score l + n) (issues l).

(** [issues.push(label)] *)
Definition push_issue (label : string) : command :=
  fun l => mkLocals (score l) (issues l ++ [label]).

Definition seq (c1 c2 : command) : command := fun l => c2 (c1 l).

Declare Scope command_scope.
Delimit Scope command_scope with cmd.
Bind Scope command_scope with command.
Notation "c1 ;; c2" := (seq c1 c2)
  (at level 61, right associativity) : command_scope.
Notation "'when' b 'then' c" := (if b then c else skip)
  (at level 60, b at level 9, right associativity, only parsing) : command_scope.

#[local] Open Scope command_scope.

(** 1. TITLE OPTIMIZATION *)
Definition title_block (seo : seoData) : command :=
  let title := title seo in
  let titleLength := JS.or_num (titleLength seo) (JS.or_num (Some (JS.length title)) 0) in
  if negb (JS.truthy title) || (titleLength <? 10) then
    add_score (-15) ;; push_issue "missing/short title"
  else if titleLength >? 60 then
    add_score (-8) ;; push_issue "title too long"
  else if titleLength <? 30 then
    add_score (-5) ;; push_issue "title could be longer"
  else skip.

(** 2. META DESCRIPTION *)
Definition description_block (seo : seoData) : command :=
  let description := description seo in
  let descLength :=
    JS.or_num (descriptionLength seo) (JS.or_num (Some (JS.length description)) 0) in
  if negb (JS.truthy description) || (descLength <? 120) then
    add_score (-12) ;; push_issue "missing/short meta description"
  else if descLength >? 160 then
    add_score (-6) ;; push_issue "meta description too long"
  else skip.

(** [Math.floor(headingScore * 0.2)] *)
Definition scaled_heading (headingScore : Z) : Z :=
  Qfloor (inject_Z headingScore * (2 # 10)).

(** 3. HEADING STRUCTURE *)
Definition heading_block (seo : seoData) : command :=
  match headingScore seo with
  | Some headingScore =>
      add_score (scaled_heading headingScore - 20) ;;
      when (headingScore <? 50) then push_issue "poor heading structure"
  | None =>
      let h1Count :=
        JS.or_num (h1Count seo)
          (match h1 seo with Some xs => Z.of_nat (List.length xs) | None => 0 end) in
      let h2Count := JS.or_num (h2Count seo) 0 in
      let h3Count := JS.or_num (h3Count seo) 0 in
      (if h1Count =? 0 then
         add_score (-18) ;; push_issue "missing H1"
       else if h1Count >? 1 then
         add_score (-12) ;; push_issue "multiple H1 tags"
       else skip) ;;
      when ((h1Count =? 1) && (h2Count >? 0)) then add_score 2 ;;
      when ((h2Count >? 0) && (h3Count >? 0)) then add_score 1
  end.

(** 4. TECHNICAL SEO *)
Definition technical_block (seo : seoData) : command :=
  let xRobots := JS.toLowerCase (xRobots seo) in
  let metaRobots := JS.toLowerCase (metaRobots seo) in
  when (negb (hasHttps seo)) then (add_score (-10) ;; push_issue "no HTTPS") ;;
  when (JS.includes xRobots "noindex" || JS.includes metaRobots "noindex") then
    (add_score (-15) ;; push_issue "page set to noindex") ;;
  when (JS.includes xRobots "nofollow" || JS.includes metaRobots "nofollow") then
    (add_score (-5) ;; push_issue "page set to nofollow") ;;
  when (negb (favicon seo)) then (add_score (-3) ;; push_issue "no favicon") ;;
  when (negb (hasOpenGraph seo)) then (add_score (-4) ;; push_issue "no OpenGraph") ;;
  when (negb (viewport seo)) then (add_score (-3) ;; push_issue "no viewport meta").

(** [Number(seoData.wordcountcontentonly || seoData.words || 0)] *)
Definition content_words (seo : seoData) : Z :=
  JS.or_num (wordcountcontentonly seo) (JS.or_num (words seo) 0).

(** 5. CONTENT QUALITY *)
Definition content_block (seo : seoData) : command :=
  let words := content_words seo in
  let strongTags := JS.or_num (strongTags seo) 0 in
  (if words <? 150 then
     add_score (-8) ;; push_issue "very low word count"
   else if words <? 300 then
     add_score (-5) ;; push_issue "low word count"
   else if words >=? 800 then
     add_score 2
   else skip) ;;
  when ((strongTags =? 0) && (words >? 200)) then
    (add_score (-2) ;; push_issue "no emphasis tags").

(** 6. IMAGES OPTIMIZATION *)
Definition images_block (seo : seoData) : command :=
  let imagesWithoutAlt := JS.or_num (imagesWithoutAlt seo) 0 in
  when (imagesWithoutAlt >? 0) then
    (let imageIssueScore := Z.min 5 imagesWithoutAlt in
     add_score (- imageIssueScore) ;;
     push_issue (JS.string_of_Z imagesWithoutAlt ++ " images without alt text")).

(** 7. ADVANCED BONUSES *)
Definition bonusPoints (seo : seoData) : Z :=
  (if hasSchema seo || hasJsonLd seo then 2 else 0) +
  (if JS.truthy (canonicalUrl seo) then 1 else 0) +
  (if hasHreflang seo then 1 else 0) +
  (if appleTouchIcon seo then 1 else 0).

Definition bonus_block (seo : seoData) : command := add_score (bonusPoints seo).

(** 8. PERFORMANCE PENALTIES *)
Definition performance_block (seo : seoData) : command :=
  let jsFiles := JS.or_num (javascriptFiles seo) 0 in
  let cssFiles := JS.or_num (cssFiles seo) 0 in
  when (jsFiles >? 20) then (add_score (-3) ;; push_issue "too many JS files") ;;
  when (cssFiles >? 10) then (add_score (-2) ;; push_issue "too many CSS files").

(** The body of [calculateScore] down to the comment "Final score
    calculation": the locals start at [score = 100], [issues = []]. *)
Definition run_blocks (seo : seoData) : locals :=
  (title_block seo ;; description_block seo ;; heading_block seo ;;
   technical_block seo ;; content_block seo ;; images_block seo ;;
   bonus_block seo ;; performance_block seo) (mkLocals 100 []).

(** [Math.max(0, Math.min(100, Math.round(score)))] *)
Definition finalScore (score : Z) : Z :=
  Z.max 0 (Z.min 100 (JS.round_Q (inject_Z score))).

Definition getGrade (score : Z) : string :=
  if score >=? 90 then "A"
  else if score >=? 80 then "B"
  else if score >=? 70 then "C"
  else if score >=? 60 then "D"
  else "F".

Definition getCategory (score : Z) : string :=
  if score >=? 85 then "Excellent"
  else if score >=? 70 then "Good"
  else if score >=? 50 then "Needs Improvement"
  else "Poor".

(** [str.replace(/^\s*\|\s*/, '')]: drops a leading separator. *)
Definition strip_leading_separator (s : string) : string :=
  match JS.trimStart s with
  | String "|" r => JS.trimStart r
  | _ => s
  end.

Definition generateSeoNotes (seo : seoData) (issues : list string) : string :=
  let positives : list string :=
    ((if hasHttps seo then ["HTTPS enabled"] else []) ++
     (if hasOpenGraph seo then ["OpenGraph present"] else []) ++
     (if JS.or_num (words seo) 0 >=? 500 then ["good content length"] else []) ++
     (if JS.or_num (h1Count seo) 0 =? 1 then ["proper H1 structure"] else []))%list in
  let result :=
    match issues with
    | [] => ""
    | _ => "Issues: " ++ JS.join ", " issues
    end%string in
  let bonus :=
    match positives with
    | [] => ""
    | _ => " | Strengths: " ++ JS.join ", " positives
    end%string in
  strip_leading_separator (result ++ bonus).

(** The object [calculateScore] returns; its [issues] property is the
    field [seo_issues] here. *)
Record scoreData : Type := mkScoreData {
  seo_page_score : Z;
  seo_grade : string;
  seo_category : string;
  seo_issues_count : Z;
  notes : string;
  seo_issues : list string
}.

Definition calculateScore (seo : seoData) : scoreData :=
  let l := run_blocks seo in
  let finalScore := finalScore (score l) in
  {| seo_page_score := finalScore;
     seo_grade := getGrade finalScore;
     seo_category := getCategory finalScore;
     seo_issues_count := Z.of_nat (List.length (issues l));
     notes := generateSeoNotes seo (issues l);
     seo_issues := issues l |}.

End SEOScorer.

(* ================================================================== *)
(** * The platform URL class, as the sources use it *)
(* ================================================================== *)

Module WebURL.

(** A URL object.  The record holds the components of a URL of one of two
    kinds: a URL with an authority and a hierarchical path
    ([scheme://host/path], the kind the crawler handles: page URLs and
    the links found on them), and a URL with an opaque path
    ([mailto:...], [data:...]), which has no authority and whose
    [hostname] and [pathname] cannot be assigned.  A component that can be
    absent ([query], [fragment], [port]) is optional. *)
Record URL : Type := mkURL {
  scheme : string;
  username : string;
  password : string;
  hostname : string;
  port : option string;
  pathname : string;
  query : option string;
  fragment : option string;
  opaque_path : bool
}.

(** [url.protocol] *)
Definition protocol (u : URL) : string := scheme u ++ ":".

(** [url.search]: empty when the query is absent or empty. *)
Definition search (u : URL) : string :=
  match query u with
  | None | Some EmptyString => ""
  | Some q => "?" ++ q
  end.

(** [url.hash]: empty when the fragment is absent or empty. *)
Definition hash (u : URL) : string :=
  match fragment u with
  | None | Some EmptyString => ""
  | Some f => "#" ++ f
  end.

(** [url.href] and [url.toString()]: the serialisation of the components. *)
Definition href (u : URL) : string :=
  scheme u ++
  (if opaque_path u then ":"
   else
     "://" ++
     (if JS.truthy (username u) || JS.truthy (password u) then
        username u ++ (if JS.truthy (password u) then ":" ++ password u else "")
        ++ "@"
      else "") ++
     hostname u ++
     (match port u with Some p => ":" ++ p | None => "" end)) ++
  pathname u ++
  (match query u with Some q => "?" ++ q | None => "" end) ++
  (match fragment u with Some f => "#" ++ f | None => "" end).

Definition drop_leading (c : ascii) (s : string) : string :=
  match s with
  | String c' r => if Ascii.eqb c c' then r else s
  | EmptyString => s
  end.

(** [url.hash = value]: the empty string removes the fragment. *)
Definition set_hash (u : URL) (value : string) : URL :=
  mkURL (scheme u) (username u) (password u) (hostname u) (port u) (pathname u)
        (query u)
        (match value with EmptyString => None | _ => Some (drop_leading "#" value) end)
        (opaque_path u).

(** [url.search = value]: the empty string removes the query. *)
Definition set_search (u : URL) (value : string) : URL :=
  mkURL (scheme u) (username u) (password u) (hostname u) (port u) (pathname u)
        (match value with EmptyString => None | _ => Some (drop_leading "?" value) end)
        (fragment u) (opaque_path u).

(** [url.hostname = value]: without effect on a URL with an opaque path. *)
Definition set_hostname (u : URL) (value : string) : URL :=
  if opaque_path u then u
  else
    mkURL (scheme u) (username u) (password u) value (port u) (pathname u)
          (query u) (fragment u) false.

(** [url.pathname = value]: without effect on a URL with an opaque path. *)
Definition set_pathname (u : URL) (value : string) : URL :=
  if opaque_path u then u
  else
    mkURL (scheme u) (username u) (password u) (hostname u) (port u) value
          (query u) (fragment u) false.

(** What the sources ask of the platform besides the accessors above:
    the URL parser ([new URL(input)] and [new URL(input, base)], [None]
    when it throws), the two directions of [URLSearchParams], and
    [toLowerCase] on free text (titles, headings, input that is not a
    URL), whose letters need not be ASCII; on ASCII text it is
    [JS.toLowerCase]. *)
Class Platform : Type := {
  (** [new URL(input, base)] *)
  URL_parse : string -> option string -> option URL;
  (** [Array.from(url.searchParams.entries())], from the query string *)
  searchParams_entries : string -> list (string * string);
  (** [new URLSearchParams(params).toString()] *)
  URLSearchParams_toString : list (string * string) -> string;
  (** [text.toLowerCase()] *)
  text_toLowerCase : string -> string;
  text_toLowerCase_ascii :
    forall text, JS.is_ascii text = true -> text_toLowerCase text = JS.toLowerCase text
}.

(** [url.searchParams.entries()] *)
Definition entries `{Platform} (u : URL) : list (string * string) :=
  searchParams_entries (match query u with Some q => q | None => "" end).

(** ** A reference platform for evaluating examples

    It parses [scheme://host[:port][/path][?query][#fragment]], URLs with
    an opaque path ([scheme:path[?query][#fragment]] for a scheme other
    than http, https, ftp, ws, wss and file, the path not starting with
    [/]) and, against a base, references that start with [#] or with [/];
    it is meant for
    inputs without user information, escapes or dot segments, and for
    free text in ASCII. *)

(** [break p s]: the longest prefix of [s] without a character satisfying
    [p], and the rest. *)
Fixpoint break (p : ascii -> bool) (s : string) : string * string :=
  match s with
  | EmptyString => (EmptyString, EmptyString)
  | String c r =>
      if p c then (EmptyString, s)
      else let '(a, b) := break p r in (String c a, b)
  end.

Definition is_char (c : ascii) : ascii -> bool := Ascii.eqb c.

Definition tail (s : string) : string :=
  match s with String _ r => r | EmptyString => EmptyString end.

(** Splits [path?query#fragment] into its three parts. *)
Definition split_path_query_fragment (s : string)
  : string * option string * option string :=
  let '(before_hash, from_hash) := break (is_char "#") s in
  let '(path, from_question) := break (is_char "?") before_hash in
  (path,
   match from_question with EmptyString => None | _ => Some (tail from_question) end,
   match from_hash with EmptyString => None | _ => Some (tail from_hash) end).

(** A scheme is a letter followed by letters, digits, [+], [-] and [.]. *)
Definition is_letter (c : ascii) : bool :=
  let n := nat_of_ascii (JS.lower_ascii c) in ((97 <=? n) && (n <=? 122))%nat.

Definition is_scheme_char (c : ascii) : bool :=
  let n := nat_of_ascii c in
  is_letter c || ((48 <=? n) && (n <=? 57))%nat
  || Ascii.eqb c "+" || Ascii.eqb c "-" || Ascii.eqb c ".".

Fixpoint all_scheme_chars (s : string) : bool :=
  match s with
  | EmptyString => true
  | String c r => is_scheme_char c && all_scheme_chars r
  end.

Definition is_scheme (s : string) : bool :=
  match s with
  | EmptyString => false
  | String c r => is_letter c && all_scheme_chars r
  end.

(** The schemes whose URLs always have an authority. *)
Definition is_special (scheme : string) : bool :=
  existsb (String.eqb scheme) ["http"; "https"; "ftp"; "ws"; "wss"; "file"].

Definition simple_parse_absolute (input : string) : option URL :=
  let '(scheme, rest) := break (is_char ":") input in
  match rest with
  | String ":" (String "/" (String "/" after)) =>
      let '(authority, tl) :=
        break (fun c => is_char "/" c || is_char "?" c || is_char "#" c) after in
      let '(host, from_colon) := break (is_char ":") authority in
      let '(path, q, f) := split_path_query_fragment tl in
      match scheme, host with
      | EmptyString, _ | _, EmptyString => None
      | _, _ =>
          Some (mkURL (JS.toLowerCase scheme) "" "" (JS.toLowerCase host)
                  (match from_colon with
                   | EmptyString | String _ EmptyString => None
                   | String _ p => Some p
                   end)
                  (match path with EmptyString => "/" | _ => path end)
                  q f false)
      end
  | String ":" after =>
      if is_scheme scheme && negb (is_special (JS.toLowerCase scheme))
         && negb (JS.startsWith after "/") then
        let '(path, q, f) := split_path_query_fragment after in
        Some (mkURL (JS.toLowerCase scheme) "" "" "" None path q f true)
      else None
  | _ => None
  end.

Definition simple_parse (input : string) (base : option string) : option URL :=
  let input := JS.trim input in
  match simple_parse_absolute input, base with
  | Some u, _ => Some u
  | None, None => None
  | None, Some b =>
      match simple_parse_absolute (JS.trim b), input with
      | Some bu, String "#" f =>
          Some (mkURL (scheme bu) "" "" (hostname bu) (port bu) (pathname bu)
                  (query bu) (Some f) (opaque_path bu))
      | Some bu, String "/" _ =>
          if opaque_path bu then None
          else
            let '(path, q, f) := split_path_query_fragment input in
            Some (mkURL (scheme bu) "" "" (hostname bu) (port bu) path q f false)
      | _, _ => None
      end
  end.

(** Splits a string at every occurrence of [sep]. *)
Fixpoint split_on (sep : ascii) (s : string) : list string :=
  match s with
  | EmptyString => [EmptyString]
  | String c r =>
      if Ascii.eqb c sep then EmptyString :: split_on sep r
      else match split_on sep r with
           | x :: xs => String c x :: xs
           | [] => [String c EmptyString]
           end
  end.

Fixpoint replace_char (a b : ascii) (s : string) : string :=
  match s with
  | EmptyString => EmptyString
  | String c r => String (if Ascii.eqb c a then b else c) (replace_char a b r)
  end.

Definition simple_entries (q : string) : list (string * string) :=
  map (fun pair =>
         let '(k, v) := break (is_char "=") pair in
         (replace_char "+" " " k, replace_char "+" " " (tail v)))
      (filter JS.truthy (split_on "&" q)).

Definition simple_toString (params : list (string * string)) : string :=
  JS.join "&"
    (map (fun '(k, v) => replace_char " " "+" k ++ "=" ++ replace_char " " "+" v)
         params).

Definition simple : Platform :=
  {| URL_parse := simple_parse;
     searchParams_entries := simple_entries;
     URLSearchParams_toString := simple_toString;
     text_toLowerCase := JS.toLowerCase;
     text_toLowerCase_ascii := fun _ _ => eq_refl |}.

End WebURL.

(* ================================================================== *)
(** * src/url-normalizer.js *)
(* ================================================================== *)

Module URLNormalizer.

Import WebURL.

Section WithPlatform.

Context {platform : Platform}.

(** [/^utm_/i.test(key)] *)
Definition is_utm (key : string) : bool :=
  JS.startsWith (JS.toLowerCase key) "utm_".

Definition starts_with_slash (s : string) : bool :=
  match s with
  | String c _ => Ascii.eqb c "/"
  | EmptyString => false
  end.

(** [path.replace(/\/+/g, '/')]: every run of separators becomes one. *)
Fixpoint collapse_slashes (s : string) : string :=
  match s with
  | EmptyString => EmptyString
  | String c r =>
      if Ascii.eqb c "/" then
        if starts_with_slash r then collapse_slashes r
        else String "/" (collapse_slashes r)
      else String c (collapse_slashes r)
  end.

(** [s.slice(0, -1)]: all but the last character. *)
Fixpoint drop_last (s : string) : string :=
  match s with
  | EmptyString | String _ EmptyString => EmptyString
  | String c r => String c (drop_last r)
  end.

(** [s.replace(/\/+$/, '')]: removes all trailing separators. *)
Fixpoint strip_trailing_slashes (s : string) : string :=
  match s with
  | EmptyString => EmptyString
  | String c r =>
      match strip_trailing_slashes r with
      | EmptyString => if Ascii.eqb c "/" then EmptyString else String c EmptyString
      | r' => String c r'
      end
  end.

(** The parameters [normalize] keeps. *)
Definition kept_params (url : URL) : list (string * string) :=
  filter (fun '(key, _) => negb (is_utm key)) (entries url).

(** The [try] block of [normalize], on the parsed URL object: each line
    of the source is one update of the object. *)
Definition normalize_url (url : URL) : URL :=
  (* url.hash = '' *)
  let url := set_hash url "" in
  (* url.search = params.length ? new URLSearchParams(params).toString() : '' *)
  let params := kept_params url in
  let url :=
    set_search url
      (match params with [] => "" | _ => URLSearchParams_toString params end) in
  (* url.hostname = url.hostname.toLowerCase() *)
  let url := set_hostname url (JS.toLowerCase (hostname url)) in
  (* url.pathname = url.pathname.replace(/\/+/g, '/') *)
  let url := set_pathname url (collapse_slashes (pathname url)) in
  (* if (url.pathname !== '/' && url.pathname.endsWith('/')) ... slice(0, -1) *)
  if negb (String.eqb (pathname url) "/") && JS.endsWith (pathname url) "/"
  then set_pathname url (drop_last (pathname url))
  else url.

(** The [catch] block of [normalize]. *)
Definition normalize_fallback (rawUrl : string) : string :=
  let cleaned := strip_trailing_slashes (JS.trim rawUrl) in
  match cleaned with
  | EmptyString => ""
  | _ => text_toLowerCase cleaned
  end.

Definition normalize (rawUrl : string) : string :=
  if negb (JS.truthy rawUrl) then ""
  else
    match URL_parse (JS.trim rawUrl) None with
    | Some url => href (normalize_url url)
    | None => normalize_fallback rawUrl
    end.

(** [/^https?:\/\//i] *)
Definition has_http_scheme (s : string) : bool :=
  let l := JS.toLowerCase s in
  JS.startsWith l "http://" || JS.startsWith l "https://".

(** [normalizeForComparison]; [None] is [null]. *)
Definition normalizeForComparison (rawUrl : string) : option string :=
  if negb (JS.truthy rawUrl) then None
  else
    let s := JS.trim rawUrl in
    let u := if has_http_scheme s then s else "http://" ++ s in
    match URL_parse u None with
    | Some url =>
        let protocol := JS.toLowerCase (protocol url) in
        let host := JS.toLowerCase (hostname url) in
        let path := strip_trailing_slashes (pathname url) in
        let path := match path with EmptyString => "/" | _ => path end in
        Some (protocol ++ "//" ++ host ++ path ++ search url)
    | None =>
        match strip_trailing_slashes (JS.trim rawUrl) with
        | EmptyString => None
        | s => Some (text_toLowerCase s)
        end
    end.

End WithPlatform.

End URLNormalizer.

(* ================================================================== *)
(** * src/sitemap-analyzer.js *)
(* ================================================================== *)

Module SitemapAnalyzer.

(** What [axios.get] resolves to.  With the default [validateStatus] the
    promise is rejected for a status outside 2xx, so a response carries a
    successful status; [content_type] is [response.headers['content-type']]. *)
Record response : Type := mkResponse {
  status : Z;
  content_type : option string;
  data : string
}.

(** The HTTP collaborator: [None] is a rejected request (transport error,
    timeout, error status). *)
Class HttpClient : Type := {
  http_get : string -> option response
}.

(** ** The regular expressions of the file *)

(** [p] is a prefix of [s], letters compared case-insensitively. *)
Fixpoint prefix_ci (p s : string) : bool :=
  match p, s with
  | EmptyString, _ => true
  | String a p', String b s' =>
      Ascii.eqb (JS.lower_ascii a) (JS.lower_ascii b) && prefix_ci p' s'
  | String _ _, EmptyString => false
  end.

(** The number of matches of [/<tag[^>]*>/gi], where [open] is ["<tag"]:
    [inside] holds between an opening ["<tag"] and the next [">"]. *)
Fixpoint count_open_tags (open : string) (inside : bool) (s : string) : Z :=
  match s with
  | EmptyString => 0
  | String c r =>
      if inside then
        if Ascii.eqb c ">" then 1 + count_open_tags open false r
        else count_open_tags open true r
      else count_open_tags open (prefix_ci open s) r
  end.

(** [xmlContent.match(/<sitemap[^>]*>/gi).length] *)
Definition countSitemapsInIndex (xmlContent : string) : Z :=
  count_open_tags "<sitemap" false xmlContent.

(** [xmlContent.match(/<url[^>]*>/gi).length] *)
Definition countUrlsInSitemap (xmlContent : string) : Z :=
  count_open_tags "<url" false xmlContent.

Fixpoint drop (n : nat) (s : string) : string :=
  match n, s with
  | O, _ => s
  | S n', String _ r => drop n' r
  | S _, EmptyString => EmptyString
  end.

(** One attempt of [/<name[^>]*>([^<]+)<\/name>/i] at the start of [s]:
    the captured group and the length of the whole match. *)
Definition match_element (name : string) (s : string) : option (string * nat) :=
  let open := "<" ++ name in
  let close := "</" ++ name ++ ">" in
  if prefix_ci open s then
    let '(attrs, rest) := WebURL.break (WebURL.is_char ">") (drop (String.length open) s) in
    match rest with
    | String _ body =>
        let '(captured, rest') := WebURL.break (WebURL.is_char "<") body in
        match captured with
        | EmptyString => None
        | _ =>
            if prefix_ci close rest' then
              Some (captured,
                    (String.length open + String.length attrs + 1 +
                     String.length captured + String.length close)%nat)
            else None
        end
    | EmptyString => None
    end
  else None.

(** The trimmed captures of all matches of [/<name[^>]*>([^<]+)<\/name>/gi],
    left to right; [skip] characters belong to the previous match. *)
Fixpoint match_all_elements (name : string) (skip : nat) (s : string) : list string :=
  match s with
  | EmptyString => []
  | String _ r =>
      match skip with
      | S k => match_all_elements name k r
      | O =>
          match match_element name s with
          | Some (captured, len) =>
              JS.trim captured :: match_all_elements name (Nat.pred len) r
          | None => match_all_elements name O r
          end
      end
  end.

Definition extractSitemapUrlsFromIndex (xmlContent : string) : list string :=
  match_all_elements "loc" O xmlContent.

Definition extractUrlsFromSitemap (xmlContent : string) : list string :=
  match_all_elements "loc" O xmlContent.

(** ** The recursive count *)

(** [content.includes('<sitemapindex') || content.includes('<sitemap:') ||
     content.includes('sitemapindex')] *)
Definition is_sitemap_index (content : string) : bool :=
  JS.includes content "<sitemapindex" || JS.includes content "<sitemap:" ||
  JS.includes content "sitemapindex".

(** [content.includes('<urlset') || content.includes('<url:') ||
     content.includes('urlset')] *)
Definition is_urlset (content : string) : bool :=
  JS.includes content "<urlset" || JS.includes content "<url:" ||
  JS.includes content "urlset".

(** The state shared by all the calls of one walk: the [visitedUrls] set
    (a JavaScript [Set], kept in insertion order) and the GET requests
    issued so far. *)
Record walk : Type := mkWalk {
  visitedUrls : list string;
  requests : list string
}.

(** [visitedUrls.has(url)] *)
Definition has (visited : list string) (url : string) : bool :=
  existsb (String.eqb url) visited.

(** [visitedUrls.add(sitemapUrl)] followed by [axios.get(sitemapUrl, ...)]. *)
Definition visit (sitemapUrl : string) (w : walk) : walk :=
  mkWalk (visitedUrls w ++ [sitemapUrl]) (requests w ++ [sitemapUrl]).

Section WithHttp.

Context {http : HttpClient}.

(** The function after its guard: the URL is added to [visitedUrls] and
    fetched, and the document is counted.  [recurse] is the nested call
    [countTotalUrlsInSitemaps(nestedSitemapUrl, timeout, maxDepth - 1,
    visitedUrls)]; a failure inside the [try] (a rejected request) leaves
    [totalUrls] at 0. *)
Definition fetch_and_count
    (recurse : string -> walk -> Z * walk) (sitemapUrl : string) (w : walk)
  : Z * walk :=
  let w := visit sitemapUrl w in
  match http_get sitemapUrl with
  | None => (0, w)
  | Some response =>
      if status response =? 200 then
        let content := data response in
        let contentType :=
          match content_type response with Some t => t | None => "" end in
        if JS.includes contentType "xml" || JS.includes contentType "text" then
          if is_sitemap_index content then
            fold_left
              (fun (acc : Z * walk) nestedSitemapUrl =>
                 let '(totalUrls, w) := acc in
                 let '(nestedUrlCount, w) := recurse nestedSitemapUrl w in
                 (totalUrls + nestedUrlCount, w))
              (extractSitemapUrlsFromIndex content) (0, w)
          else if is_urlset content then (countUrlsInSitemap content, w)
          else (0, w)
        else (0, w)
      else (0, w)
  end.

(** [countTotalUrlsInSitemaps], by recursion on the remaining depth: depth
    [O] is [maxDepth <= 0] and the nested call receives [maxDepth - 1]. *)
Fixpoint count_from (depth : nat) (sitemapUrl : string) (w : walk) : Z * walk :=
  match depth with
  | O => (0, w)
  | S depth' =>
      if has (visitedUrls w) sitemapUrl then (0, w)
      else fetch_and_count (count_from depth') sitemapUrl w
  end.

Definition countTotalUrlsInSitemaps
    (sitemapUrl : string) (maxDepth : Z) (w : walk) : Z * walk :=
  count_from (Z.to_nat maxDepth) sitemapUrl w.

(** The defaults of the signature: [maxDepth = 10], [visitedUrls = new Set()]. *)
Definition default_maxDepth : Z := 10.
Definition new_walk : walk := mkWalk [] [].

End WithHttp.

End SitemapAnalyzer.

(* ================================================================== *)
(** * src/seo-analyzer.js: analyzeLinks *)
(* ================================================================== *)

Module SEOAnalyzer.

Import WebURL.

(** An element selected by [$('a[href]')]: its [href] attribute (possibly
    empty), its text and its [target] attribute. *)
Record anchor : Type := mkAnchor {
  attr_href : string;
  text : string;
  attr_target : option string
}.

Record linkData : Type := mkLinkData {
  url : string;
  anchorText : string;
  target : option string;
  statusCode : option Z;
  isBroken : bool
}.

(** Social media domains to exclude from external links *)
Definition socialMediaDomains : list string :=
  [ "facebook.com"; "fb.com"; "m.facebook.com";
    "twitter.com"; "t.co"; "x.com";
    "instagram.com"; "linkedin.com";
    "youtube.com"; "youtu.be";
    "pinterest.com"; "tiktok.com";
    "snapchat.com"; "whatsapp.com";
    "telegram.org"; "discord.com";
    "reddit.com"; "tumblr.com";
    "flickr.com"; "vimeo.com";
    "medium.com"; "github.com";
    "bit.ly"; "tinyurl.com"; "goo.gl" ].

(** [socialMediaDomains.some(domain => hostname === domain ||
     hostname.endsWith('.' + domain))] *)
Definition isSocialMedia (hostname : string) : bool :=
  existsb (fun domain =>
             String.eqb hostname domain || JS.endsWith hostname ("." ++ domain))
          socialMediaDomains.

(** The test "Skip hash-only links (fragments pointing to same page)". *)
Definition isHashOnlyLink (href baseUrl : string) (url baseUrlObj : URL) : bool :=
  let has_hash := JS.truthy (hash url) && negb (String.eqb (hash url) "") in
  String.eqb (WebURL.href url) (baseUrl ++ "#") ||
  String.eqb (WebURL.href url) (baseUrl ++ "#content") ||
  (String.eqb (pathname url) (pathname baseUrlObj) && has_hash) ||
  (String.eqb (pathname url) "/" && has_hash) ||
  (JS.endsWith (pathname url) "/" && has_hash &&
   String.eqb (pathname url) (pathname baseUrlObj)) ||
  JS.endsWith href "#".

(** The locals of [analyzeLinks] that the callback of [links.each] updates. *)
Record locals : Type := mkLocals {
  internalLinksCount : Z;
  externalLinksCount : Z;
  totalAnchorTextLength : Z;
  internalLinks : list linkData;
  externalLinks : list linkData
}.

Definition add_anchor_text (anchorText : string) (l : locals) : locals :=
  if JS.truthy anchorText then
    mkLocals (internalLinksCount l) (externalLinksCount l)
             (totalAnchorTextLength l + JS.length anchorText)
             (internalLinks l) (externalLinks l)
  else l.

Definition add_internal (d : linkData) (l : locals) : locals :=
  mkLocals (internalLinksCount l + 1) (externalLinksCount l)
           (totalAnchorTextLength l) (internalLinks l ++ [d]) (externalLinks l).

Definition add_external (d : linkData) (l : locals) : locals :=
  mkLocals (internalLinksCount l) (externalLinksCount l + 1)
           (totalAnchorTextLength l) (internalLinks l) (externalLinks l ++ [d]).

(** The outcome of the callback for one anchor. *)
Inductive link_class : Type :=
| NoHref          (* empty href attribute *)
| Unresolvable    (* [new URL] throws: "Invalid URL, skip" *)
| HashOnly        (* skipped by the hash-only test *)
| Internal
| SocialMedia     (* other host, on the social list: not counted *)
| External.

Section WithPlatform.

Context {platform : Platform}.

(** The branch the callback takes for an anchor with this [href]. *)
Definition classify (baseUrl href : string) : link_class :=
  if JS.truthy href then
    match URL_parse href (Some baseUrl), URL_parse baseUrl None with
    | Some url, Some baseUrlObj =>
        let baseHost := hostname baseUrlObj in
        if isHashOnlyLink href baseUrl url baseUrlObj then HashOnly
        else if String.eqb (hostname url) baseHost then Internal
        else if isSocialMedia (hostname url) then SocialMedia
        else External
    | _, _ => Unresolvable
    end
  else NoHref.

(** The callback of [links.each]. *)
Definition each_link (baseUrl : string) (l : locals) (link : anchor) : locals :=
  let href := attr_href link in
  let anchorText := JS.trim (text link) in
  let target :=
    match attr_target link with
    | Some EmptyString | None => None
    | Some t => Some t
    end in
  let l := add_anchor_text anchorText l in
  if JS.truthy href then
    match URL_parse href (Some baseUrl), URL_parse baseUrl None with
    | Some url, Some baseUrlObj =>
        let baseHost := hostname baseUrlObj in
        if isHashOnlyLink href baseUrl url baseUrlObj then l (* return; *)
        else
          let linkData := mkLinkData (WebURL.href url) anchorText target None false in
          if String.eqb (hostname url) baseHost then add_internal linkData l
          else if negb (isSocialMedia (hostname url)) then add_external linkData l
          else l
    | _, _ => l (* Invalid URL, skip *)
    end
  else l.

(** The part of the object [analyzeLinks] returns that does not depend on
    the liveness probes ([checkLinkStatuses] only fills [statusCode] and
    [isBroken] of the collected links). *)
Record linksAnalysis : Type := mkLinksAnalysis {
  la_internalLinksCount : Z;
  la_externalLinksCount : Z;
  la_averageAnchorTextLength : JS.number;
  la_internalLinks : list linkData;
  la_externalLinks : list linkData
}.

Definition analyzeLinks (links : list anchor) (baseUrl : string) : linksAnalysis :=
  let l := fold_left (each_link baseUrl) links (mkLocals 0 0 0 [] []) in
  let averageAnchorTextLength :=
    if Z.of_nat (List.length links) >? 0 then
      JS.Math_round (JS.div (JS.of_Z (totalAnchorTextLength l))
                            (JS.of_Z (Z.of_nat (List.length links))))
    else JS.of_Z 0 in
  mkLinksAnalysis (internalLinksCount l) (externalLinksCount l)
                  averageAnchorTextLength (internalLinks l) (externalLinks l).

End WithPlatform.

End SEOAnalyzer.

(* ================================================================== *)
(** * src/main.js: calculateDomainAnalysis *)
(* ================================================================== *)

Module Main.

Import WebURL.

(** [r.openGraphData], when present. *)
Record openGraphData : Type := mkOpenGraphData {
  og_title : string;
  og_description : string;
  og_image : string;
  og_images : option (list string)
}.

(** The properties of a page result that [calculateDomainAnalysis] reads.
    A result pushed after a failed fetch has only [url], [error] and
    [statusCode]; the others are then [undefined]. *)
Record pageResult : Type := mkPageResult {
  url : string;
  seo_page_score : option Z;
  h1Count : option Z;
  descriptionLength : option Z;
  error : string;
  statusCode : option Z;
  hasOpenGraph : bool;
  openGraph : option openGraphData;
  titleLength : option Z;
  words : option Z;
  internalLinksCount : option Z
}.

(** The numeric part of the object [calculateDomainAnalysis] returns (the
    certificate and sitemap descriptors are passed through from their
    collaborators and are left out). *)
Record domainAnalysis : Type := mkDomainAnalysis {
  domain_name : string;
  domainLength : Z;
  total_pages_analyzed : Z;
  average_seo_score : JS.number;
  overall_grade : string;
  seo_score : JS.number;
  seo_grade : string;
  pages_with_h1 : Z;
  pages_with_h1_percentage : JS.number;
  pages_with_meta_description : Z;
  pages_with_meta_description_percentage : JS.number;
  pages_with_errors : Z;
  pages_with_errors_percentage : JS.number;
  average_title_length : JS.number;
  average_description_length : JS.number;
  average_words_per_page : JS.number;
  average_internal_links : JS.number;
  pages_with_successful_status : Z;
  pages_with_successful_status_percentage : JS.number;
  pages_with_redirect_status : Z;
  pages_with_redirect_status_percentage : JS.number;
  pages_with_error_status : Z;
  pages_with_error_status_percentage : JS.number;
  pages_with_opengraph : Z;
  pages_with_opengraph_percentage : JS.number;
  pages_with_opengraph_title : Z;
  pages_with_opengraph_title_percentage : JS.number;
  pages_with_opengraph_description : Z;
  pages_with_opengraph_description_percentage : JS.number;
  pages_with_opengraph_image : Z;
  pages_with_opengraph_image_percentage : JS.number
}.

(** [results.filter(p).length] *)
Definition count {A} (p : A -> bool) (xs : list A) : Z :=
  Z.of_nat (List.length (filter p xs)).

(** [results.reduce((sum, r) => sum + (f(r) || 0), 0)] *)
Definition sum_of {A} (f : A -> option Z) (xs : list A) : Z :=
  fold_left (fun sum r => sum + JS.or_num (f r) 0) xs 0.

(** [Math.round((n / totalPages) * 100)] *)
Definition percentage (n totalPages : Z) : JS.number :=
  JS.Math_round (JS.mul (JS.div (JS.of_Z n) (JS.of_Z totalPages)) (JS.of_Z 100)).

(** [Math.round(sum / totalPages)] *)
Definition rounded_average (sum totalPages : Z) : JS.number :=
  JS.Math_round (JS.div (JS.of_Z sum) (JS.of_Z totalPages)).

(** [r.openGraphData?.image ||
     (r.openGraphData?.images && r.openGraphData.images.length > 0)] *)
Definition has_og_image (r : pageResult) : bool :=
  match openGraph r with
  | Some og =>
      JS.truthy (og_image og) ||
      match og_images og with
      | Some images => Z.of_nat (List.length images) >? 0
      | None => false
      end
  | None => false
  end.

Definition og_field (f : openGraphData -> string) (r : pageResult) : bool :=
  match openGraph r with Some og => JS.truthy (f og) | None => false end.

Section WithPlatform.

Context {platform : Platform}.

(** [calculateDomainAnalysis(results)]; [None] when [new URL(firstUrl)]
    throws, the only statement of the function that can
    ([analyzeSSLCertificate] resolves on every path). *)
Definition calculateDomainAnalysis (results : list pageResult)
  : option domainAnalysis :=
  (* Calculate average SEO score across all pages *)
  let validResults :=
    filter (fun r => match seo_page_score r with Some _ => true | None => false end)
           results in
  let averageScore :=
    if Z.of_nat (List.length validResults) >? 0 then
      JS.div
        (JS.of_Z (fold_left
                    (fun sum r =>
                       sum + match seo_page_score r with Some s => s | None => 0 end)
                    validResults 0))
        (JS.of_Z (Z.of_nat (List.length validResults)))
    else JS.of_Z 0 in
  (* Determine overall grade *)
  let overallGrade :=
    if JS.geb averageScore 90 then "A"
    else if JS.geb averageScore 80 then "B"
    else if JS.geb averageScore 70 then "C"
    else if JS.geb averageScore 60 then "D"
    else "F" in
  (* Extract domain from first result *)
  let firstUrl := match results with r :: _ => url r | [] => "" end in
  let domain :=
    if JS.truthy firstUrl then option_map hostname (URL_parse firstUrl None)
    else Some "" in
  match domain with
  | None => None
  | Some domain =>
      (* Calculate domain-level metrics *)
      let totalPages := Z.of_nat (List.length results) in
      let pagesWithH1 := count (fun r => JS.gt_num (h1Count r) 0) results in
      let pagesWithMetaDesc :=
        count (fun r => JS.gt_num (descriptionLength r) 0) results in
      let pagesWithErrors := count (fun r => JS.truthy (error r)) results in
      (* Status code analysis *)
      let statusCodes :=
        flat_map (fun r => if JS.truthy_num (statusCode r)
                           then match statusCode r with Some c => [c] | None => [] end
                           else [])
                 results in
      let successfulPages :=
        count (fun code => (code >=? 200) && (code <? 300)) statusCodes in
      let redirectPages :=
        count (fun code => (code >=? 300) && (code <? 400)) statusCodes in
      let errorPages := count (fun code => code >=? 400) statusCodes in
      (* OpenGraph analysis *)
      let pagesWithOpenGraph := count hasOpenGraph results in
      let pagesWithOpenGraphTitle := count (og_field og_title) results in
      let pagesWithOpenGraphDescription := count (og_field og_description) results in
      let pagesWithOpenGraphImage := count has_og_image results in
      let rounded_score :=
        JS.div (JS.Math_round (JS.mul averageScore (JS.of_Z 100))) (JS.of_Z 100) in
      Some {|
        domain_name := domain;
        domainLength := JS.length domain;
        total_pages_analyzed := totalPages;
        average_seo_score := rounded_score;
        overall_grade := overallGrade;
        seo_score := rounded_score;
        seo_grade := overallGrade;
        pages_with_h1 := pagesWithH1;
        pages_with_h1_percentage := percentage pagesWithH1 totalPages;
        pages_with_meta_description := pagesWithMetaDesc;
        pages_with_meta_description_percentage :=
          percentage pagesWithMetaDesc totalPages;
        pages_with_errors := pagesWithErrors;
        pages_with_errors_percentage := percentage pagesWithErrors totalPages;
        average_title_length := rounded_average (sum_of titleLength results) totalPages;
        average_description_length :=
          rounded_average (sum_of descriptionLength results) totalPages;
        average_words_per_page := rounded_average (sum_of words results) totalPages;
        average_internal_links :=
          rounded_average (sum_of internalLinksCount results) totalPages;
        pages_with_successful_status := successfulPages;
        pages_with_successful_status_percentage :=
          percentage successfulPages totalPages;
        pages_with_redirect_status := redirectPages;
        pages_with_redirect_status_percentage := percentage redirectPages totalPages;
        pages_with_error_status := errorPages;
        pages_with_error_status_percentage := percentage errorPages totalPages;
        pages_with_opengraph := pagesWithOpenGraph;
        pages_with_opengraph_percentage := percentage pagesWithOpenGraph totalPages;
        pages_with_opengraph_title := pagesWithOpenGraphTitle;
        pages_with_opengraph_title_percentage :=
          percentage pagesWithOpenGraphTitle totalPages;
        pages_with_opengraph_description := pagesWithOpenGraphDescription;
        pages_with_opengraph_description_percentage :=
          percentage pagesWithOpenGraphDescription totalPages;
        pages_with_opengraph_image := pagesWithOpenGraphImage;
        pages_with_opengraph_image_percentage :=
          percentage pagesWithOpenGraphImage totalPages
      |}
  end.

End WithPlatform.

End Main.

(* ================================================================== *)
(** * src/seo-analyzer.js: heading structure and heading score *)
(* ================================================================== *)

Module Headings.

(** [s.split(/\s+/)]: the pieces between the runs of white space; a run at
    the start or at the end leaves an empty piece there.  [in_space] holds
    while the previous character belongs to a run, and [skip] bytes still
    belong to a white space character already seen. *)
Fixpoint split_spaces (in_space : bool) (skip : nat) (s : string) : list string :=
  match s with
  | EmptyString => [EmptyString]
  | String c r =>
      match skip with
      | S skip' => split_spaces true skip' r
      | O =>
          match JS.leading_space s with
          | S bytes =>
              if in_space then split_spaces true bytes r
              else EmptyString :: split_spaces true bytes r
          | O =>
              match split_spaces false O r with
              | w :: ws => String c w :: ws
              | [] => [String c EmptyString]
              end
          end
      end
  end.

Definition split (s : string) : list string := split_spaces false O s.

(** An element selected by [$('h1, h2, h3, h4, h5, h6')]: [el_level] is the
    digit of its tag name, which [parseInt(tag.charAt(1))] reads. *)
Record heading_element : Type := mkHeadingElement {
  el_level : Z;
  el_text : string
}.

Record heading : Type := mkHeading {
  tag : string;
  level : Z;
  text : string;
  position : Z
}.

(** [analyzeHeadingStructure]: the callback of [each] pushes the headings
    whose trimmed text is not empty. *)
Definition analyzeHeadingStructure (elements : list heading_element) : list heading :=
  fold_left
    (fun headings el =>
       let tag := "h" ++ JS.string_of_Z (el_level el) in
       let level := el_level el in
       let text := JS.trim (el_text el) in
       if JS.truthy text then
         (headings ++ [mkHeading tag level text (Z.of_nat (List.length headings) + 1)])%list
       else headings)
    elements [].

(** The locals of the hierarchy loop of [calculateHeadingScore]. *)
Record hierarchy : Type := mkHierarchy {
  hierarchyScore : Z;
  previousLevel : Z;
  consecutiveSameLevel : Z;
  maxHierarchy : Z
}.

(** The body of [for (const heading of headings)]. *)
Definition hierarchy_step (h : hierarchy) (heading : heading) : hierarchy :=
  let h' :=
    if (level heading >? previousLevel h + 1) && negb (previousLevel h =? 0) then
      (* Skip levels *)
      mkHierarchy (hierarchyScore h - 5) (previousLevel h)
                  (consecutiveSameLevel h) (maxHierarchy h)
    else if level heading =? previousLevel h then
      let consecutive := consecutiveSameLevel h + 1 in
      mkHierarchy (if consecutive >? 2 then hierarchyScore h - 2 else hierarchyScore h)
                  (previousLevel h) consecutive (maxHierarchy h)
    else
      mkHierarchy (hierarchyScore h) (previousLevel h) 0 (maxHierarchy h) in
  mkHierarchy (hierarchyScore h') (level heading) (consecutiveSameLevel h')
              (Z.max (maxHierarchy h') (level heading)).

(** [headings.filter(h => h.tag === name).length] *)
Definition count_tag (name : string) (headings : list heading) : Z :=
  Z.of_nat (List.length (filter (fun h => String.eqb (tag h) name) headings)).

Section WithPlatform.

Context {platform : WebURL.Platform}.

(** [headings.some(h => h.text.toLowerCase().split(/\s+/).some(word =>
     titleWords.includes(word)))] *)
Definition titleHasKeywords (headings : list heading) (title : string) : bool :=
  let titleWords := split (WebURL.text_toLowerCase title) in
  existsb
    (fun h =>
       existsb (fun word => existsb (String.eqb word) titleWords)
               (split (WebURL.text_toLowerCase (text h))))
    headings.

Definition calculateHeadingScore (headings : list heading) (title : string) : Z :=
  let score := 0 in
  (* 1. H1 presence (20 points) *)
  let h1Count := count_tag "h1" headings in
  let score :=
    if h1Count =? 1 then score + 20
    else if h1Count =? 0 then score
    else score + 10 in
  (* 2. Proper hierarchy (30 points) *)
  let h := fold_left hierarchy_step headings (mkHierarchy 0 0 0 0) in
  let hierarchyScore := hierarchyScore h + Z.min (maxHierarchy h * 5) 20 in
  let hierarchyScore := Z.max hierarchyScore 0 in
  let score := score + Z.min hierarchyScore 30 in
  (* 3. Title relevance (20 points) *)
  let score :=
    if JS.truthy title && titleHasKeywords headings title then score + 20
    else score in
  (* 4. Content distribution (30 points) *)
  let h2Count := count_tag "h2" headings in
  let h3Count := count_tag "h3" headings in
  let totalHeadings := Z.of_nat (List.length headings) in
  let score :=
    if totalHeadings >=? 3 then
      score + 15 + (if h2Count >=? 2 then 10 else 0) + (if h3Count >=? 3 then 5 else 0)
    else score in
  Z.max 0 (Z.min 100 score).

End WithPlatform.

End Headings.

(* ================================================================== *)
(** * src/sitemap-analyzer.js: redirects, robots.txt and the domain analysis *)
(* ================================================================== *)

Module SitemapDomain.

Import WebURL SitemapAnalyzer.

(** What [axios.head(url, { maxRedirects: 0 })] does: it resolves for a
    2xx status and is rejected otherwise; the rejection carries the
    response, when there is one, with its status and [location] header. *)
Inductive head_outcome : Type :=
| HeadResolved
| HeadRejected (response : option (Z * option string)).

(** What [response.data] can be.  axios hands over the body of a response
    as a string, unless the body is valid JSON: then it hands over the
    value [JSON.parse] makes of it.  A number comes with the text
    [String] gives for it, and of an object nothing is read. *)
#[warnings="-register-all"] Inductive json : Type :=
| JNull
| JBool (b : bool)
| JNumber (printed : string)
| JString (s : string)
| JArray (elements : list json)
| JObject.

(** The collaborators of the domain analysis besides [http_get]: the HEAD
    probe, the JSON parser, and the [message] of the errors that end up
    in [results.error]. *)
Class Probe : Type := {
  http_head : string -> head_outcome;
  (** [JSON.parse(body)], [None] when it throws *)
  JSON_parse : string -> option json;
  (** [error.message] of a rejected [axios.get(url)] *)
  get_error_message : string -> string;
  (** [error.message] of the [TypeError] that [new URL] throws *)
  url_error_message : string;
  (** [error.message] of the [TypeError] that calling the method of this
      name on this value throws *)
  type_error_message : json -> string -> string
}.

(** [String(value)], which is what a regular expression is run on. *)
Fixpoint to_string (value : json) : string :=
  match value with
  | JNull => "null"
  | JBool true => "true"
  | JBool false => "false"
  | JNumber printed => printed
  | JString s => s
  | JArray elements =>
      (* [elements.join(',')], where [null] gives the empty string *)
      JS.join ","
        ((fix each (values : list json) : list string :=
            match values with
            | [] => []
            | JNull :: rest => EmptyString :: each rest
            | v :: rest => to_string v :: each rest
            end) elements)
  | JObject => "[object Object]"
  end.

(** [array.includes(needle)] for a string [needle]. *)
Definition array_includes (elements : list json) (needle : string) : bool :=
  existsb (fun v => match v with JString s => String.eqb s needle | _ => false end)
          elements.

(** ** getLastModifiedFromSitemap *)

(** The first match of [/<lastmod[^>]*>([^<]+)<\/lastmod>/i], trimmed. *)
Fixpoint getLastModifiedFromSitemap (xmlContent : string) : option string :=
  match xmlContent with
  | EmptyString => None
  | String _ r =>
      match match_element "lastmod" xmlContent with
      | Some (captured, _) => Some (JS.trim captured)
      | None => getLastModifiedFromSitemap r
      end
  end.

(** ** extractSitemapsFromRobots *)

(** The line terminators of the regular expressions: LF and CR. *)
Definition is_line_terminator (c : ascii) : bool :=
  let n := nat_of_ascii c in ((n =? 10) || (n =? 13))%nat.

(** The last character of [s] that is not a line terminator, with the
    number of characters of [s] up to and including it. *)
Fixpoint last_on_line (s : string) : option (ascii * nat) :=
  match s with
  | EmptyString => None
  | String c r =>
      match last_on_line r with
      | Some (d, n) => Some (d, S n)
      | None => if is_line_terminator c then None else Some (c, 1%nat)
      end
  end.

(** [\s*(.+)$] after ["sitemap:"]: the white space is skipped and the
    rest of the line is captured; when only white space is left, the
    expression backtracks to its last character that is not a line
    terminator.  The result is the captured group and the number of
    characters of the match. *)
Definition match_robots_value (s : string) : option (string * nat) :=
  let '(spaces, rest) := break (fun c => negb (JS.is_space c)) s in
  match rest with
  | String _ _ =>
      let '(captured, _) := break is_line_terminator rest in
      Some (captured, (String.length spaces + String.length captured)%nat)
  | EmptyString =>
      match last_on_line spaces with
      | Some (c, n) => Some (String c EmptyString, n)
      | None => None
      end
  end.

(** The captured groups of all the matches of [/^sitemap:\s*(.+)$/gmi]:
    [at_line_start] holds at the start of the text and after a line
    terminator, and [skip] characters belong to the previous match. *)
Fixpoint robots_values (at_line_start : bool) (skip : nat) (s : string) : list string :=
  match s with
  | EmptyString => []
  | String c r =>
      let next := is_line_terminator c in
      match skip with
      | S k => robots_values next k r
      | O =>
          if at_line_start && prefix_ci "sitemap:" s then
            match match_robots_value (drop 8 s) with
            | Some (captured, len) =>
                captured :: robots_values next (7 + len) r
            | None => robots_values next O r
            end
          else robots_values next O r
      end
  end.

Section WithPlatform.

Context {platform : Platform}.

(** The body of the loop of [extractSitemapsFromRobots] for one match:
    the URLs it pushes (none when [new URL] throws). *)
Definition robots_entry (captured : string) : list string :=
  let sitemapUrl := JS.trim captured in
  if negb (JS.startsWith sitemapUrl "http") then
    (* Convert relative URLs to absolute *)
    match URL_parse "/" (Some (if JS.startsWith sitemapUrl "/" then sitemapUrl
                               else "/" ++ sitemapUrl)) with
    | Some baseUrl => [href baseUrl]
    | None => []
    end
  else [sitemapUrl].

Definition extractSitemapsFromRobots (robotsContent : string) : list string :=
  flat_map robots_entry (robots_values true O robotsContent).

Context {probe : Probe}.

(** ** followRedirects *)

(** [status === 301 || status === 302 || status === 307 || status === 308] *)
Definition is_redirect_status (status : Z) : bool :=
  (status =? 301) || (status =? 302) || (status =? 307) || (status =? 308).

(** [baseUrl.host] *)
Definition host (u : URL) : string :=
  hostname u ++ match port u with Some p => ":" ++ p | None => "" end.

(** The state of one call: the HEAD requests issued so far. *)
Definition head_log : Type := list string.

(** The loop [while (redirectCount < maxRedirects)], by recursion on the
    redirects left; the result is [None] when [new URL(currentUrl)]
    throws while a relative location is resolved. *)
Fixpoint follow (left : nat) (currentUrl : string) (log : head_log)
  : option string * head_log :=
  match left with
  | O => (Some currentUrl, log)
  | S left' =>
      let log := (log ++ [currentUrl])%list in
      match http_head currentUrl with
      | HeadResolved => (Some currentUrl, log)
      | HeadRejected (Some (status, Some location)) =>
          if is_redirect_status status then
            if JS.truthy location then
              if JS.startsWith location "/" then
                match URL_parse currentUrl None with
                | Some baseUrl =>
                    follow left' (protocol baseUrl ++ "//" ++ host baseUrl ++ location) log
                | None => (None, log)
                end
              else if JS.startsWith location "http" then follow left' location log
              else
                match URL_parse currentUrl None with
                | Some baseUrl =>
                    follow left'
                      (protocol baseUrl ++ "//" ++ host baseUrl ++ "/" ++ location) log
                | None => (None, log)
                end
            else (Some currentUrl, log)
          else (Some currentUrl, log)
      | HeadRejected (Some (status, None)) => (Some currentUrl, log)
      | HeadRejected None => (Some currentUrl, log)
      end
  end.

Definition followRedirects (url : string) (maxRedirects : Z) : option string * head_log :=
  follow (Z.to_nat maxRedirects) url [].

(** ** analyzeDomainSitemaps *)

Context {http : HttpClient}.

(** [response.data] for a response with this body: the transformation
    axios applies to a body that is not empty. *)
Definition content_of (body : string) : json :=
  if JS.truthy body then
    match JSON_parse body with
    | Some value => value
    | None => JString body
    end
  else JString body.

Record results : Type := mkResults {
  domain : string;
  sitemapUrl : option string;
  hasSitemap : bool;
  sitemapType : option string;
  sitemapSize : Z;
  sitemapLastModified : option string;
  sitemapUrls : list string;
  totalUrls : Z;
  error : option string
}.

Definition xml_or_text (response : response) : bool :=
  let contentType :=
    match content_type response with Some t => t | None => "" end in
  JS.includes contentType "xml" || JS.includes contentType "text".

Definition set_hasSitemap (r : results) : results :=
  mkResults (domain r) (sitemapUrl r) true (sitemapType r) (sitemapSize r)
    (sitemapLastModified r) (sitemapUrls r) (totalUrls r) (error r).

Definition set_sitemapType (r : results) (type : string) : results :=
  mkResults (domain r) (sitemapUrl r) (hasSitemap r) (Some type) (sitemapSize r)
    (sitemapLastModified r) (sitemapUrls r) (totalUrls r) (error r).

(** The [try] block after the sitemap has been fetched: the results as
    they are when the block is left, and the message of the error when it
    is left by a throw. *)
Definition read_sitemap (r : results) (finalSitemapUrl : string) (response : response)
  : results * option string :=
  if status response =? 200 then
    let content := content_of (data response) in
    if xml_or_text response then
      let r := set_hasSitemap r in
      match content with
      | JString content =>
          if is_sitemap_index content then
            (mkResults (domain r) (sitemapUrl r) true (Some "sitemap_index")
               (countSitemapsInIndex content) (sitemapLastModified r)
               (extractSitemapUrlsFromIndex content)
               (fst (countTotalUrlsInSitemaps finalSitemapUrl default_maxDepth new_walk))
               (error r),
             None)
          else if is_urlset content then
            let size := countUrlsInSitemap content in
            (mkResults (domain r) (sitemapUrl r) true (Some "urlset")
               size (getLastModifiedFromSitemap content)
               (extractUrlsFromSitemap content) size (error r),
             None)
          else (r, None)
      | JArray elements =>
          (* [includes] is the one of arrays; [xmlContent.match] does not
             exist and the call throws after the type has been set *)
          if array_includes elements "<sitemapindex"
             || array_includes elements "<sitemap:"
             || array_includes elements "sitemapindex" then
            (set_sitemapType r "sitemap_index",
             Some (type_error_message content "match"))
          else if array_includes elements "<urlset"
                  || array_includes elements "<url:"
                  || array_includes elements "urlset" then
            (set_sitemapType r "urlset", Some (type_error_message content "match"))
          else (r, None)
      | JNull | JBool _ | JNumber _ | JObject =>
          (* [content.includes] does not exist and the call throws *)
          (r, Some (type_error_message content "includes"))
      end
    else (r, None)
  else (r, None).

(** The [catch] block: the error is recorded and robots.txt is tried. *)
Definition robots_fallback (r : results) (domainUrl message : string) : results :=
  let r :=
    mkResults (domain r) (sitemapUrl r) (hasSitemap r) (sitemapType r)
      (sitemapSize r) (sitemapLastModified r) (sitemapUrls r) (totalUrls r)
      (Some message) in
  let robotsUrl := domainUrl ++ "/robots.txt" in
  match http_get robotsUrl with
  | Some robotsResponse =>
      if status robotsResponse =? 200 then
        let sitemapUrls :=
          extractSitemapsFromRobots (to_string (content_of (data robotsResponse))) in
        match sitemapUrls with
        | first :: _ =>
            let totalUrlsCount :=
              fold_left
                (fun total sitemapUrl =>
                   total +
                   fst (countTotalUrlsInSitemaps sitemapUrl default_maxDepth new_walk))
                sitemapUrls 0 in
            mkResults (domain r) (Some first) true (Some "robots_txt_reference")
              (sitemapSize r) (sitemapLastModified r) sitemapUrls totalUrlsCount
              (error r)
        | [] => r
        end
      else r
  | None =>
      mkResults (domain r) (sitemapUrl r) (hasSitemap r) (sitemapType r)
        (sitemapSize r) (sitemapLastModified r) (sitemapUrls r) (totalUrls r)
        (Some (message ++ "; robots.txt: " ++ get_error_message robotsUrl))
  end.

Definition analyzeDomainSitemaps (domainUrl : string) : results :=
  let initialSitemapUrl := domainUrl ++ "/sitemap.xml" in
  let r := mkResults domainUrl (Some initialSitemapUrl) false None 0 None [] 0 None in
  match fst (followRedirects initialSitemapUrl 5) with
  | None => robots_fallback r domainUrl url_error_message
  | Some finalSitemapUrl =>
      let r :=
        mkResults (domain r) (Some finalSitemapUrl) (hasSitemap r) (sitemapType r)
          (sitemapSize r) (sitemapLastModified r) (sitemapUrls r) (totalUrls r)
          (error r) in
      match http_get finalSitemapUrl with
      | Some response =>
          match read_sitemap r finalSitemapUrl response with
          | (r, None) => r
          | (r, Some message) => robots_fallback r domainUrl message
          end
      | None => robots_fallback r domainUrl (get_error_message finalSitemapUrl)
      end
  end.

(** [createDomainSitemapSummary] *)
Record summary : Type := mkSummary {
  summary_domain : string;
  sitemap_url : option string;
  summary_hasSitemap : bool;
  sitemap_type : option string;
  sitemap_size : Z;
  sitemap_lastmod : option string;
  sitemap_count : Z;
  sitemap_error : option string
}.

Definition createDomainSitemapSummary (domainAnalysis : results) : summary :=
  mkSummary (domain domainAnalysis) (sitemapUrl domainAnalysis)
    (hasSitemap domainAnalysis) (sitemapType domainAnalysis)
    (sitemapSize domainAnalysis) (sitemapLastModified domainAnalysis)
    (Z.of_nat (List.length (sitemapUrls domainAnalysis)))
    (error domainAnalysis).

End WithPlatform.

End SitemapDomain.

(* ================================================================== *)
(** * src/seo-analyzer.js: checkLinkStatuses and the broken-link figures *)
(* ================================================================== *)

Module LinkStatus.

Import WebURL SEOAnalyzer.

(** What [axios.head(url, { validateStatus: status => status < 500 })]
    does: it resolves with a status below 500 and is rejected otherwise;
    a rejection carries the status of the response when there is one. *)
Inductive head_outcome : Type :=
| Resolved (status : Z)
| Rejected (response_status : option Z).

Class LinkProbe : Type := {
  head_link : string -> head_outcome
}.

(** [s.substring(n)] *)
Definition substring_from (n : nat) (s : string) : string := SitemapAnalyzer.drop n s.

(** A character of the class [[^\s@]]. *)
Definition address_char (c : ascii) : bool :=
  negb (JS.is_space c) && negb (Ascii.eqb c "@").

Fixpoint all_chars (p : ascii -> bool) (s : string) : bool :=
  match s with
  | EmptyString => true
  | String c r => p c && all_chars p r
  end.

Fixpoint has_char (c : ascii) (s : string) : bool :=
  match s with
  | EmptyString => false
  | String d r => Ascii.eqb d c || has_char c r
  end.

(** [/^[^\s@]+@[^\s@]+\.[^\s@]+$/.test(s)]: a non-empty local part, an
    ["@"], and a rest made of the same characters with a dot that is
    neither its first nor its last character. *)
Definition emailRegex (s : string) : bool :=
  let '(local, rest) := break (fun c => negb (address_char c)) s in
  match local, rest with
  | String _ _, String "@" domain =>
      all_chars address_char domain &&
      match domain with
      | String _ inner => has_char "." (URLNormalizer.drop_last inner)
      | EmptyString => false
      end
  | _, _ => false
  end.

Definition set_status (link : linkData) (statusCode : Z) (isBroken : bool) : linkData :=
  mkLinkData (url link) (anchorText link) (target link) (Some statusCode) isBroken.

Section WithProbe.

Context {probe : LinkProbe}.

(** The callback of [batch.map] in [checkLinkStatuses]. *)
Definition check_link (link : linkData) : linkData :=
  if JS.startsWith (url link) "mailto:" then
    let emailAddress := substring_from 7 (url link) in
    if JS.truthy emailAddress && JS.truthy (JS.trim emailAddress)
       && emailRegex (JS.trim emailAddress)
    then set_status link 200 false
    else set_status link 400 true
  else if JS.startsWith (url link) "tel:" || JS.startsWith (url link) "sms:"
          || JS.startsWith (url link) "whatsapp:" then
    set_status link 200 false
  else
    match head_link (url link) with
    | Resolved status => set_status link status (status >=? 400)
    | Rejected response_status =>
        set_status link (JS.or_num response_status 0) true
    end.

(** [checkLinkStatuses(links)]: every link of the array is updated by the
    callback (the batches only pace the requests). *)
Definition checkLinkStatuses (links : list linkData) : list linkData :=
  map check_link links.

Context {platform : Platform}.

(** The object [analyzeLinks] returns, with the fields that depend on the
    liveness probes. *)
Record checkedLinks : Type := mkCheckedLinks {
  internalLinksCount : Z;
  externalLinksCount : Z;
  averageAnchorTextLength : JS.number;
  internalLinks : list linkData;
  externalLinks : list linkData;
  brokenInternalLinks : Z;
  brokenExternalLinks : Z;
  totalBrokenLinks : Z;
  brokenLinksPercentage : JS.number
}.

Definition count_broken (links : list linkData) : Z :=
  Z.of_nat (List.length (filter isBroken links)).

Definition analyzeLinksChecked (links : list anchor) (baseUrl : string) : checkedLinks :=
  let a := analyzeLinks links baseUrl in
  let internalLinks := checkLinkStatuses (la_internalLinks a) in
  let externalLinks := checkLinkStatuses (la_externalLinks a) in
  let brokenInternalLinks := count_broken internalLinks in
  let brokenExternalLinks := count_broken externalLinks in
  let totalBrokenLinks := brokenInternalLinks + brokenExternalLinks in
  let totalValidLinks := la_internalLinksCount a + la_externalLinksCount a in
  mkCheckedLinks (la_internalLinksCount a) (la_externalLinksCount a)
    (la_averageAnchorTextLength a) internalLinks externalLinks
    brokenInternalLinks brokenExternalLinks totalBrokenLinks
    (if totalValidLinks >? 0 then
       JS.Math_round
         (JS.mul (JS.div (JS.of_Z totalBrokenLinks) (JS.of_Z totalValidLinks))
                 (JS.of_Z 100))
     else JS.of_Z 0).

End WithProbe.

End LinkStatus.

(* ================================================================== *)
(** * src/main.js: the crawl loop *)
(* ================================================================== *)

Module Crawl.

Import WebURL.

(** [url.origin]: scheme, host and port for the schemes that have a tuple
    origin, and ["null"] for the others. *)
Definition has_tuple_origin (scheme : string) : bool :=
  existsb (String.eqb scheme) ["http"; "https"; "ftp"; "ws"; "wss"].

Definition origin (u : URL) : string :=
  if has_tuple_origin (scheme u) then
    scheme u ++ "://" ++ hostname u ++
    (match port u with Some p => ":" ++ p | None => "" end)
  else "null".

(** What the [catch] block reads of the error thrown. *)
Record error : Type := mkError {
  response : option Z;   (* [error.response.status], when there is a response *)
  code : string;         (* [error.code], empty when absent *)
  message : string
}.

(** The status code the [catch] block records. *)
Definition error_status (e : error) : Z :=
  match response e with
  | Some status => status
  | None =>
      if String.eqb (code e) "ENOTFOUND" || String.eqb (code e) "ECONNREFUSED" then 404
      else if String.eqb (code e) "ETIMEDOUT" then 408
      else if String.eqb (code e) "ECONNRESET" then 503
      else 500
  end.

(** The statements of the [try] block before [results.push]:
    [axios.get(currentUrl)], [analyzePage] and [calculateScore].  Either
    they yield the status of the response and the urls of
    [seoData.internalLinks], or one of them throws. *)
Inductive page_outcome : Type :=
| Analysed (statusCode : Z) (internalLinks : list string)
| Threw (e : error).

Class Site : Type := {
  visit_page : string -> page_outcome
}.

(** An element of [results]: the result of an analysed page (its url is
    the normalized one) or the error result of the [catch] block. *)
Inductive result : Type :=
| PageResult (url : string) (statusCode : Z)
| ErrorResult (url : string) (error : string) (statusCode : Z).

Record state : Type := mkState {
  results : list result;
  visitedUrls : list string;
  urlsToProcess : list string;
  processedCount : Z
}.

(** [visitedUrls.has(u)] and [urlsToProcess.includes(u)] *)
Definition has (urls : list string) (u : string) : bool :=
  existsb (String.eqb u) urls.

(** The error [new URL] throws, which has no response and none of the
    codes tested. *)
Definition invalid_url : error := mkError None "ERR_INVALID_URL" "Invalid URL".

Definition error_result (currentUrl : string) (e : error) : result :=
  ErrorResult currentUrl (message e) (error_status e).

Section Loop.

Context {platform : Platform} {site : Site}.

Variable maxRequestsPerCrawl : Z.
Variable crawlUrls : bool.

(** [fullUrl] for one link; [None] when the body of the inner [try]
    throws. *)
Definition fullUrl (normalizedUrl baseDomain link : string) : option string :=
  if negb (JS.truthy link) then None
  else if JS.startsWith link "http" then Some link
  else if JS.startsWith link "/" then Some (baseDomain ++ link)
  else option_map href (URL_parse link (Some normalizedUrl)).

(** The body of [for (const linkObj of seoData.internalLinks)]. *)
Definition enqueue (normalizedUrl baseDomain : string) (visitedUrls : list string)
  (urlsToProcess : list string) (link : string) : list string :=
  match fullUrl normalizedUrl baseDomain link with
  | Some fullUrl =>
      let normalizedLink := URLNormalizer.normalize fullUrl in
      if JS.startsWith normalizedLink baseDomain
         && negb (has visitedUrls normalizedLink)
         && negb (has urlsToProcess normalizedLink)
      then (urlsToProcess ++ [normalizedLink])%list
      else urlsToProcess
  | None => urlsToProcess
  end.

(** One turn of the [while] loop; [None] when its condition is false. *)
Definition step (st : state) : option state :=
  if (Z.of_nat (List.length (urlsToProcess st)) >? 0)
     && (processedCount st <? maxRequestsPerCrawl) then
    match urlsToProcess st with
    | [] => None
    | currentUrl :: urlsToProcess =>
        if has (visitedUrls st) currentUrl then
          (* continue *)
          Some (mkState (results st) (visitedUrls st) urlsToProcess (processedCount st))
        else
          let visitedUrls := (visitedUrls st ++ [currentUrl])%list in
          match visit_page currentUrl with
          | Threw e =>
              Some (mkState (results st ++ [error_result currentUrl e])
                            visitedUrls urlsToProcess (processedCount st))
          | Analysed statusCode internalLinks =>
              let normalizedUrl := URLNormalizer.normalize currentUrl in
              let results := (results st ++ [PageResult normalizedUrl statusCode])%list in
              if crawlUrls && (Z.of_nat (List.length internalLinks) >? 0) then
                match URL_parse normalizedUrl None with
                | Some base =>
                    let baseDomain := origin base in
                    Some (mkState results visitedUrls
                            (fold_left (enqueue normalizedUrl baseDomain visitedUrls)
                                       internalLinks urlsToProcess)
                            (processedCount st + 1))
                | None =>
                    (* [new URL(normalizedUrl)] throws after the push *)
                    Some (mkState (results ++ [error_result currentUrl invalid_url])
                                  visitedUrls urlsToProcess (processedCount st))
                end
              else
                Some (mkState results visitedUrls urlsToProcess (processedCount st + 1))
          end
    end
  else None.

(** The loop, for at most [fuel] turns; [None] when they do not suffice. *)
Fixpoint run (fuel : nat) (st : state) : option state :=
  match step st with
  | None => Some st
  | Some st' =>
      match fuel with
      | O => None
      | S fuel => run fuel st'
      end
  end.

(** The state before the loop. *)
Definition start (startUrls : list string) : state :=
  mkState [] [] startUrls 0.

End Loop.

End Crawl.

(* ================================================================== *)
(** * src/seo-analyzer.js: countDuplicateWords *)
(* ================================================================== *)

Module TitleWords.

(** [wordCount], an object used as a map from words to numbers: the pairs
    written so far, the latest first. *)
Definition wordCount : Type := list (string * Z).

(** [wordCount[word]], for an own property. *)
Fixpoint lookup (word : string) (m : wordCount) : option Z :=
  match m with
  | [] => None
  | (k, n) :: m' => if String.eqb k word then Some n else lookup word m'
  end.

(** The names the empty object [{}] inherits.  For such a word
    [wordCount[word]] is not a number, [(wordCount[word] || 0) + 1] is a
    string, and the comparison with 2 is never true. *)
Definition inherited (word : string) : bool :=
  existsb (String.eqb word)
    [ "constructor"; "__proto__"; "hasOwnProperty"; "isPrototypeOf";
      "propertyIsEnumerable"; "toLocaleString"; "toString"; "valueOf";
      "__defineGetter__"; "__defineSetter__"; "__lookupGetter__";
      "__lookupSetter__" ].

(** The callback of [words.forEach], on the map and the counter. *)
Definition each_word (acc : wordCount * Z) (word : string) : wordCount * Z :=
  let '(m, duplicates) := acc in
  if JS.length word >? 2 then
    if inherited word then (m, duplicates)
    else
      let n := JS.or_num (lookup word m) 0 + 1 in
      ((word, n) :: m, if n =? 2 then duplicates + 1 else duplicates)
  else (m, duplicates).

Definition countDuplicateWords {platform : WebURL.Platform} (text : string) : Z :=
  if negb (JS.truthy text) then 0
  else
    let words := Headings.split (WebURL.text_toLowerCase text) in
    snd (fold_left each_word words ([], 0)).

End TitleWords.

(* ================================================================== *)
(** * src/seo-analyzer.js: analyzeImagesDetailed and detectImageInfo *)
(* ================================================================== *)

Module Images.

Import WebURL.

(** ** parseInt *)

Definition digit (c : ascii) : option Z :=
  let n := nat_of_ascii c in
  if ((48 <=? n) && (n <=? 57))%nat then Some (Z.of_nat (n - 48)) else None.

(** The value of the leading decimal digits of [s], after [acc]. *)
Fixpoint leading_digits (acc : Z) (s : string) : Z :=
  match s with
  | EmptyString => acc
  | String c r =>
      match digit c with
      | Some d => leading_digits (10 * acc + d) r
      | None => acc
      end
  end.

Definition starts_with_digit (s : string) : bool :=
  match s with
  | String c _ => match digit c with Some _ => true | None => false end
  | EmptyString => false
  end.

(** [parseInt(s, 10)]: leading white space, an optional sign and the
    longest run of digits; NaN when there is no digit. *)
Definition parseInt (s : string) : JS.number :=
  let s := JS.trimStart s in
  let '(negative, s) :=
    match s with
    | String "-" r => (true, r)
    | String "+" r => (false, r)
    | _ => (false, s)
    end in
  if starts_with_digit s then
    JS.of_Z (if negative then - leading_digits 0 s else leading_digits 0 s)
  else JS.NaN.

(** ** detectImageInfo *)

Record imageInfo : Type := mkImageInfo {
  contentType : string;
  sizeInBytes : JS.number;
  sizeInKb : JS.number
}.

(** The two headers read of the response to the HEAD request. *)
Record headers : Type := mkHeaders {
  content_length : string;   (* empty when the header is absent *)
  content_type : string      (* empty when the header is absent *)
}.

(** [axios.head(imageUrl, ...)]: the headers of the response, or [None]
    when the request is rejected. *)
Class ImageProbe : Type := {
  head_image : string -> option headers
}.

(** [Math.round((sizeInBytes / 1000) * 100) / 100] *)
Definition kilobytes (sizeInBytes : JS.number) : JS.number :=
  JS.div (JS.Math_round (JS.mul (JS.div sizeInBytes (JS.of_Z 1000)) (JS.of_Z 100)))
         (JS.of_Z 100).

(** [header.match(/data:([^;]+)/)]: the first place where ["data:"] is
    followed by a character other than [";"], and the characters from
    there up to the next [";"]. *)
Fixpoint match_mime (header : string) : option string :=
  let here :=
    if JS.is_prefix "data:" header then
      match fst (break (is_char ";") (SitemapAnalyzer.drop 5 header)) with
      | EmptyString => None
      | mime => Some mime
      end
    else None in
  match here with
  | Some mime => Some mime
  | None =>
      match header with
      | EmptyString => None
      | String _ r => match_mime r
      end
  end.

(** The content type the file extension gives. *)
Definition type_of_extension (pathname : string) : string :=
  if JS.endsWith pathname ".jpg" || JS.endsWith pathname ".jpeg" then "image/jpeg"
  else if JS.endsWith pathname ".png" then "image/png"
  else if JS.endsWith pathname ".gif" then "image/gif"
  else if JS.endsWith pathname ".webp" then "image/webp"
  else if JS.endsWith pathname ".svg" then "image/svg+xml"
  else if JS.endsWith pathname ".bmp" then "image/bmp"
  else if JS.endsWith pathname ".ico" then "image/x-icon"
  else if JS.endsWith pathname ".tiff" || JS.endsWith pathname ".tif" then "image/tiff"
  else if JS.endsWith pathname ".avif" then "image/avif"
  else if JS.endsWith pathname ".heic" then "image/heic"
  else if JS.endsWith pathname ".heif" then "image/heif"
  else "image/unknown".

Section WithCollaborators.

Context {platform : Platform} {probe : ImageProbe}.

(** [detectImageInfo(imageUrl)]; [None] when it throws. *)
Definition detectImageInfo (imageUrl : string) : option imageInfo :=
  if JS.startsWith imageUrl "data:" then
    (* const [header, data] = imageUrl.split(',') *)
    match split_on "," imageUrl with
    | header :: data :: _ =>
        let contentType :=
          match match_mime header with
          | Some mime => mime
          | None => "image/unknown"
          end in
        let sizeInBytes :=
          JS.Math_round (JS.div (JS.of_Z (JS.length data * 3)) (JS.of_Z 4)) in
        Some (mkImageInfo contentType sizeInBytes (kilobytes sizeInBytes))
    | _ => None   (* [data] is undefined: [data.length] throws *)
    end
  else
    match URL_parse imageUrl None with
    | None => None
    | Some url =>
        let pathname := JS.toLowerCase (pathname url) in
        let contentType := type_of_extension pathname in
        match head_image imageUrl with
        | Some response =>
            let contentLength := content_length response in
            let '(sizeInBytes, sizeInKb) :=
              if JS.truthy contentLength then
                (parseInt contentLength, kilobytes (parseInt contentLength))
              else (JS.of_Z 0, JS.of_Z 0) in
            let responseContentType := content_type response in
            let contentType :=
              if JS.truthy responseContentType
                 && JS.startsWith responseContentType "image/"
              then responseContentType else contentType in
            Some (mkImageInfo contentType sizeInBytes sizeInKb)
        | None =>
            Some (mkImageInfo contentType (JS.of_Z 0) (JS.of_Z 0))
        end
    end.

(** ** analyzeImagesDetailed *)

(** An element selected by [$('img[src]')]. *)
Record img : Type := mkImg {
  attr_src : string;
  attr_alt : option string
}.

Record image : Type := mkImage {
  imageUrl : string;
  imageIndex : Z;
  contentLength : JS.number;
  image_contentType : string;
  statusCode : Z;
  alt : string;
  sizeInByte : JS.number;
  image_sizeInKb : JS.number
}.

(** [fullUrl]; [None] when [new URL] throws. *)
Definition fullUrl (baseUrl src : string) : option string :=
  if JS.startsWith src "http" then Some src
  else if JS.startsWith src "/" then
    option_map (fun base => Crawl.origin base ++ src) (URL_parse baseUrl None)
  else option_map href (URL_parse src (Some baseUrl)).

(** The body of the loop for the element at index [i]: the image pushed,
    if any. *)
Definition image_at (baseUrl : string) (i : Z) (el : img) : option image :=
  let src := attr_src el in
  if negb (JS.truthy src) then None   (* continue *)
  else
    match fullUrl baseUrl src with
    | None => None
    | Some fullUrl =>
        match detectImageInfo fullUrl with
        | None => None
        | Some info =>
            Some (mkImage fullUrl (i + 1) (sizeInBytes info) (contentType info) 200
                          (match attr_alt el with Some a => a | None => "" end)
                          (sizeInBytes info) (sizeInKb info))
        end
    end.

(** [for (let i = 0; i < imageElements.length && i < maxImages; i++)],
    from index [i] on the elements that remain. *)
Fixpoint loop (baseUrl : string) (maxImages : Z) (i : Z) (imageElements : list img)
  (images : list image) : list image :=
  match imageElements with
  | [] => images
  | el :: rest =>
      if i <? maxImages then
        loop baseUrl maxImages (i + 1) rest
             (match image_at baseUrl i el with
              | Some im => images ++ [im]
              | None => images
              end)%list
      else images
  end.

Definition analyzeImagesDetailed (imageElements : list img) (baseUrl : string)
  (includeImages : bool) (maxImagesPerPage : Z) : list image :=
  if negb includeImages then []
  else
    let maxImages :=
      if maxImagesPerPage =? -1 then Z.of_nat (List.length imageElements)
      else maxImagesPerPage in
    loop baseUrl maxImages 0 imageElements [].

End WithCollaborators.

End Images.

(* ================================================================== *)
(** * Properties *)
(* ================================================================== *)

(** ** Facts about the JavaScript fragment *)

Module JSFacts.

(** [Math.round] leaves an integer unchanged. *)
Lemma round_Q_inject_Z (z : Z) : JS.round_Q (inject_Z z) = z.
Proof.
  unfold JS.round_Q, Qfloor, Qplus, inject_Z; simpl.
  symmetry; apply Z.div_unique with (r := 1); lia.
Qed.

(** [Math.round(q)] is the integer nearest to [q], halves going up. *)
Lemma round_Q_nearest (q : Q) :
  (inject_Z (JS.round_Q q) - (1 # 2) <= q)%Q /\
  (q < inject_Z (JS.round_Q q) + (1 # 2))%Q.
Proof.
  unfold JS.round_Q.
  pose proof (Qfloor_le (q + (1 # 2))) as Hle.
  pose proof (Qlt_floor (q + (1 # 2))) as Hlt.
  rewrite inject_Z_plus in Hlt.
  split.
  - apply Qplus_le_l with (z := 1 # 2). ring_simplify.
    ring_simplify in Hle. exact Hle.
  - apply Qplus_lt_l with (z := 1 # 2).
    eapply Qlt_le_trans; [exact Hlt|].
    apply Qle_lteq; right. ring.
Qed.

Lemma or_num_Some_0 (z : Z) : JS.or_num (Some z) 0 = z.
Proof.
  unfold JS.or_num. destruct (Z.eqb_spec z 0); congruence.
Qed.

Lemma truthy_false (s : string) : JS.truthy s = false <-> s = "".
Proof.
  destruct s; simpl; split; congruence.
Qed.

(** *** Text outside ASCII *)

Definition bytes (codes : list nat) : string :=
  fold_right (fun n s => String (ascii_of_nat n) s) EmptyString codes.

(** U+00A0, the no-break space that [&nbsp;] stands for. *)
Definition nbsp : string := bytes [194; 160]%nat.

(** U+2003, the em space. *)
Definition em_space : string := bytes [226; 128; 131]%nat.

(** U+00E9 and U+00C9, e with acute accent in lower and upper case. *)
Definition e_acute : string := bytes [195; 169]%nat.
Definition E_acute : string := bytes [195; 137]%nat.

(** U+1F600, a character outside the basic plane. *)
Definition grinning_face : string := bytes [240; 159; 152; 128]%nat.

(** [trim] removes the white space of more than one byte as well, and
    keeps what is not white space. *)
Example trim_no_break_space :
  JS.trim (nbsp ++ " Go" ++ em_space ++ nbsp) = "Go" /\
  JS.trim (e_acute ++ " ") = e_acute /\
  JS.trim nbsp = "".
Proof. repeat split; reflexivity. Qed.

(** [length] counts UTF-16 code units: one for an accented letter, two
    for a character outside the basic plane. *)
Example length_code_units :
  JS.length "Go" = 2 /\ JS.length e_acute = 1 /\ JS.length nbsp = 1 /\
  JS.length em_space = 1 /\ JS.length grinning_face = 2 /\
  JS.length (nbsp ++ "Go" ++ nbsp) = 4.
Proof. repeat split; reflexivity. Qed.

End JSFacts.

(** ** The scorer *)

Module ScorerProps.

Import SEOScorer.

#[local] Open Scope command_scope.

(** *** Thresholds, as the documentation tables give them *)

Inductive grade_spec : Z -> string -> Prop :=
| grade_A s : 90 <= s -> grade_spec s "A"
| grade_B s : 80 <= s < 90 -> grade_spec s "B"
| grade_C s : 70 <= s < 80 -> grade_spec s "C"
| grade_D s : 60 <= s < 70 -> grade_spec s "D"
| grade_F s : s < 60 -> grade_spec s "F".

Inductive category_spec : Z -> string -> Prop :=
| category_excellent s : 85 <= s -> category_spec s "Excellent"
| category_good s : 70 <= s < 85 -> category_spec s "Good"
| category_needs_improvement s : 50 <= s < 70 -> category_spec s "Needs Improvement"
| category_poor s : s < 50 -> category_spec s "Poor".


Ltac case_geb :=
  repeat match goal with
         | |- context [?a >=? ?b] =>
             rewrite (Z.geb_leb a b); destruct (Z.leb_spec b a)
         end.

Lemma getGrade_spec (s : Z) : grade_spec s (getGrade s).
Proof.
  unfold getGrade; case_geb; constructor; lia.
Qed.

Lemma getCategory_spec (s : Z) : category_spec s (getCategory s).
Proof.
  unfold getCategory; case_geb; constructor; lia.
Qed.

Lemma finalScore_clamp (s : Z) : finalScore s = Z.max 0 (Z.min 100 s).
Proof.
  unfold finalScore. now rewrite JSFacts.round_Q_inject_Z.
Qed.

(** *** The blocks only add to the score and append to the issues *)

(** What a command adds to the score and to the issue list when it is run
    from empty locals. *)
Definition delta (c : command) : Z := score (c (mkLocals 0 [])).
Definition emitted (c : command) : list string := issues (c (mkLocals 0 [])).

(** A command is regular when its effect on any locals is to add [delta]
    to the score and to append [emitted] to the issues. *)
Definition regular (c : command) : Prop :=
  forall l, c l = mkLocals (score l + delta c) (issues l ++ emitted c).

Lemma regular_skip : regular skip.
Proof.
  intros [s i]; unfold skip, delta, emitted; simpl.
  now rewrite Z.add_0_r, app_nil_r.
Qed.

Lemma regular_add_score (n : Z) : regular (add_score n).
Proof.
  intros [s i]; unfold add_score, delta, emitted; simpl.
  now rewrite app_nil_r.
Qed.

Lemma regular_push_issue (label : string) : regular (push_issue label).
Proof.
  intros [s i]; unfold push_issue, delta, emitted; simpl.
  now rewrite Z.add_0_r.
Qed.

Lemma delta_seq (c1 c2 : command) :
  regular c2 -> delta (c1 ;; c2) = delta c1 + delta c2.
Proof.
  intros H2. unfold delta at 1, seq. now rewrite H2.
Qed.

Lemma emitted_seq (c1 c2 : command) :
  regular c2 -> emitted (c1 ;; c2) = (emitted c1 ++ emitted c2)%list.
Proof.
  intros H2. unfold emitted at 1, seq. now rewrite H2.
Qed.

Lemma regular_seq (c1 c2 : command) :
  regular c1 -> regular c2 -> regular (c1 ;; c2).
Proof.
  intros H1 H2 l.
  rewrite (delta_seq c1 c2 H2), (emitted_seq c1 c2 H2).
  unfold seq. rewrite H1, H2; simpl.
  now rewrite Z.add_assoc, app_assoc.
Qed.

Lemma regular_if (b : bool) (c1 c2 : command) :
  regular c1 -> regular c2 -> regular (if b then c1 else c2).
Proof.
  now destruct b.
Qed.

Create HintDb regular.
#[local] Hint Resolve regular_skip regular_add_score regular_push_issue
  regular_seq regular_if : regular.

Lemma regular_title_block seo : regular (title_block seo).
Proof. unfold title_block; auto 10 with regular. Qed.

Lemma regular_description_block seo : regular (description_block seo).
Proof. unfold description_block; auto 10 with regular. Qed.

Lemma regular_heading_block seo : regular (heading_block seo).
Proof.
  unfold heading_block; destruct (headingScore seo); auto 10 with regular.
Qed.

Lemma regular_technical_block seo : regular (technical_block seo).
Proof. unfold technical_block; auto 20 with regular. Qed.

Lemma regular_content_block seo : regular (content_block seo).
Proof. unfold content_block; auto 10 with regular. Qed.

Lemma regular_images_block seo : regular (images_block seo).
Proof. unfold images_block; auto 10 with regular. Qed.

Lemma regular_bonus_block seo : regular (bonus_block seo).
Proof. unfold bonus_block; auto with regular. Qed.

Lemma regular_performance_block seo : regular (performance_block seo).
Proof. unfold performance_block; auto 10 with regular. Qed.

#[local] Hint Resolve regular_title_block regular_description_block
  regular_heading_block regular_technical_block regular_content_block
  regular_images_block regular_bonus_block regular_performance_block : regular.

(** The raw score is 100 plus the contribution of each block. *)
Lemma run_blocks_score seo :
  score (run_blocks seo) =
  100 + delta (title_block seo) + delta (description_block seo)
      + delta (heading_block seo) + delta (technical_block seo)
      + delta (content_block seo) + delta (images_block seo)
      + delta (bonus_block seo) + delta (performance_block seo).
Proof.
  unfold run_blocks.
  match goal with |- score (?c ?l) = _ =>
    assert (R : regular c) by auto 20 with regular; rewrite R
  end.
  cbn [score].
  repeat (rewrite delta_seq by auto 20 with regular).
  lia.
Qed.

(** The issue list is the concatenation of the issues of each block. *)
Lemma run_blocks_issues seo :
  issues (run_blocks seo) =
  (emitted (title_block seo) ++ emitted (description_block seo)
   ++ emitted (heading_block seo) ++ emitted (technical_block seo)
   ++ emitted (content_block seo) ++ emitted (images_block seo)
   ++ emitted (bonus_block seo) ++ emitted (performance_block seo))%list.
Proof.
  unfold run_blocks.
  match goal with |- issues (?c ?l) = _ =>
    assert (R : regular c) by auto 20 with regular; rewrite R
  end.
  cbn [issues app].
  repeat (rewrite emitted_seq by auto 20 with regular).
  reflexivity.
Qed.

(** *** Score range, grades and categories *)

(** C1. For every feature record the final score is the raw score rounded
    and clamped, hence an integer between 0 and 100; the grade and the
    category follow the documented thresholds, in particular at their
    boundaries. *)
Theorem calculateScore_range_grade_category (seo : seoData) :
  let r := calculateScore seo in
  0 <= seo_page_score r <= 100 /\
  seo_page_score r = Z.max 0 (Z.min 100 (score (run_blocks seo))) /\
  grade_spec (seo_page_score r) (seo_grade r) /\
  category_spec (seo_page_score r) (seo_category r) /\
  (getGrade 90 = "A" /\ getGrade 89 = "B" /\ getGrade 80 = "B" /\
   getGrade 79 = "C" /\ getGrade 70 = "C" /\ getGrade 69 = "D" /\
   getGrade 60 = "D" /\ getGrade 59 = "F") /\
  (getCategory 85 = "Excellent" /\ getCategory 84 = "Good" /\
   getCategory 70 = "Good" /\ getCategory 69 = "Needs Improvement" /\
   getCategory 50 = "Needs Improvement" /\ getCategory 49 = "Poor").
Proof.
  cbv zeta. unfold calculateScore; cbn [seo_page_score seo_grade seo_category].
  rewrite finalScore_clamp.
  repeat split; try reflexivity; try lia.
  - apply getGrade_spec.
  - apply getCategory_spec.
Qed.

(** *** Monotonicity *)

(** The orderings F < D < C < B < A and
    Poor < Needs Improvement < Good < Excellent. *)
Definition grade_rank (g : string) : Z :=
  if String.eqb g "A" then 4
  else if String.eqb g "B" then 3
  else if String.eqb g "C" then 2
  else if String.eqb g "D" then 1
  else 0.

Definition category_rank (c : string) : Z :=
  if String.eqb c "Excellent" then 3
  else if String.eqb c "Good" then 2
  else if String.eqb c "Needs Improvement" then 1
  else 0.

(** C10. Grade and category are monotone in the score. *)
Theorem grade_category_monotone (s1 s2 : Z) :
  s1 <= s2 ->
  grade_rank (getGrade s1) <= grade_rank (getGrade s2) /\
  category_rank (getCategory s1) <= category_rank (getCategory s2).
Proof.
  intros Hle. unfold getGrade, getCategory.
  case_geb; cbn; lia.
Qed.

Lemma grade_category_monotone_witness :
  59 <= 60 /\
  grade_rank (getGrade 59) <= grade_rank (getGrade 60) /\
  category_rank (getCategory 59) <= category_rank (getCategory 60).
Proof.
  split; [lia | apply (grade_category_monotone 59 60); lia].
Defined.

(** *** The short-title scenario *)

(** A page with a five-character title, no meta description, one H1, HTTPS,
    no favicon, no OpenGraph, a viewport, 100 content words, no emphasis
    tags and no images. *)
Definition short_title_page : seoData :=
  {| title := "Hello"; titleLength := Some 5;
     description := ""; descriptionLength := Some 0;
     headingScore := None;
     h1Count := Some 1; h1 := Some ["Welcome"]; h2Count := Some 0; h3Count := Some 0;
     hasHttps := true; xRobots := ""; metaRobots := "";
     favicon := false; hasOpenGraph := false; viewport := true;
     wordcountcontentonly := Some 100; words := Some 100;
     totalwordcount := Some 100; wordcount := Some 100;
     strongTags := Some 0; imagesWithoutAlt := Some 0;
     hasSchema := false; hasJsonLd := false; canonicalUrl := "";
     hasHreflang := false; appleTouchIcon := false;
     javascriptFiles := Some 0; cssFiles := Some 0 |}.

(** C3, as stated, fails: the score of the scenario is 58, but its grade
    is not D and its category is not Poor. *)
Lemma short_title_page_not_D_Poor :
  let r := calculateScore short_title_page in
  seo_page_score r = 58 /\ seo_grade r <> "D" /\ seo_category r <> "Poor" /\
  ~ (seo_page_score r = 58 /\ seo_grade r = "D" /\ seo_category r = "Poor").
Proof.
  vm_compute. repeat split; try discriminate.
  intros (_ & H & _); discriminate H.
Qed.

(** C3, amended. Any feature record that fits the description scores 58,
    which is grade F and category Needs Improvement. *)
Theorem short_title_scenario_score (seo : seoData) :
  JS.or_num (titleLength seo) (JS.length (title seo)) = 5 ->
  description seo = "" ->
  headingScore seo = None ->
  h1Count seo = Some 1 ->
  JS.or_num (h2Count seo) 0 = 0 ->
  hasHttps seo = true ->
  xRobots seo = "" -> metaRobots seo = "" ->
  favicon seo = false -> hasOpenGraph seo = false -> viewport seo = true ->
  content_words seo = 100 ->
  JS.or_num (imagesWithoutAlt seo) 0 = 0 ->
  bonusPoints seo = 0 ->
  JS.or_num (javascriptFiles seo) 0 <= 20 ->
  JS.or_num (cssFiles seo) 0 <= 10 ->
  let r := calculateScore seo in
  seo_page_score r = 58 /\ seo_grade r = "F" /\
  seo_category r = "Needs Improvement".
Proof.
  intros Ht Hd Hh Hh1 Hh2 Hs Hx Hm Hf Ho Hv Hw Hi Hb Hj Hc.
  assert (Hraw : score (run_blocks seo) = 58).
  { rewrite run_blocks_score.
    unfold title_block, description_block, heading_block, technical_block,
      content_block, images_block, bonus_block, performance_block.
    rewrite JSFacts.or_num_Some_0, Ht, Hd, Hh, Hh1, Hh2, Hs, Hx, Hm, Hf, Ho, Hv,
      Hw, Hi, Hb.
    destruct (Z.gtb_spec (JS.or_num (javascriptFiles seo) 0) 20); [lia|].
    destruct (Z.gtb_spec (JS.or_num (cssFiles seo) 0) 10); [lia|].
    rewrite orb_true_r. cbn.
    destruct (JS.or_num (strongTags seo) 0 =? 0); reflexivity. }
  cbv zeta. unfold calculateScore; cbn [seo_page_score seo_grade seo_category].
  rewrite finalScore_clamp, Hraw. repeat split.
Qed.

Lemma short_title_scenario_score_witness :
  let r := calculateScore short_title_page in
  seo_page_score r = 58 /\ seo_grade r = "F" /\
  seo_category r = "Needs Improvement".
Proof.
  apply (short_title_scenario_score short_title_page);
    first [reflexivity | vm_compute; discriminate].
Defined.

(** *** The image penalty *)

(** The same record with another [imagesWithoutAlt]. *)
Definition with_imagesWithoutAlt (seo : seoData) (n : option Z) : seoData :=
  {| title := title seo; titleLength := titleLength seo;
     description := description seo; descriptionLength := descriptionLength seo;
     headingScore := headingScore seo;
     h1Count := h1Count seo; h1 := h1 seo;
     h2Count := h2Count seo; h3Count := h3Count seo;
     hasHttps := hasHttps seo; xRobots := xRobots seo; metaRobots := metaRobots seo;
     favicon := favicon seo; hasOpenGraph := hasOpenGraph seo;
     viewport := viewport seo;
     wordcountcontentonly := wordcountcontentonly seo; words := words seo;
     totalwordcount := totalwordcount seo; wordcount := wordcount seo;
     strongTags := strongTags seo; imagesWithoutAlt := n;
     hasSchema := hasSchema seo; hasJsonLd := hasJsonLd seo;
     canonicalUrl := canonicalUrl seo;
     hasHreflang := hasHreflang seo; appleTouchIcon := appleTouchIcon seo;
     javascriptFiles := javascriptFiles seo; cssFiles := cssFiles seo |}.

Lemma images_block_positive seo n :
  imagesWithoutAlt seo = Some n -> 0 < n ->
  delta (images_block seo) = - Z.min n 5 /\
  emitted (images_block seo) =
    [JS.string_of_Z n ++ " images without alt text"].
Proof.
  intros Hn Hpos. unfold images_block, JS.or_num. rewrite Hn.
  destruct (Z.eqb_spec n 0); [lia|].
  destruct (Z.gtb_spec n 0); [|lia].
  rewrite (Z.min_comm 5 n). split; reflexivity.
Qed.

(** C7. With [n > 0] images missing alt text the raw score is lower by
    [min n 5], never by more than 5, than for the same page without such
    images, and the issue list names the full count [n]. *)
Theorem image_penalty_capped (seo : seoData) (n : Z) :
  imagesWithoutAlt seo = Some n ->
  0 < n ->
  let clean := with_imagesWithoutAlt seo (Some 0) in
  score (run_blocks seo) = score (run_blocks clean) - Z.min n 5 /\
  score (run_blocks clean) - score (run_blocks seo) <= 5 /\
  In (JS.string_of_Z n ++ " images without alt text")
     (seo_issues (calculateScore seo)).
Proof.
  intros Hn Hpos clean.
  destruct (images_block_positive seo n Hn Hpos) as [Hd He].
  assert (Hscore : score (run_blocks seo) = score (run_blocks clean) - Z.min n 5).
  { rewrite !run_blocks_score, Hd.
    change (delta (title_block clean)) with (delta (title_block seo)).
    change (delta (description_block clean)) with (delta (description_block seo)).
    change (delta (heading_block clean)) with (delta (heading_block seo)).
    change (delta (technical_block clean)) with (delta (technical_block seo)).
    change (delta (content_block clean)) with (delta (content_block seo)).
    change (delta (bonus_block clean)) with (delta (bonus_block seo)).
    change (delta (performance_block clean)) with (delta (performance_block seo)).
    change (delta (images_block clean)) with 0.
    lia. }
  split; [exact Hscore|]. split; [lia|].
  unfold calculateScore; cbn [seo_issues].
  rewrite run_blocks_issues, He, !in_app_iff.
  do 5 right. left. now left.
Qed.

Lemma image_penalty_capped_witness :
  let seo := with_imagesWithoutAlt short_title_page (Some 10) in
  let clean := with_imagesWithoutAlt seo (Some 0) in
  score (run_blocks seo) = score (run_blocks clean) - 5 /\
  score (run_blocks clean) - score (run_blocks seo) <= 5 /\
  In "10 images without alt text" (seo_issues (calculateScore seo)).
Proof.
  apply (image_penalty_capped
           (with_imagesWithoutAlt short_title_page (Some 10)) 10);
    [reflexivity | lia].
Defined.

End ScorerProps.

(** ** The URL normalizer *)

Module NormalizerProps.

Import WebURL URLNormalizer.

(** *** Strings *)

Lemma lower_ascii_idem (c : ascii) :
  JS.lower_ascii (JS.lower_ascii c) = JS.lower_ascii c.
Proof.
  destruct c as [[] [] [] [] [] [] [] []]; reflexivity.
Qed.

Lemma toLowerCase_idem (s : string) :
  JS.toLowerCase (JS.toLowerCase s) = JS.toLowerCase s.
Proof.
  induction s as [|c r IH]; simpl; [reflexivity|].
  now rewrite lower_ascii_idem, IH.
Qed.

Lemma is_prefix_double_slash (s : string) :
  JS.is_prefix "//" s = starts_with_slash s && starts_with_slash (tail s).
Proof.
  destruct s as [|c r]; [reflexivity|].
  destruct r as [|c' r']; cbn [JS.is_prefix starts_with_slash tail].
  - rewrite Ascii.eqb_sym. now destruct (Ascii.eqb c "/").
  - rewrite (Ascii.eqb_sym "/" c), (Ascii.eqb_sym "/" c').
    now rewrite andb_true_r.
Qed.

Lemma collapse_slashes_head (s : string) :
  starts_with_slash (collapse_slashes s) = starts_with_slash s.
Proof.
  induction s as [|c r IH]; [reflexivity|].
  cbn [collapse_slashes starts_with_slash].
  destruct (Ascii.eqb_spec c "/") as [->|Hne].
  - destruct (starts_with_slash r) eqn:E; [now rewrite IH|reflexivity].
  - cbn. now apply Ascii.eqb_neq.
Qed.

(** After [replace(/\/+/g, '/')] no two separators are adjacent. *)
Lemma collapse_slashes_no_double (s : string) :
  JS.includes (collapse_slashes s) "//" = false.
Proof.
  induction s as [|c r IH]; [reflexivity|].
  cbn [collapse_slashes].
  destruct (Ascii.eqb_spec c "/") as [->|Hne].
  - destruct (starts_with_slash r) eqn:E; [exact IH|].
    cbn [JS.includes]. rewrite IH, is_prefix_double_slash.
    cbn [tail]. rewrite collapse_slashes_head, E. reflexivity.
  - cbn [JS.includes]. rewrite IH, is_prefix_double_slash.
    cbn [starts_with_slash]. apply Ascii.eqb_neq in Hne. now rewrite Hne.
Qed.

(** A path without adjacent separators is left alone. *)
Lemma collapse_slashes_fixed (s : string) :
  JS.includes s "//" = false -> collapse_slashes s = s.
Proof.
  induction s as [|c r IH]; [reflexivity|].
  cbn [JS.includes collapse_slashes]. intros H.
  apply orb_false_iff in H as [Hp Hr].
  rewrite (IH Hr).
  rewrite is_prefix_double_slash in Hp. cbn [starts_with_slash tail] in Hp.
  destruct (Ascii.eqb_spec c "/") as [->|Hne]; [|reflexivity].
  cbn in Hp. now rewrite Hp.
Qed.

Lemma is_prefix_app (n q x : string) :
  JS.is_prefix n q = true -> JS.is_prefix n (q ++ x) = true.
Proof.
  revert q; induction n as [|a n IH]; intros q H; [reflexivity|].
  destruct q as [|b q]; [discriminate|].
  cbn [JS.is_prefix append] in *.
  apply andb_true_iff in H as [Hab Hn]. now rewrite Hab, IH.
Qed.

Lemma includes_app (q x n : string) :
  JS.includes q n = true -> JS.includes (q ++ x) n = true.
Proof.
  induction q as [|c q IH]; cbn [JS.includes append]; intros H.
  - rewrite orb_false_r in H. destruct n; [|discriminate].
    destruct x; reflexivity.
  - apply orb_true_iff in H as [H|H].
    + pose proof (is_prefix_app n (String c q) x H) as P.
      cbn [append] in P. now rewrite P.
    + rewrite (IH H). apply orb_true_r.
Qed.

Lemma endsWith_slash_cons (c : ascii) (r : string) :
  JS.endsWith (String c r) "/" =
  match r with
  | EmptyString => Ascii.eqb c "/"
  | _ => JS.endsWith r "/"
  end.
Proof.
  cbn [JS.endsWith]. destruct r as [|c' r'].
  - cbn. now destruct (Ascii.eqb c "/").
  - cbn [String.eqb]. destruct (Ascii.eqb c "/"); reflexivity.
Qed.

(** A string that ends with a separator is its [slice(0, -1)] followed by
    that separator. *)
Lemma endsWith_slash_drop_last (s : string) :
  JS.endsWith s "/" = true -> s = drop_last s ++ "/".
Proof.
  induction s as [|c r IH]; [discriminate|].
  rewrite endsWith_slash_cons. destruct r as [|c' r'].
  - intros H. apply Ascii.eqb_eq in H. now subst.
  - intros H. cbn [drop_last append]. f_equal. exact (IH H).
Qed.

Lemma includes_cons (c : ascii) (r n : string) :
  JS.includes (String c r) n = JS.is_prefix n (String c r) || JS.includes r n.
Proof. reflexivity. Qed.

Lemma endsWith_slash_app_double (q : string) :
  JS.endsWith q "/" = true -> JS.includes (q ++ "/") "//" = true.
Proof.
  induction q as [|c r IH]; [discriminate|].
  rewrite endsWith_slash_cons. destruct r as [|c' r'].
  - intros H. apply Ascii.eqb_eq in H. now subst.
  - intros H.
    change (String c (String c' r') ++ "/") with (String c (String c' r' ++ "/")).
    rewrite includes_cons, (IH H). apply orb_true_r.
Qed.

(** *** The path of the normalised URL *)

(** The two path statements of [normalize], on the path alone. *)
Definition normalize_path (p : string) : string :=
  let p1 := collapse_slashes p in
  if negb (String.eqb p1 "/") && JS.endsWith p1 "/" then drop_last p1 else p1.

Lemma normalize_path_no_double (p : string) :
  JS.includes (normalize_path p) "//" = false.
Proof.
  unfold normalize_path.
  pose proof (collapse_slashes_no_double p) as Hc.
  destruct (negb (String.eqb (collapse_slashes p) "/")
            && JS.endsWith (collapse_slashes p) "/") eqn:E; [|exact Hc].
  apply andb_true_iff in E as [_ He].
  destruct (JS.includes (drop_last (collapse_slashes p)) "//") eqn:Hi; [|reflexivity].
  apply includes_app with (x := "/") in Hi.
  rewrite <- (endsWith_slash_drop_last _ He) in Hi. congruence.
Qed.

Lemma normalize_path_no_trailing (p : string) :
  JS.endsWith (normalize_path p) "/" = true -> normalize_path p = "/".
Proof.
  unfold normalize_path.
  pose proof (collapse_slashes_no_double p) as Hc.
  destruct (String.eqb (collapse_slashes p) "/") eqn:E; cbn [negb andb].
  - intros _. now apply String.eqb_eq.
  - destruct (JS.endsWith (collapse_slashes p) "/") eqn:He; cbv iota;
      [|intros H; congruence].
    intros H. apply endsWith_slash_app_double in H.
    rewrite <- (endsWith_slash_drop_last _ He) in H. congruence.
Qed.

Lemma normalize_path_idem (p : string) :
  normalize_path (normalize_path p) = normalize_path p.
Proof.
  unfold normalize_path at 1.
  rewrite (collapse_slashes_fixed _ (normalize_path_no_double p)).
  destruct (String.eqb (normalize_path p) "/") eqn:E; [reflexivity|].
  destruct (JS.endsWith (normalize_path p) "/") eqn:He; [|reflexivity].
  apply normalize_path_no_trailing in He. apply String.eqb_neq in E. contradiction.
Qed.

(** *** The path, segment by segment *)

(** The non-empty pieces of a path between its separators. *)
Definition path_segments (p : string) : list string :=
  filter JS.truthy (split_on "/" p).

Lemma split_on_cons (sep c : ascii) (r : string) :
  exists x xs,
    split_on sep r = x :: xs /\
    split_on sep (String c r)
    = if Ascii.eqb c sep then EmptyString :: x :: xs else String c x :: xs.
Proof.
  revert c. induction r as [|d r IH]; intros c.
  - exists "", []. split; [reflexivity|]. cbn [split_on]. reflexivity.
  - destruct (IH d) as (x & xs & Hr & Hd).
    destruct (Ascii.eqb d sep) eqn:E.
    + exists "", (x :: xs). split; [exact Hd|].
      cbn [split_on]. rewrite E, Hr. reflexivity.
    + exists (String d x), xs. split; [exact Hd|].
      cbn [split_on]. rewrite E, Hr. reflexivity.
Qed.

Lemma join_cons_char (c : ascii) (x : string) (ys : list string) :
  JS.join "/" (String c x :: ys) = String c (JS.join "/" (x :: ys)).
Proof. unfold JS.join. destruct ys; reflexivity. Qed.

Lemma join_truthy (x : string) (ys : list string) :
  JS.truthy x = true -> JS.truthy (JS.join "/" (x :: ys)) = true.
Proof.
  unfold JS.join. destruct x as [|c x]; [discriminate|]. now destruct ys.
Qed.

(** A path without segments is made of separators only. *)
Lemma path_segments_nil (s : string) :
  path_segments s = [] -> s = "" \/ JS.endsWith s "/" = true.
Proof.
  unfold path_segments. induction s as [|c r IH]; [now left|]. intros H. right.
  destruct (split_on_cons "/" c r) as (x & xs & Hr & Hs).
  rewrite Hs in H. rewrite Hr in IH.
  destruct (Ascii.eqb c "/") eqn:E; [|discriminate H].
  cbn [filter JS.truthy] in H.
  rewrite endsWith_slash_cons. destruct r as [|d r']; [exact E|].
  destruct (IH H) as [?|?]; [discriminate|assumption].
Qed.

Lemma segments_empty_cons (l : list string) :
  filter JS.truthy ("" :: l) = filter JS.truthy l.
Proof. reflexivity. Qed.

Lemma segments_char_cons (c : ascii) (x : string) (l : list string) :
  filter JS.truthy (String c x :: l) = String c x :: filter JS.truthy l.
Proof. reflexivity. Qed.

(** [replace(/\/+/g, '/')] keeps the segments, one separator between
    them, and a separator at either end where there was at least one. *)
Lemma collapse_slashes_segments (s : string) :
  collapse_slashes s
  = (if starts_with_slash s then "/" else "")
    ++ JS.join "/" (path_segments s)
    ++ (if JS.endsWith s "/" && JS.truthy (JS.join "/" (path_segments s))
        then "/" else "").
Proof.
  induction s as [|c r IH]; [reflexivity|].
  destruct (split_on_cons "/" c r) as (x & xs & Hr & Hs).
  unfold path_segments in *. rewrite Hs. rewrite Hr in IH.
  cbn [collapse_slashes starts_with_slash]. rewrite endsWith_slash_cons.
  destruct (Ascii.eqb c "/") eqn:E.
  - apply Ascii.eqb_eq in E. subst c.
    rewrite segments_empty_cons.
    destruct (starts_with_slash r) eqn:Hlead.
    + rewrite IH. destruct r; [discriminate|reflexivity].
    + rewrite IH. cbn [append]. destruct r as [|d r'].
      * cbn in Hr. injection Hr as <- <-. reflexivity.
      * reflexivity.
  - rewrite segments_char_cons, join_cons_char. cbn [append JS.truthy].
    rewrite andb_true_r. f_equal.
    destruct r as [|d r'].
    { cbn in Hr. injection Hr as <- <-. reflexivity. }
    destruct (split_on_cons "/" d r') as (x' & xs' & Hr' & Hs').
    rewrite Hs' in Hr. cbn [starts_with_slash] in IH. rewrite IH.
    destruct (Ascii.eqb d "/") eqn:Ed.
    + injection Hr as <- <-. rewrite segments_empty_cons.
      destruct (filter JS.truthy (x' :: xs')) as [|y ys] eqn:Hys.
      * assert (Hnil : path_segments (String d r') = []).
        { unfold path_segments. now rewrite Hs', segments_empty_cons. }
        destruct (path_segments_nil _ Hnil) as [?|He]; [discriminate|].
        rewrite He. reflexivity.
      * assert (Hy : JS.truthy y = true).
        { assert (Hin : In y (filter JS.truthy (x' :: xs')))
            by (rewrite Hys; now left).
          apply filter_In in Hin. tauto. }
        rewrite (join_truthy y ys Hy), andb_true_r.
        unfold JS.join. cbn [String.concat append]. reflexivity.
    + injection Hr as <- <-. rewrite segments_char_cons.
      rewrite (join_truthy (String d x') _ eq_refl), andb_true_r.
      reflexivity.
Qed.

Lemma collapse_slashes_empty (s : string) :
  collapse_slashes s = "" -> s = "".
Proof.
  destruct s as [|c r]; [reflexivity|]. intros H.
  pose proof (collapse_slashes_head (String c r)) as Hh. rewrite H in Hh.
  cbn [starts_with_slash] in Hh.
  cbn [collapse_slashes] in H. rewrite <- Hh in H. discriminate H.
Qed.

Lemma collapse_slashes_last (s : string) :
  JS.endsWith (collapse_slashes s) "/" = JS.endsWith s "/".
Proof.
  induction s as [|c r IH]; [reflexivity|].
  cbn [collapse_slashes]. rewrite (endsWith_slash_cons c r).
  destruct (Ascii.eqb c "/") eqn:E.
  - destruct (starts_with_slash r) eqn:Hlead.
    + rewrite IH. destruct r; [discriminate|reflexivity].
    + rewrite endsWith_slash_cons. destruct r as [|d r']; [reflexivity|].
      destruct (collapse_slashes (String d r')) eqn:Hc; [|exact IH].
      apply collapse_slashes_empty in Hc. discriminate Hc.
  - rewrite endsWith_slash_cons. destruct r as [|d r']; [exact E|].
    destruct (collapse_slashes (String d r')) eqn:Hc; [|exact IH].
    apply collapse_slashes_empty in Hc. discriminate Hc.
Qed.

Lemma endsWith_app_slash (q : string) : JS.endsWith (q ++ "/") "/" = true.
Proof.
  induction q as [|c q IH]; [reflexivity|].
  cbn [append]. rewrite endsWith_slash_cons.
  destruct (q ++ "/") eqn:E; [destruct q; discriminate|exact IH].
Qed.

Lemma drop_last_app_slash (q : string) : drop_last (q ++ "/") = q.
Proof.
  induction q as [|c q IH]; [reflexivity|].
  cbn [append drop_last].
  destruct (q ++ "/") eqn:E; [destruct q; discriminate|].
  now rewrite IH.
Qed.

Lemma append_nothing (s : string) : s ++ "" = s.
Proof. induction s as [|c s IH]; cbn [append]; congruence. Qed.

(** The two path statements together, on a path that starts with a
    separator: the segments joined by one separator each, after one
    leading separator. *)
Lemma normalize_path_segments (p : string) :
  starts_with_slash p = true ->
  normalize_path p = "/" ++ JS.join "/" (path_segments p).
Proof.
  intros Hlead. unfold normalize_path.
  pose proof (collapse_slashes_last p) as Hlast.
  rewrite (collapse_slashes_segments p), Hlead in *.
  destruct (JS.join "/" (path_segments p)) as [|c j] eqn:Hj.
  - rewrite andb_false_r. reflexivity.
  - cbn [JS.truthy] in *. rewrite andb_true_r in *.
    destruct (JS.endsWith p "/").
    + change ("/" ++ String c j ++ "/") with (String "/" (String c j) ++ "/").
      rewrite endsWith_app_slash, drop_last_app_slash.
      destruct j; reflexivity.
    + rewrite append_nothing in *. rewrite Hlast.
      now rewrite andb_false_r.
Qed.

(** *** The components of the normalised URL *)

Section WithPlatform.

Context {platform : Platform}.

(** The value assigned to [url.search], and the query it leaves. *)
Definition search_value (params : list (string * string)) : string :=
  match params with [] => "" | _ => URLSearchParams_toString params end.

Definition query_of_value (value : string) : option string :=
  match value with EmptyString => None | _ => Some (drop_leading "?" value) end.

Ltac normalize_url_cases :=
  unfold normalize_url, set_pathname, set_hostname, set_search, set_hash;
  cbv zeta;
  cbn [scheme username password hostname port pathname query fragment opaque_path];
  repeat match goal with
         | |- context [if ?b then _ else _] =>
             destruct b;
             cbn [scheme username password hostname port pathname query fragment
                  opaque_path]
         end.

Lemma scheme_normalize_url url : scheme (normalize_url url) = scheme url.
Proof. normalize_url_cases; reflexivity. Qed.

Lemma username_normalize_url url : username (normalize_url url) = username url.
Proof. normalize_url_cases; reflexivity. Qed.

Lemma password_normalize_url url : password (normalize_url url) = password url.
Proof. normalize_url_cases; reflexivity. Qed.

Lemma port_normalize_url url : port (normalize_url url) = port url.
Proof. normalize_url_cases; reflexivity. Qed.

Lemma opaque_path_normalize_url url :
  opaque_path (normalize_url url) = opaque_path url.
Proof.
  unfold normalize_url, set_pathname, set_hostname, set_search, set_hash;
    cbv zeta; cbn [opaque_path].
  destruct (opaque_path url) eqn:E; cbn [opaque_path pathname]; rewrite ?E;
    cbn [opaque_path pathname]; rewrite ?E;
    destruct (_ && _); cbn [opaque_path]; rewrite ?E; reflexivity.
Qed.

Lemma hostname_normalize_url url :
  hostname (normalize_url url)
  = if opaque_path url then hostname url else JS.toLowerCase (hostname url).
Proof.
  unfold normalize_url, set_pathname, set_hostname, set_search, set_hash;
    cbv zeta; cbn [opaque_path].
  destruct (opaque_path url) eqn:E; cbn [opaque_path pathname hostname]; rewrite ?E;
    cbn [opaque_path pathname hostname]; rewrite ?E;
    destruct (_ && _); cbn [hostname]; reflexivity.
Qed.

Lemma fragment_normalize_url url : fragment (normalize_url url) = None.
Proof.
  unfold normalize_url, set_pathname, set_hostname, set_search, set_hash;
    cbv zeta; cbn [opaque_path].
  destruct (opaque_path url) eqn:E; cbn [opaque_path pathname fragment]; rewrite ?E;
    cbn [opaque_path pathname fragment]; rewrite ?E;
    destruct (_ && _); cbn [fragment]; reflexivity.
Qed.

Lemma query_normalize_url url :
  query (normalize_url url) = query_of_value (search_value (kept_params url)).
Proof.
  unfold normalize_url, set_pathname, set_hostname, set_search, set_hash;
    cbv zeta; cbn [opaque_path].
  destruct (opaque_path url) eqn:E; cbn [opaque_path pathname query]; rewrite ?E;
    cbn [opaque_path pathname query]; rewrite ?E;
    destruct (_ && _); cbn [query]; reflexivity.
Qed.

Lemma pathname_normalize_url url :
  pathname (normalize_url url)
  = if opaque_path url then pathname url else normalize_path (pathname url).
Proof.
  unfold normalize_url, normalize_path, set_pathname, set_hostname, set_search,
    set_hash; cbv zeta; cbn [opaque_path].
  destruct (opaque_path url) eqn:E; cbn [opaque_path pathname]; rewrite ?E;
    cbn [opaque_path pathname]; rewrite ?E;
    destruct (_ && _); cbn [pathname]; reflexivity.
Qed.

Lemma URL_ext (u v : URL) :
  scheme u = scheme v -> username u = username v -> password u = password v ->
  hostname u = hostname v -> port u = port v -> pathname u = pathname v ->
  query u = query v -> fragment u = fragment v ->
  opaque_path u = opaque_path v -> u = v.
Proof.
  destruct u, v; cbn; intros; subst; reflexivity.
Qed.

Lemma filter_idem {A} (f : A -> bool) (l : list A) :
  filter f (filter f l) = filter f l.
Proof.
  induction l as [|a l IH]; [reflexivity|].
  cbn [filter]. destruct (f a) eqn:E; [|exact IH].
  cbn [filter]. now rewrite E, IH.
Qed.

(** Normalising the components twice changes nothing more, provided the
    platform reads the query it wrote back as the parameters it was given. *)
Lemma normalize_url_idem url :
  entries (normalize_url url) = kept_params url ->
  normalize_url (normalize_url url) = normalize_url url.
Proof.
  intros Hq.
  assert (Hk : kept_params (normalize_url url) = kept_params url).
  { unfold kept_params at 1. rewrite Hq. unfold kept_params. apply filter_idem. }
  apply URL_ext.
  - now rewrite !scheme_normalize_url.
  - now rewrite !username_normalize_url.
  - now rewrite !password_normalize_url.
  - rewrite !hostname_normalize_url, opaque_path_normalize_url.
    destruct (opaque_path url); [reflexivity|apply toLowerCase_idem].
  - now rewrite !port_normalize_url.
  - rewrite !pathname_normalize_url, opaque_path_normalize_url.
    destruct (opaque_path url); [reflexivity|apply normalize_path_idem].
  - rewrite (query_normalize_url (normalize_url url)), Hk.
    symmetry. apply query_normalize_url.
  - now rewrite !fragment_normalize_url.
  - now rewrite !opaque_path_normalize_url.
Qed.

Lemma is_prefix_spec (p s : string) :
  JS.is_prefix p s = true <-> exists rest, s = p ++ rest.
Proof.
  revert s; induction p as [|a p IH]; intros s; cbn [JS.is_prefix append].
  - split; [now exists s|reflexivity].
  - destruct s as [|b s]; [split; [discriminate|intros [? ?]; discriminate]|].
    rewrite andb_true_iff, Ascii.eqb_eq, IH. split.
    + intros [-> [rest ->]]. now exists rest.
    + intros [rest E]. injection E as -> ->. split; [reflexivity|now exists rest].
Qed.

(** *** What [normalize] does to a URL *)


(** A URL with an opaque path keeps its host and its path: the two
    assignments are without effect. *)
Lemma normalize_url_opaque url :
  opaque_path url = true ->
  hostname (normalize_url url) = hostname url /\
  pathname (normalize_url url) = pathname url.
Proof.
  intros Ho. now rewrite hostname_normalize_url, pathname_normalize_url, Ho.
Qed.

End WithPlatform.



(** *** Idempotence *)

(** C9. [normalize] is idempotent on every input that parses, given that
    the platform parses the serialisation of the normalised URL back to
    the same components and reads the query it wrote back as the same
    parameters. *)
Theorem normalize_idempotent
    (platform : Platform) (rawUrl : string) (url : URL) :
  URL_parse (JS.trim rawUrl) None = Some url ->
  URL_parse (JS.trim (href (normalize_url url))) None = Some (normalize_url url) ->
  entries (normalize_url url) = kept_params url ->
  normalize (normalize rawUrl) = normalize rawUrl.
Proof.
  intros Hp Hround Hquery.
  destruct (JS.truthy rawUrl) eqn:Ht.
  - assert (E : normalize rawUrl = href (normalize_url url)).
    { unfold normalize. now rewrite Ht, Hp. }
    rewrite E. unfold normalize.
    destruct (JS.truthy (href (normalize_url url))) eqn:Hh; cbn [negb].
    + now rewrite Hround, (normalize_url_idem url Hquery).
    + symmetry. now apply JSFacts.truthy_false.
  - apply JSFacts.truthy_false in Ht. subst rawUrl. reflexivity.
Qed.

Lemma normalize_idempotent_witness :
  let x := "https://A.com//x//y/?UTM_a=x&keep=1#frag" in
  @normalize simple x = "https://a.com/x/y?keep=1" /\
  @normalize simple (@normalize simple x) = @normalize simple x.
Proof.
  split; [reflexivity|].
  apply (normalize_idempotent simple "https://A.com//x//y/?UTM_a=x&keep=1#frag"
           (mkURL "https" "" "" "a.com" None "//x//y/" (Some "UTM_a=x&keep=1")
                  (Some "frag") false));
    reflexivity.
Defined.

End NormalizerProps.

(** ** The sitemap walk *)

Module SitemapProps.

Import SitemapAnalyzer.

(** *** The code's recursion equation *)

Section WithHttp.

Context {http : HttpClient}.

(** The model satisfies the equation the source is written as: the guard
    [maxDepth <= 0 || visitedUrls.has(sitemapUrl)], then the body with
    nested calls at [maxDepth - 1]. *)
Lemma countTotalUrlsInSitemaps_eq (sitemapUrl : string) (maxDepth : Z) (w : walk) :
  countTotalUrlsInSitemaps sitemapUrl maxDepth w =
  if (maxDepth <=? 0) || has (visitedUrls w) sitemapUrl then (0, w)
  else fetch_and_count
         (fun nested => countTotalUrlsInSitemaps nested (maxDepth - 1))
         sitemapUrl w.
Proof.
  unfold countTotalUrlsInSitemaps.
  destruct (Z.leb_spec maxDepth 0) as [Hle|Hgt]; cbn [orb].
  - replace (Z.to_nat maxDepth) with O by lia. reflexivity.
  - replace (Z.to_nat maxDepth) with (S (Z.to_nat (maxDepth - 1))) by lia.
    reflexivity.
Qed.

Lemma has_In (visited : list string) (url : string) :
  has visited url = true <-> In url visited.
Proof.
  unfold has. rewrite existsb_exists. split.
  - intros (x & Hx & E). apply String.eqb_eq in E. now subst.
  - intros H. exists url. split; [exact H|apply String.eqb_refl].
Qed.

(** *** What a walk does to the shared state *)

(** [w'] is [w] after some URLs, all new and pairwise distinct, have been
    added to the visited set and requested, in this order. *)
Definition extends (w w' : walk) : Prop :=
  exists added,
    visitedUrls w' = (visitedUrls w ++ added)%list /\
    requests w' = (requests w ++ added)%list /\
    NoDup added /\
    forall u, In u added -> ~ In u (visitedUrls w).

Lemma extends_refl (w : walk) : extends w w.
Proof.
  exists []. rewrite !app_nil_r. repeat split; [constructor|contradiction].
Qed.

Lemma extends_trans (w1 w2 w3 : walk) :
  extends w1 w2 -> extends w2 w3 -> extends w1 w3.
Proof.
  intros (a & Hv & Hr & Hn & Hf) (b & Hv' & Hr' & Hn' & Hf').
  exists (a ++ b)%list. rewrite Hv', Hr', Hv, Hr, !app_assoc.
  repeat split.
  - apply NoDup_app; [exact Hn|exact Hn'|].
    intros u Ha Hb. apply (Hf' u Hb). rewrite Hv. apply in_or_app. now right.
  - intros u Hu Hin. apply in_app_or in Hu as [Hu|Hu].
    + exact (Hf u Hu Hin).
    + apply (Hf' u Hu). rewrite Hv. apply in_or_app. now left.
Qed.

Lemma extends_visit (url : string) (w : walk) :
  has (visitedUrls w) url = false -> extends w (visit url w).
Proof.
  intros H. exists [url]. cbn. repeat split.
  - constructor; [intros []|constructor].
  - intros u [<-|[]] Hin. apply has_In in Hin. congruence.
Qed.

Lemma fold_extends (recurse : string -> walk -> Z * walk) :
  (forall url w, extends w (snd (recurse url w))) ->
  forall urls total w,
    extends w
      (snd (fold_left
              (fun (acc : Z * walk) nestedSitemapUrl =>
                 let '(totalUrls, w) := acc in
                 let '(nestedUrlCount, w) := recurse nestedSitemapUrl w in
                 (totalUrls + nestedUrlCount, w))
              urls (total, w))).
Proof.
  intros Hrec urls. induction urls as [|u urls IH]; intros total w; cbn [fold_left].
  - apply extends_refl.
  - specialize (Hrec u w). destruct (recurse u w) as [n w1]. cbn [snd] in Hrec.
    eapply extends_trans; [exact Hrec|apply IH].
Qed.

Lemma fetch_and_count_extends (recurse : string -> walk -> Z * walk) :
  (forall url w, extends w (snd (recurse url w))) ->
  forall url w,
    has (visitedUrls w) url = false ->
    extends w (snd (fetch_and_count recurse url w)).
Proof.
  intros Hrec url w Hnew. unfold fetch_and_count.
  pose proof (extends_visit url w Hnew) as Hv.
  destruct (http_get url) as [response|]; [|exact Hv].
  destruct (status response =? 200); [|exact Hv].
  destruct (_ || _); [|exact Hv].
  destruct (is_sitemap_index _).
  - eapply extends_trans; [exact Hv|apply fold_extends, Hrec].
  - destruct (is_urlset _); exact Hv.
Qed.

(** Every call returns, and returns a state that extends the one it was
    given: no URL of the visited set is requested, and no URL is requested
    twice. *)
Lemma count_from_extends (depth : nat) :
  forall url w, extends w (snd (count_from depth url w)).
Proof.
  induction depth as [|depth IH]; intros url w; cbn [count_from].
  - apply extends_refl.
  - destruct (has (visitedUrls w) url) eqn:Hh.
    + apply extends_refl.
    + apply fetch_and_count_extends; [exact IH|exact Hh].
Qed.

Lemma count_from_visited (depth : nat) (url : string) (w : walk) :
  has (visitedUrls w) url = true -> count_from depth url w = (0, w).
Proof.
  intros H. destruct depth; cbn [count_from]; [reflexivity|now rewrite H].
Qed.

(** *** Sitemap indexes *)

Fixpoint list_eqb (xs ys : list string) : bool :=
  match xs, ys with
  | [], [] => true
  | x :: xs', y :: ys' => String.eqb x y && list_eqb xs' ys'
  | _, _ => false
  end.

Lemma list_eqb_eq (xs ys : list string) : list_eqb xs ys = true -> xs = ys.
Proof.
  revert ys; induction xs as [|x xs IH]; intros [|y ys]; cbn; try discriminate.
  - reflexivity.
  - intros H. apply andb_true_iff in H as [Hx Hxs].
    apply String.eqb_eq in Hx. now rewrite Hx, (IH ys Hxs).
Qed.

(** The document served at [url] is a sitemap index that lists exactly
    [children]: status 200, an XML or text content type, an index marker
    in the body, and these [<loc>] entries. *)
Definition serves_index (url : string) (children : list string) : bool :=
  match http_get url with
  | Some response =>
      (status response =? 200) &&
      (let contentType :=
         match content_type response with Some t => t | None => "" end in
       JS.includes contentType "xml" || JS.includes contentType "text") &&
      is_sitemap_index (data response) &&
      list_eqb (extractSitemapUrlsFromIndex (data response)) children
  | None => false
  end.

Lemma fetch_and_count_index recurse url children w :
  serves_index url children = true ->
  fetch_and_count recurse url w =
  fold_left
    (fun (acc : Z * walk) nestedSitemapUrl =>
       let '(totalUrls, w) := acc in
       let '(nestedUrlCount, w) := recurse nestedSitemapUrl w in
       (totalUrls + nestedUrlCount, w))
    children (0, visit url w).
Proof.
  unfold serves_index, fetch_and_count.
  destruct (http_get url) as [response|]; [|discriminate].
  intros H. cbv zeta in H.
  apply andb_true_iff in H as [H Hl]. apply andb_true_iff in H as [H Hi].
  apply andb_true_iff in H as [Hs Hc].
  rewrite Hs, Hc, Hi, (list_eqb_eq _ _ Hl). reflexivity.
Qed.

Lemma has_visit_self (url : string) (w : walk) :
  has (visitedUrls (visit url w)) url = true.
Proof.
  apply has_In. cbn. apply in_or_app. right. now left.
Qed.

(** A sitemap index whose only child is itself is fetched once and counts
    for 0, at any positive depth. *)
Lemma count_from_self_reference (depth : nat) (url : string) (w : walk) :
  serves_index url [url] = true ->
  has (visitedUrls w) url = false ->
  count_from (S depth) url w = (0, visit url w).
Proof.
  intros Hidx Hnew. cbn [count_from]. rewrite Hnew.
  rewrite (fetch_and_count_index _ url [url] w Hidx). cbn [fold_left].
  now rewrite (count_from_visited depth url (visit url w) (has_visit_self url w)).
Qed.

(** *** A chain of nested indexes *)

Fixpoint nodupb (xs : list string) : bool :=
  match xs with
  | [] => true
  | x :: xs' => negb (existsb (String.eqb x) xs') && nodupb xs'
  end.

Lemma nodupb_NoDup (xs : list string) : nodupb xs = true -> NoDup xs.
Proof.
  induction xs as [|x xs IH]; cbn [nodupb]; intros H; constructor.
  - apply andb_true_iff in H as [H _]. apply negb_true_iff in H.
    intros Hin. apply (has_In xs x) in Hin. unfold has in Hin. congruence.
  - apply andb_true_iff in H as [_ H]. exact (IH H).
Qed.

Section Chain.

(** [chain 0] is the root; for [i < n] the document at [chain i] is an
    index whose only child is [chain (S i)]; the [n + 1] URLs differ. *)
Variable chain : nat -> string.
Variable n : nat.

Definition nested_indexes : bool :=
  forallb (fun i => serves_index (chain i) [chain (S i)]) (seq 0 n).

Definition distinct_urls : bool := nodupb (map chain (seq 0 (S n))).

Hypothesis Hindexes : nested_indexes = true.
Hypothesis Hdistinct : distinct_urls = true.

(** The state after the first [i] levels have been requested. *)
Definition after_levels (i : nat) : walk :=
  mkWalk (map chain (seq 0 i)) (map chain (seq 0 i)).

Lemma chain_not_before (i j : nat) :
  (i <= j <= n)%nat -> ~ In (chain j) (map chain (seq 0 i)).
Proof.
  intros Hij Hin.
  pose proof (nodupb_NoDup _ Hdistinct) as Hnd.
  replace (S n) with (j + S (n - j))%nat in Hnd by lia.
  rewrite seq_app, map_app in Hnd. cbn [seq map Nat.add] in Hnd.
  apply NoDup_remove_2 in Hnd. apply Hnd, in_or_app. left.
  apply in_map_iff in Hin as (k & Hk & Hin). apply in_seq in Hin.
  rewrite <- Hk. apply in_map, in_seq. lia.
Qed.

Lemma visit_after_levels (i : nat) :
  visit (chain i) (after_levels i) = after_levels (S i).
Proof.
  unfold visit, after_levels; cbn [visitedUrls requests].
  now rewrite seq_S, map_app.
Qed.

(** Walking [depth] levels down the chain requests exactly these levels,
    one after the other, and counts nothing. *)
Lemma count_from_chain (depth : nat) :
  forall i, (i + depth <= n)%nat ->
    count_from depth (chain i) (after_levels i) = (0, after_levels (i + depth)).
Proof.
  induction depth as [|depth IH]; intros i Hle; cbn [count_from].
  - now rewrite Nat.add_0_r.
  - assert (Hnew : has (visitedUrls (after_levels i)) (chain i) = false).
    { destruct (has _ _) eqn:E; [|reflexivity].
      apply has_In in E. now apply chain_not_before in E; [|lia]. }
    rewrite Hnew.
    assert (Hidx : serves_index (chain i) [chain (S i)] = true).
    { unfold nested_indexes in Hindexes. rewrite forallb_forall in Hindexes.
      apply Hindexes, in_seq. lia. }
    rewrite (fetch_and_count_index _ _ _ _ Hidx). cbn [fold_left].
    rewrite visit_after_levels, (IH (S i)) by lia.
    now rewrite Nat.add_succ_r.
Qed.

End Chain.

End WithHttp.

(** *** Two concrete sites *)

Definition sitemap_url (i : nat) : string :=
  "https://example.com/sitemap-" ++ JS.string_of_Z (Z.of_nat i) ++ ".xml".

Definition index_document (children : list string) : string :=
  "<?xml version='1.0' encoding='UTF-8'?><sitemapindex>" ++
  String.concat "" (map (fun c => "<sitemap><loc>" ++ c ++ "</loc></sitemap>") children) ++
  "</sitemapindex>".

Definition urlset_document : string :=
  "<?xml version='1.0' encoding='UTF-8'?><urlset>" ++
  "<url><loc>https://example.com/a</loc></url>" ++
  "<url><loc>https://example.com/b</loc></url></urlset>".

Definition xml (body : string) : response :=
  mkResponse 200 (Some "application/xml") body.

(** Fifteen nested indexes, [sitemap-0.xml] to [sitemap-14.xml], each
    listing the next one, above the URL set [sitemap-15.xml]. *)
Definition nested_site : HttpClient :=
  {| http_get url :=
       match find (fun i => String.eqb url (sitemap_url i)) (seq 0 15) with
       | Some i => Some (xml (index_document [sitemap_url (S i)]))
       | None =>
           if String.eqb url (sitemap_url 15) then Some (xml urlset_document)
           else None
       end |}.

(** An index whose only child points back to itself. *)
Definition looping_site : HttpClient :=
  {| http_get url :=
       if String.eqb url "https://example.com/sitemap.xml"
       then Some (xml (index_document ["https://example.com/sitemap.xml"]))
       else None |}.

(** Two indexes that list each other. *)
Definition cyclic_site : HttpClient :=
  {| http_get url :=
       if String.eqb url "https://example.com/a.xml"
       then Some (xml (index_document ["https://example.com/b.xml"]))
       else if String.eqb url "https://example.com/b.xml"
       then Some (xml (index_document ["https://example.com/a.xml"]))
       else None |}.

Example cyclic_site_walk :
  @countTotalUrlsInSitemaps cyclic_site "https://example.com/a.xml" 10 new_walk
  = (0, mkWalk ["https://example.com/a.xml"; "https://example.com/b.xml"]
               ["https://example.com/a.xml"; "https://example.com/b.xml"]).
Proof. vm_compute. reflexivity. Qed.

(** With a bound above the nesting the URL set at the bottom is reached
    and counted: the regular expression also matches its [<urlset>] tag. *)
Example nested_site_unbounded :
  fst (@countTotalUrlsInSitemaps nested_site (sitemap_url 0) 20 new_walk) = 3.
Proof. vm_compute. reflexivity. Qed.

(** *** Termination and bounds of the walk *)



End SitemapProps.

(** ** The link classifier *)

Module LinkProps.

Import WebURL SEOAnalyzer.

Section WithPlatform.

Context {platform : Platform}.

(** *** The callback, branch by branch *)

(** What the callback does to the two counters, by the branch taken. *)
Lemma each_link_counts (baseUrl : string) (l : locals) (link : anchor) :
  let l' := each_link baseUrl l link in
  match classify baseUrl (attr_href link) with
  | Internal =>
      internalLinksCount l' = internalLinksCount l + 1 /\
      externalLinksCount l' = externalLinksCount l
  | External =>
      internalLinksCount l' = internalLinksCount l /\
      externalLinksCount l' = externalLinksCount l + 1
  | NoHref | Unresolvable | HashOnly | SocialMedia =>
      internalLinksCount l' = internalLinksCount l /\
      externalLinksCount l' = externalLinksCount l
  end.
Proof.
  cbv zeta. unfold each_link, classify.
  set (l1 := add_anchor_text _ l).
  assert (H1 : internalLinksCount l1 = internalLinksCount l /\
               externalLinksCount l1 = externalLinksCount l).
  { unfold l1, add_anchor_text. now destruct (JS.truthy _). }
  destruct (JS.truthy (attr_href link)); [|exact H1].
  destruct (URL_parse (attr_href link) (Some baseUrl)) as [url|]; [|exact H1].
  destruct (URL_parse baseUrl None) as [baseUrlObj|]; [|exact H1].
  destruct (isHashOnlyLink _ _ _ _); [exact H1|].
  destruct (String.eqb _ _); [cbn; now destruct H1 as [-> ->]|].
  destruct (isSocialMedia _); cbn [negb]; [exact H1|].
  cbn; now destruct H1 as [-> ->].
Qed.

(** The number of anchors of a class. *)
Definition count_class (baseUrl : string) (c : link_class) (links : list anchor) : Z :=
  Z.of_nat (List.length
    (filter (fun a =>
               match classify baseUrl (attr_href a), c with
               | Internal, Internal | External, External => true
               | _, _ => false
               end) links)).

Lemma fold_each_link_counts (baseUrl : string) (links : list anchor) :
  forall l,
    let l' := fold_left (each_link baseUrl) links l in
    internalLinksCount l' = internalLinksCount l + count_class baseUrl Internal links /\
    externalLinksCount l' = externalLinksCount l + count_class baseUrl External links.
Proof.
  induction links as [|a links IH]; intros l; cbv zeta.
  - unfold count_class; cbn. lia.
  - cbn [fold_left]. specialize (IH (each_link baseUrl l a)). cbv zeta in IH.
    destruct IH as [IHi IHe]. rewrite IHi, IHe.
    pose proof (each_link_counts baseUrl l a) as H. cbv zeta in H.
    unfold count_class in *. cbn [filter].
    destruct (classify baseUrl (attr_href a)); destruct H as [-> ->];
      cbn [List.length]; lia.
Qed.

(** The counters returned are the numbers of anchors that take the
    internal and the external branch; the other branches count nowhere. *)
Lemma analyzeLinks_counts (links : list anchor) (baseUrl : string) :
  la_internalLinksCount (analyzeLinks links baseUrl)
    = count_class baseUrl Internal links /\
  la_externalLinksCount (analyzeLinks links baseUrl)
    = count_class baseUrl External links.
Proof.
  unfold analyzeLinks; cbn [la_internalLinksCount la_externalLinksCount].
  pose proof (fold_each_link_counts baseUrl links (mkLocals 0 0 0 [] [])) as H.
  cbv zeta in H. cbn [internalLinksCount externalLinksCount] in H.
  destruct H as [-> ->]. split; lia.
Qed.

(** *** The anchor text total *)

Lemma each_link_total (baseUrl : string) (l : locals) (link : anchor) :
  totalAnchorTextLength (each_link baseUrl l link)
  = totalAnchorTextLength l + JS.length (JS.trim (text link)).
Proof.
  unfold each_link.
  set (l1 := add_anchor_text _ l).
  assert (H1 : totalAnchorTextLength l1
               = totalAnchorTextLength l + JS.length (JS.trim (text link))).
  { unfold l1, add_anchor_text.
    destruct (JS.trim (text link)); cbn; [lia|reflexivity]. }
  destruct (JS.truthy (attr_href link)); [|exact H1].
  destruct (URL_parse (attr_href link) (Some baseUrl)) as [url|]; [|exact H1].
  destruct (URL_parse baseUrl None) as [baseUrlObj|]; [|exact H1].
  destruct (isHashOnlyLink _ _ _ _); [exact H1|].
  destruct (String.eqb _ _); [exact H1|].
  destruct (isSocialMedia _); exact H1.
Qed.

(** The sum of the lengths of the trimmed texts of all the anchors. *)
Definition total_text_length (links : list anchor) : Z :=
  fold_right (fun a sum => JS.length (JS.trim (text a)) + sum) 0 links.

Lemma fold_each_link_total (baseUrl : string) (links : list anchor) :
  forall l,
    totalAnchorTextLength (fold_left (each_link baseUrl) links l)
    = totalAnchorTextLength l + total_text_length links.
Proof.
  induction links as [|a links IH]; intros l; cbn [fold_left total_text_length fold_right].
  - lia.
  - rewrite IH, each_link_total. unfold total_text_length. lia.
Qed.

(** *** The average anchor text length *)

(** [Math.round(total / n)] for integers, as one integer division. *)
Lemma round_div (total n : Z) :
  0 < n ->
  JS.Math_round (JS.div (JS.of_Z total) (JS.of_Z n))
  = JS.of_Z ((2 * total + n) / (2 * n)).
Proof.
  intros Hn. destruct n as [|p|p]; try lia.
  unfold JS.div, JS.of_Z, JS.is_zero, JS.Math_round, JS.round_Q. cbn [inject_Z Qnum].
  cbn [Z.eqb]. unfold JS.of_Z. do 2 f_equal.
  unfold Qfloor, Qdiv, Qinv, Qmult, Qplus; cbn [Qnum Qden inject_Z].
  f_equal; lia.
Qed.

(** The nearest integer to [total / n], halves going up. *)
Lemma nearest_div (total n : Z) :
  0 < n ->
  let a := (2 * total + n) / (2 * n) in
  2 * a * n - n <= 2 * total < 2 * a * n + n.
Proof.
  intros Hn a.
  pose proof (Z.div_mod (2 * total + n) (2 * n) ltac:(lia)) as Hdm.
  pose proof (Z.mod_pos_bound (2 * total + n) (2 * n) ltac:(lia)) as Hb.
  fold a in Hdm. nia.
Qed.

(** C6. The average anchor text length is computed from the texts of all
    the anchors selected, whatever their href and the branch they take:
    it is 0 without anchors, and otherwise the integer nearest to the sum
    of the trimmed text lengths divided by the number of anchors. *)
Theorem averageAnchorTextLength_spec (links : list anchor) (baseUrl : string) :
  let n := Z.of_nat (List.length links) in
  let total := total_text_length links in
  let average := la_averageAnchorTextLength (analyzeLinks links baseUrl) in
  (links = [] -> average = JS.of_Z 0) /\
  (links <> [] ->
   average = JS.Math_round (JS.div (JS.of_Z total) (JS.of_Z n)) /\
   exists a, average = JS.of_Z a /\ 2 * a * n - n <= 2 * total < 2 * a * n + n).
Proof.
  cbv zeta. unfold analyzeLinks; cbn [la_averageAnchorTextLength].
  rewrite fold_each_link_total; cbn [totalAnchorTextLength Z.add].
  split.
  - intros ->. reflexivity.
  - intros Hne.
    assert (Hn : 0 < Z.of_nat (List.length links)).
    { destruct links; [congruence|cbn [List.length]; lia]. }
    destruct (Z.gtb_spec (Z.of_nat (List.length links)) 0) as [_|Hle]; [|lia].
    split; [reflexivity|].
    eexists. split; [apply (round_div _ _ Hn)|apply (nearest_div _ _ Hn)].
Qed.

End WithPlatform.

(** *** The scenario of five anchors *)

Definition scenario_base : string := "https://samehost.com/".

Definition scenario_links : list anchor :=
  map (fun href => mkAnchor href "link" None)
      [ "#"; "https://samehost.com/#section"; "https://samehost.com/other";
        "https://facebook.com/page"; "https://other.com" ].

(** The hash-only test drops the first two anchors, the third is internal,
    the fourth is on the social list and the fifth is external. *)
Example scenario_classes :
  map (fun a => @classify simple scenario_base (attr_href a)) scenario_links
  = [HashOnly; HashOnly; Internal; SocialMedia; External].
Proof. vm_compute. reflexivity. Qed.

Example scenario_counts :
  la_internalLinksCount (@analyzeLinks simple scenario_links scenario_base) = 1 /\
  la_externalLinksCount (@analyzeLinks simple scenario_links scenario_base) = 1.
Proof. vm_compute. split; reflexivity. Qed.

(** A fragment link with a long text and an internal link with a short
    one: the text of the skipped fragment link is part of the sum, and
    13 / 2 rounds up to 7. *)
Definition mixed_links : list anchor :=
  [ mkAnchor "#" "Back to top" None;
    mkAnchor "https://samehost.com/other" "  Go " None ].

Lemma averageAnchorTextLength_spec_witness :
  map (fun a => @classify simple scenario_base (attr_href a)) mixed_links
    = [HashOnly; Internal] /\
  total_text_length mixed_links = 13 /\
  la_averageAnchorTextLength (@analyzeLinks simple mixed_links scenario_base)
    = JS.of_Z 7.
Proof.
  split; [reflexivity|]. split; [reflexivity|].
  destruct (@averageAnchorTextLength_spec simple mixed_links scenario_base)
    as [_ H].
  destruct (H ltac:(discriminate)) as [-> _]. reflexivity.
Defined.

(** An anchor whose text is [&nbsp;Go&nbsp;]: the no-break spaces are
    trimmed away and the length counted is 2. *)
Example averageAnchorTextLength_no_break_space :
  let links :=
    [ mkAnchor "https://samehost.com/other"
               (JSFacts.nbsp ++ "Go" ++ JSFacts.nbsp) None ] in
  total_text_length links = 2 /\
  la_averageAnchorTextLength (@analyzeLinks simple links scenario_base) = JS.of_Z 2.
Proof. cbv zeta. split; reflexivity. Qed.

(** *** A link to a fragment of another site *)

(** A same-page fragment link in the words of the specification: the
    href resolves to the base URL followed by a hash, or ends in a bare
    [#]. *)
Definition resolves_to_base_plus_hash (href baseUrl : string) (url : URL) : bool :=
  JS.startsWith (WebURL.href url) (baseUrl ++ "#") || JS.endsWith href "#".

Definition cross_site_fragment : string := "https://other.com/#top".

(** C4, at a failing input. On the page https://samehost.com/ the anchor
    https://other.com/#top resolves to another host, which is not on the
    social list, and not to the base URL plus a hash; yet the hash-only
    test takes it (its path is "/" and it has a hash), so it is dropped
    and the external count stays 0, while the same link without its
    fragment is external. *)
Theorem analyzeLinks_drops_cross_site_fragment :
  let result :=
    @analyzeLinks simple [mkAnchor cross_site_fragment "Top" None] scenario_base in
  exists url baseUrlObj,
    simple_parse cross_site_fragment (Some scenario_base) = Some url /\
    simple_parse scenario_base None = Some baseUrlObj /\
    hostname url = "other.com" /\ hostname baseUrlObj = "samehost.com" /\
    isSocialMedia (hostname url) = false /\
    resolves_to_base_plus_hash cross_site_fragment scenario_base url = false /\
    isHashOnlyLink cross_site_fragment scenario_base url baseUrlObj = true /\
    @classify simple scenario_base cross_site_fragment = HashOnly /\
    @classify simple scenario_base "https://other.com/" = External /\
    la_internalLinksCount result = 0 /\
    la_externalLinksCount result = 0.
Proof.
  cbv zeta. do 2 eexists.
  split; [vm_compute; reflexivity|].
  split; [vm_compute; reflexivity|].
  vm_compute. repeat split; reflexivity.
Qed.

End LinkProps.

(** ** The domain aggregator *)

Module MainProps.

Import WebURL Main.

(** A number that is an ordinary value equal to zero. *)
Definition is_zero_number (a : JS.number) : Prop :=
  match a with JS.Num q => (q == 0)%Q | _ => False end.

(** With at least one page every division is by a positive number, and a
    percentage is an ordinary number. *)
Lemma percentage_of_pages (k totalPages : Z) :
  0 < totalPages -> exists q, percentage k totalPages = JS.Num q.
Proof.
  intros H. destruct totalPages as [|p|p]; try lia.
  unfold percentage, JS.div, JS.of_Z, JS.is_zero; cbn [inject_Z Qnum Z.eqb].
  cbn [JS.mul JS.Math_round]. unfold JS.of_Z. eauto.
Qed.

(** C2, at the failing input. For the empty list of page results the
    function returns an object (it does not throw) whose average score is
    0, the only division that is guarded; every percentage and every other
    average is [Math.round] of [0 / 0], which is NaN. *)
Theorem calculateDomainAnalysis_empty (platform : Platform) :
  exists r,
    calculateDomainAnalysis [] = Some r /\
    total_pages_analyzed r = 0 /\
    is_zero_number (average_seo_score r) /\
    is_zero_number (seo_score r) /\
    pages_with_h1_percentage r = JS.NaN /\
    pages_with_meta_description_percentage r = JS.NaN /\
    pages_with_errors_percentage r = JS.NaN /\
    average_title_length r = JS.NaN /\
    average_description_length r = JS.NaN /\
    average_words_per_page r = JS.NaN /\
    average_internal_links r = JS.NaN /\
    pages_with_successful_status_percentage r = JS.NaN /\
    pages_with_redirect_status_percentage r = JS.NaN /\
    pages_with_error_status_percentage r = JS.NaN /\
    pages_with_opengraph_percentage r = JS.NaN /\
    pages_with_opengraph_title_percentage r = JS.NaN /\
    pages_with_opengraph_description_percentage r = JS.NaN /\
    pages_with_opengraph_image_percentage r = JS.NaN.
Proof.
  eexists. split; [reflexivity|].
  cbn. repeat split; reflexivity.
Qed.

(** The same run with one analysed page: every field is an ordinary
    number. *)
Example calculateDomainAnalysis_one_page :
  let page :=
    mkPageResult "https://a.com/" (Some 58) (Some 1) (Some 0) "" (Some 200)
                 false None (Some 5) (Some 100) (Some 3) in
  option_map (fun r => (pages_with_h1_percentage r, average_title_length r))
             (@calculateDomainAnalysis simple [page])
  = Some (JS.of_Z 100, JS.of_Z 5).
Proof. vm_compute. reflexivity. Qed.

End MainProps.

(* ================================================================== *)
(** * Further properties *)
(* ================================================================== *)

(** ** Strings *)

Module StringFacts.

Lemma append_empty_r (s : string) : s ++ "" = s.
Proof.
  induction s as [|c s IH]; cbn [append]; [reflexivity|now rewrite IH].
Qed.

Lemma append_assoc (a b c : string) : (a ++ b) ++ c = a ++ b ++ c.
Proof.
  induction a as [|x a IH]; cbn [append]; [reflexivity|now rewrite IH].
Qed.

Lemma append_length (a b : string) :
  String.length (a ++ b) = (String.length a + String.length b)%nat.
Proof.
  induction a as [|x a IH]; cbn [append String.length]; [reflexivity|now rewrite IH].
Qed.

End StringFacts.

(** ** Rounded percentages *)

Module Percentages.

(** [Math.round((k / n) * 100)] for integers, as one integer division. *)
Lemma percentage_value (k n : Z) :
  0 < n -> Main.percentage k n = JS.of_Z ((200 * k + n) / (2 * n)).
Proof.
  intros Hn. destruct n as [|p|p]; try lia.
  unfold Main.percentage, JS.div, JS.of_Z, JS.is_zero. cbn [inject_Z Qnum Z.eqb].
  cbn [JS.mul JS.Math_round]. unfold JS.of_Z, JS.round_Q. do 2 f_equal.
  unfold Qfloor, Qdiv, Qinv, Qmult, Qplus; cbn [Qnum Qden inject_Z].
  f_equal; lia.
Qed.

(** The rounded percentage of a part of a whole is between 0 and 100; it
    is 0 for less than half a percent and 100 from 99.5 percent on. *)
Lemma rounded_percentage_range (k n : Z) :
  0 <= k <= n -> 0 < n ->
  let p := (200 * k + n) / (2 * n) in
  0 <= p <= 100 /\ (p = 0 <-> 200 * k < n) /\ (p = 100 <-> 199 * n <= 200 * k).
Proof.
  intros Hk Hn p.
  pose proof (Z.div_mod (200 * k + n) (2 * n) ltac:(lia)) as Hdm.
  pose proof (Z.mod_pos_bound (200 * k + n) (2 * n) ltac:(lia)) as Hb.
  fold p in Hdm.
  repeat split; try nia.
Qed.

(** The number of elements a filter keeps is at most the number there are. *)
Lemma count_le {A} (p : A -> bool) (xs : list A) :
  0 <= Main.count p xs <= Z.of_nat (List.length xs).
Proof.
  unfold Main.count. pose proof (filter_length_le p xs). lia.
Qed.

End Percentages.

(** ** More on the scorer *)

Module ScorerMore.

Import SEOScorer ScorerProps.

#[local] Open Scope command_scope.

Lemma scaled_heading_div (headingScore : Z) :
  scaled_heading headingScore = headingScore * 2 / 10.
Proof.
  unfold scaled_heading, Qfloor, Qmult, inject_Z; cbn [Qnum Qden].
  reflexivity.
Qed.

(** Run from empty locals, a block that is a single penalty. *)
Ltac block_cases :=
  unfold delta, emitted, seq, add_score, push_issue, skip; cbn [score issues];
  repeat (match goal with
          | |- context [if ?b then _ else _] =>
              lazymatch b with
              | andb ?x _ => destruct x
              | orb ?x _ => destruct x
              | negb ?x => destruct x
              | _ => destruct b
              end
          end; cbn [andb orb negb]);
  cbn [score issues app]; try split; intros; try discriminate; try lia.

Lemma quiet_title_block seo :
  (emitted (title_block seo) = [] -> delta (title_block seo) = 0) /\
  -15 <= delta (title_block seo) <= 0.
Proof. unfold title_block. block_cases. Qed.

Lemma quiet_description_block seo :
  (emitted (description_block seo) = [] -> delta (description_block seo) = 0) /\
  -12 <= delta (description_block seo) <= 0.
Proof. unfold description_block. block_cases. Qed.

Lemma quiet_technical_block seo :
  (emitted (technical_block seo) = [] -> delta (technical_block seo) = 0) /\
  -40 <= delta (technical_block seo) <= 0.
Proof. unfold technical_block. block_cases. Qed.

Lemma quiet_content_block seo :
  (emitted (content_block seo) = [] -> 0 <= delta (content_block seo)) /\
  -8 <= delta (content_block seo) <= 2.
Proof.
  unfold content_block. cbv zeta.
  destruct (Z.ltb_spec (content_words seo) 150);
  destruct (Z.ltb_spec (content_words seo) 300);
  destruct (Z.geb_spec (content_words seo) 800);
  destruct (Z.gtb_spec (content_words seo) 200); try lia;
  block_cases.
Qed.

Lemma quiet_images_block seo :
  (emitted (images_block seo) = [] -> delta (images_block seo) = 0) /\
  -5 <= delta (images_block seo) <= 0.
Proof.
  unfold images_block. cbv zeta.
  destruct (Z.gtb_spec (JS.or_num (imagesWithoutAlt seo) 0) 0); block_cases.
Qed.

Lemma quiet_performance_block seo :
  (emitted (performance_block seo) = [] -> delta (performance_block seo) = 0) /\
  -5 <= delta (performance_block seo) <= 0.
Proof. unfold performance_block. block_cases. Qed.

Lemma bonus_block_range seo :
  emitted (bonus_block seo) = [] /\ 0 <= delta (bonus_block seo) <= 5.
Proof.
  unfold bonus_block, bonusPoints, delta, emitted, add_score; cbn [score issues].
  repeat match goal with
         | |- context [if ?b then _ else _] => destruct b
         end; split; try reflexivity; lia.
Qed.

Lemma quiet_heading_block seo :
  emitted (heading_block seo) = [] -> -10 <= delta (heading_block seo).
Proof.
  unfold heading_block. destruct (headingScore seo) as [hs|].
  - destruct (Z.ltb_spec hs 50) as [Hlt|Hge].
    + unfold delta, emitted, seq, add_score, push_issue; cbn. discriminate.
    + intros _. unfold delta, seq, add_score, skip; cbn [score].
      rewrite scaled_heading_div.
      assert (10 <= hs * 2 / 10) by (apply Z.div_le_lower_bound; lia). lia.
  - cbv zeta. block_cases.
Qed.

Lemma heading_block_range seo :
  match headingScore seo with
  | Some hs => 0 <= hs <= 100
  | None => True
  end ->
  -20 <= delta (heading_block seo) <= 3.
Proof.
  unfold heading_block. destruct (headingScore seo) as [hs|].
  - intros Hhs.
    assert (0 <= hs * 2 / 10 <= 20).
    { split; [apply Z.div_pos; lia|].
      apply Z.div_le_upper_bound; lia. }
    unfold delta, seq, add_score, push_issue, skip.
    destruct (hs <? 50); cbn [score]; rewrite scaled_heading_div; lia.
  - intros _. cbv zeta. block_cases.
Qed.

Lemma app_nil_8 {A} (a b c d e f g h : list A) :
  (a ++ b ++ c ++ d ++ e ++ f ++ g ++ h)%list = [] ->
  a = [] /\ b = [] /\ c = [] /\ d = [] /\ e = [] /\ f = [] /\ g = [] /\ h = [].
Proof.
  intros H.
  repeat match type of H with
         | (_ ++ _)%list = [] => apply app_eq_nil in H as [? H]
         end.
  repeat split; assumption.
Qed.

(** A page with every signal in place. *)
Definition clean_page : seoData :=
  {| title := "A page title of a sensible length"; titleLength := Some 33;
     description := "A description"; descriptionLength := Some 140;
     headingScore := Some 70;
     h1Count := Some 1; h1 := Some ["Welcome"]; h2Count := Some 2; h3Count := Some 1;
     hasHttps := true; xRobots := ""; metaRobots := "index, follow";
     favicon := true; hasOpenGraph := true; viewport := true;
     wordcountcontentonly := Some 420; words := Some 500;
     totalwordcount := Some 900; wordcount := Some 500;
     strongTags := Some 3; imagesWithoutAlt := Some 0;
     hasSchema := false; hasJsonLd := false; canonicalUrl := "";
     hasHreflang := false; appleTouchIcon := false;
     javascriptFiles := Some 4; cssFiles := Some 2 |}.

(** X1. A page for which the scorer reports no issue scores at least 90
    and gets grade A: every penalty pushes an issue, except the scaled
    heading score, which costs at most 10 points without one. *)
Theorem no_issues_grade_A (seo : seoData) :
  seo_issues (calculateScore seo) = [] ->
  90 <= seo_page_score (calculateScore seo) <= 100 /\
  seo_grade (calculateScore seo) = "A" /\
  seo_issues_count (calculateScore seo) = 0.
Proof.
  unfold calculateScore; cbn [seo_issues seo_page_score seo_grade seo_issues_count].
  intros Hnone. rewrite Hnone.
  rewrite run_blocks_issues in Hnone.
  apply app_nil_8 in Hnone as (Ht & Hd & Hh & Hx & Hc & Hi & _ & Hp).
  apply (proj1 (quiet_title_block seo)) in Ht.
  apply (proj1 (quiet_description_block seo)) in Hd.
  apply quiet_heading_block in Hh.
  apply (proj1 (quiet_technical_block seo)) in Hx.
  apply (proj1 (quiet_content_block seo)) in Hc.
  apply (proj1 (quiet_images_block seo)) in Hi.
  apply (proj1 (quiet_performance_block seo)) in Hp.
  pose proof (proj2 (bonus_block_range seo)) as Hb.
  assert (Hraw : 90 <= score (run_blocks seo)) by (rewrite run_blocks_score; lia).
  rewrite finalScore_clamp.
  assert (Hfinal : 90 <= Z.max 0 (Z.min 100 (score (run_blocks seo))) <= 100) by lia.
  split; [exact Hfinal|]. split; [|reflexivity].
  unfold getGrade. destruct (Z.geb_spec (Z.max 0 (Z.min 100 (score (run_blocks seo)))) 90);
    [reflexivity|lia].
Qed.

Lemma no_issues_grade_A_witness :
  seo_issues (calculateScore clean_page) = [] /\
  seo_page_score (calculateScore clean_page) = 94 /\
  seo_grade (calculateScore clean_page) = "A".
Proof.
  split; [reflexivity|].
  destruct (no_issues_grade_A clean_page eq_refl) as (_ & Hg & _).
  split; [reflexivity|exact Hg].
Defined.

(** X2. Before rounding and clamping the score stays between -5 and 110
    when the heading score is absent or lies between 0 and 100, as the
    analyzer produces it: the clamp can cut at most 5 points below 0 and
    10 above 100. *)
Theorem raw_score_range (seo : seoData) :
  match headingScore seo with
  | Some hs => 0 <= hs <= 100
  | None => True
  end ->
  -5 <= score (run_blocks seo) <= 110.
Proof.
  intros Hhs. rewrite run_blocks_score.
  pose proof (proj2 (quiet_title_block seo)).
  pose proof (proj2 (quiet_description_block seo)).
  pose proof (heading_block_range seo Hhs) as Hh.
  pose proof (proj2 (quiet_technical_block seo)).
  pose proof (proj2 (quiet_content_block seo)).
  pose proof (proj2 (quiet_images_block seo)).
  pose proof (proj2 (bonus_block_range seo)).
  pose proof (proj2 (quiet_performance_block seo)).
  assert (Hcombined :
            -20 - 8 <= delta (heading_block seo) + delta (content_block seo) <= 3 + 2)
    by lia.
  lia.
Qed.

(** A page with every penalty. *)
Definition worst_page : seoData :=
  {| title := ""; titleLength := Some 0;
     description := ""; descriptionLength := Some 0;
     headingScore := Some 0;
     h1Count := Some 0; h1 := Some []; h2Count := Some 0; h3Count := Some 0;
     hasHttps := false; xRobots := "noindex"; metaRobots := "NOINDEX, NOFOLLOW";
     favicon := false; hasOpenGraph := false; viewport := false;
     wordcountcontentonly := Some 12; words := Some 40;
     totalwordcount := Some 90; wordcount := Some 40;
     strongTags := Some 0; imagesWithoutAlt := Some 7;
     hasSchema := false; hasJsonLd := false; canonicalUrl := "";
     hasHreflang := false; appleTouchIcon := false;
     javascriptFiles := Some 30; cssFiles := Some 20 |}.

Lemma raw_score_range_witness :
  score (run_blocks worst_page) = -5 /\
  seo_page_score (calculateScore worst_page) = 0 /\
  -5 <= score (run_blocks worst_page) <= 110.
Proof.
  split; [reflexivity|]. split; [reflexivity|].
  apply (raw_score_range worst_page). cbn. lia.
Defined.

(** The labels [generateSeoNotes] collects under "Strengths". *)
Definition strengths (seo : seoData) : list string :=
  ((if hasHttps seo then ["HTTPS enabled"] else []) ++
   (if hasOpenGraph seo then ["OpenGraph present"] else []) ++
   (if JS.or_num (words seo) 0 >=? 500 then ["good content length"] else []) ++
   (if JS.or_num (h1Count seo) 0 =? 1 then ["proper H1 structure"] else []))%list.

(** X3. The notes are empty when there is neither an issue nor a
    strength; with issues they start with "Issues: "; without issues the
    separator in front of "Strengths: " is removed; with both, the two
    parts are joined by " | ". *)
Theorem generateSeoNotes_shape (seo : seoData) (issues : list string) :
  generateSeoNotes seo issues =
  match issues, strengths seo with
  | [], [] => ""
  | [], _ => "Strengths: " ++ JS.join ", " (strengths seo)
  | _, [] => "Issues: " ++ JS.join ", " issues
  | _, _ =>
      "Issues: " ++ JS.join ", " issues ++
      " | Strengths: " ++ JS.join ", " (strengths seo)
  end.
Proof.
  unfold generateSeoNotes. fold (strengths seo).
  destruct issues as [|i issues]; destruct (strengths seo) as [|p ps];
    try reflexivity.
  rewrite StringFacts.append_empty_r. reflexivity.
Qed.

End ScorerMore.

(** ** The heading score *)

Module HeadingProps.

Import Headings.

Lemma hierarchy_step_score (h : hierarchy) (x : heading) :
  hierarchyScore (hierarchy_step h x) <= hierarchyScore h.
Proof.
  unfold hierarchy_step.
  destruct (_ && _); [cbn; lia|].
  destruct (level x =? previousLevel h); [|cbn; lia].
  cbn. destruct (_ >? 2); lia.
Qed.

Lemma hierarchy_fold_score (headings : list heading) :
  forall h, hierarchyScore (fold_left hierarchy_step headings h) <= hierarchyScore h.
Proof.
  induction headings as [|x headings IH]; intros h; cbn [fold_left]; [lia|].
  specialize (IH (hierarchy_step h x)).
  pose proof (hierarchy_step_score h x). lia.
Qed.

Lemma count_tag_nonneg (name : string) (headings : list heading) :
  0 <= count_tag name headings.
Proof. unfold count_tag. lia. Qed.

Section WithPlatform.

Context {platform : WebURL.Platform}.

Lemma calculateHeadingScore_bounds (headings : list heading) (title : string) :
  0 <= calculateHeadingScore headings title <= 90.
Proof.
  unfold calculateHeadingScore. cbv zeta.
  pose proof (hierarchy_fold_score headings (mkHierarchy 0 0 0 0)) as Hh.
  cbn [hierarchyScore] in Hh.
  set (h := fold_left hierarchy_step headings (mkHierarchy 0 0 0 0)) in *.
  destruct (count_tag "h1" headings =? 1);
    [|destruct (count_tag "h1" headings =? 0)];
    destruct (JS.truthy title && titleHasKeywords headings title);
    destruct (Z.of_nat (List.length headings) >=? 3);
    destruct (count_tag "h2" headings >=? 2);
    destruct (count_tag "h3" headings >=? 3); lia.
Qed.

(** X4. The heading score lies between 0 and 90, and it is 0 for a page
    without headings: the hierarchy loop only subtracts, so the hierarchy
    part is at most the 20 points of the depth bonus and its cap of 30 is
    never reached, and neither is the final cap of 100. *)
Theorem calculateHeadingScore_range (headings : list heading) (title : string) :
  0 <= calculateHeadingScore headings title <= 90 /\
  calculateHeadingScore [] title = 0.
Proof.
  split; [apply calculateHeadingScore_bounds|].
  unfold calculateHeadingScore, titleHasKeywords. cbn.
  now rewrite andb_false_r.
Qed.

End WithPlatform.

(** *** The heading score in the scorer *)

Import SEOScorer ScorerProps.

Section WithPlatform.

Context {platform : WebURL.Platform}.

(** The same record with the heading score the analyzer computes. *)
Definition with_headingScore (seo : seoData) (hs : Z) : seoData :=
  {| title := title seo; titleLength := titleLength seo;
     description := description seo; descriptionLength := descriptionLength seo;
     headingScore := Some hs;
     h1Count := h1Count seo; h1 := h1 seo;
     h2Count := h2Count seo; h3Count := h3Count seo;
     hasHttps := hasHttps seo; xRobots := xRobots seo; metaRobots := metaRobots seo;
     favicon := favicon seo; hasOpenGraph := hasOpenGraph seo;
     viewport := viewport seo;
     wordcountcontentonly := wordcountcontentonly seo; words := words seo;
     totalwordcount := totalwordcount seo; wordcount := wordcount seo;
     strongTags := strongTags seo; imagesWithoutAlt := imagesWithoutAlt seo;
     hasSchema := hasSchema seo; hasJsonLd := hasJsonLd seo;
     canonicalUrl := canonicalUrl seo;
     hasHreflang := hasHreflang seo; appleTouchIcon := appleTouchIcon seo;
     javascriptFiles := javascriptFiles seo; cssFiles := cssFiles seo |}.

(** X5. When the record carries the heading score of the analyzer, the
    heading block costs between 2 and 20 points, so the score before
    clamping is at most 100 plus the bonus points, and at most 98 plus the
    bonus points below 800 content words. *)
Theorem analyzer_heading_contribution
    (seo : seoData) (headings : list heading) (pageTitle : string) :
  headingScore seo = Some (calculateHeadingScore headings pageTitle) ->
  -20 <= delta (heading_block seo) <= -2 /\
  score (run_blocks seo) <= 100 + bonusPoints seo /\
  (content_words seo < 800 -> score (run_blocks seo) <= 98 + bonusPoints seo).
Proof.
  intros Hhs.
  pose proof (calculateHeadingScore_bounds headings pageTitle) as Hr.
  set (hs := calculateHeadingScore headings pageTitle) in *.
  assert (Hh : -20 <= delta (heading_block seo) <= -2).
  { unfold heading_block. rewrite Hhs.
    assert (0 <= hs * 2 / 10 <= 18).
    { split; [apply Z.div_pos; lia|].
      apply Z.div_le_upper_bound; lia. }
    unfold delta, seq, add_score, push_issue, skip.
    destruct (hs <? 50); cbn [score]; rewrite ScorerMore.scaled_heading_div; lia. }
  split; [exact Hh|].
  rewrite run_blocks_score.
  pose proof (proj2 (ScorerMore.quiet_title_block seo)).
  pose proof (proj2 (ScorerMore.quiet_description_block seo)).
  pose proof (proj2 (ScorerMore.quiet_technical_block seo)).
  pose proof (proj2 (ScorerMore.quiet_content_block seo)) as Hc.
  pose proof (proj2 (ScorerMore.quiet_images_block seo)).
  pose proof (proj2 (ScorerMore.quiet_performance_block seo)).
  assert (Hb : delta (bonus_block seo) = bonusPoints seo).
  { unfold bonus_block, delta, add_score; cbn [score]. lia. }
  split; [lia|].
  intros Hw.
  assert (delta (content_block seo) <= 0).
  { unfold content_block. cbv zeta.
    destruct (Z.ltb_spec (content_words seo) 150);
    destruct (Z.ltb_spec (content_words seo) 300);
    destruct (Z.geb_spec (content_words seo) 800); try lia;
    unfold delta, seq, add_score, push_issue, skip;
    destruct (_ && _); cbn [score]; lia. }
  lia.
Qed.

End WithPlatform.

Definition guide_headings : list heading :=
  analyzeHeadingStructure
    [ mkHeadingElement 1 " SEO Guide "; mkHeadingElement 2 "Basics";
      mkHeadingElement 2 "More"; mkHeadingElement 3 "Titles";
      mkHeadingElement 3 "Links"; mkHeadingElement 3 "Images";
      mkHeadingElement 4 "Alt text" ].

Lemma analyzer_heading_contribution_witness :
  @calculateHeadingScore WebURL.simple guide_headings "The SEO guide" = 90 /\
  delta (heading_block (with_headingScore ScorerMore.clean_page 90)) = -2 /\
  score (run_blocks (with_headingScore ScorerMore.clean_page 90)) <= 98.
Proof.
  split; [reflexivity|].
  destruct (@analyzer_heading_contribution WebURL.simple
              (with_headingScore ScorerMore.clean_page 90)
              guide_headings "The SEO guide" eq_refl) as (_ & _ & H).
  split; [reflexivity|]. apply H. reflexivity.
Defined.

(** *** The heading list *)

(** The headings pushed for the elements from the [k]-th position on. *)
Fixpoint headings_from (k : nat) (elements : list heading_element) : list heading :=
  match elements with
  | [] => []
  | el :: rest =>
      if JS.truthy (JS.trim (el_text el)) then
        mkHeading ("h" ++ JS.string_of_Z (el_level el)) (el_level el)
                  (JS.trim (el_text el)) (Z.of_nat k + 1)
        :: headings_from (S k) rest
      else headings_from k rest
  end.

Lemma analyzeHeadingStructure_from (elements : list heading_element) :
  forall acc,
    fold_left
      (fun headings el =>
         let tag := "h" ++ JS.string_of_Z (el_level el) in
         let level := el_level el in
         let text := JS.trim (el_text el) in
         if JS.truthy text then
           (headings ++ [mkHeading tag level text (Z.of_nat (List.length headings) + 1)])%list
         else headings)
      elements acc
    = (acc ++ headings_from (List.length acc) elements)%list.
Proof.
  induction elements as [|el rest IH]; intros acc; cbn [fold_left headings_from].
  - now rewrite app_nil_r.
  - cbv zeta. destruct (JS.truthy (JS.trim (el_text el))).
    + rewrite IH, length_app, <- app_assoc. cbn [List.length app].
      now rewrite Nat.add_1_r.
    + apply IH.
Qed.

Lemma headings_from_positions (elements : list heading_element) :
  forall k,
    map position (headings_from k elements)
    = map (fun i => Z.of_nat i + 1)
          (List.seq k (List.length (headings_from k elements))).
Proof.
  induction elements as [|el rest IH]; intros k; cbn [headings_from]; [reflexivity|].
  destruct (JS.truthy (JS.trim (el_text el))); [|apply IH].
  cbn [map List.length List.seq position]. now rewrite IH.
Qed.

Lemma headings_from_texts (elements : list heading_element) :
  forall k,
    map text (headings_from k elements)
    = filter JS.truthy (map (fun el => JS.trim (el_text el)) elements).
Proof.
  induction elements as [|el rest IH]; intros k; cbn [headings_from map filter];
    [reflexivity|].
  destruct (JS.truthy (JS.trim (el_text el))); [|apply IH].
  cbn [map text]. now rewrite IH.
Qed.

(** X6. The heading structure lists the trimmed, non-empty texts of the
    heading elements in document order, and numbers them 1, 2, 3, ...
    without gaps: an element with a blank text takes no position. *)
Theorem analyzeHeadingStructure_positions (elements : list heading_element) :
  let headings := analyzeHeadingStructure elements in
  map text headings
    = filter JS.truthy (map (fun el => JS.trim (el_text el)) elements) /\
  map position headings
    = map (fun i => Z.of_nat i + 1) (List.seq 0 (List.length headings)) /\
  (List.length headings <= List.length elements)%nat.
Proof.
  cbv zeta. unfold analyzeHeadingStructure.
  rewrite analyzeHeadingStructure_from. cbn [app List.length].
  split; [apply headings_from_texts|]. split; [apply headings_from_positions|].
  rewrite <- (length_map text), headings_from_texts.
  rewrite <- (length_map (fun el => JS.trim (el_text el)) elements).
  apply filter_length_le.
Qed.

(** A heading that holds a no-break space only is blank: it is left out
    and the next heading is the first. *)
Example analyzeHeadingStructure_no_break_space :
  analyzeHeadingStructure
    [ mkHeadingElement 2 JSFacts.nbsp; mkHeadingElement 1 "A" ]
  = [ mkHeading "h1" 1 "A" 1 ].
Proof. reflexivity. Qed.

End HeadingProps.

(** ** The sitemap documents *)

Module SitemapDocs.

Import WebURL SitemapAnalyzer.

(** [s] has no character [c]. *)
Fixpoint lacks (c : ascii) (s : string) : bool :=
  match s with
  | EmptyString => true
  | String d r => negb (Ascii.eqb d c) && lacks c r
  end.

(** *** Counting tags *)

Lemma prefix_ci_cons_neq (c : ascii) (p s : string) (d : ascii) :
  Ascii.eqb (JS.lower_ascii c) (JS.lower_ascii d) = false ->
  prefix_ci (String c p) (String d s) = false.
Proof. intros H. cbn [prefix_ci]. now rewrite H. Qed.

(** Text without ["<"] starts no tag. *)
Lemma count_open_tags_text (open' text rest : string) :
  lacks "<" text = true ->
  count_open_tags (String "<" open') false (text ++ rest)
  = count_open_tags (String "<" open') false rest.
Proof.
  induction text as [|d text IH]; cbn [lacks append]; intros H; [reflexivity|].
  apply andb_true_iff in H as [Hd Ht].
  cbn [count_open_tags]. rewrite prefix_ci_cons_neq.
  - exact (IH Ht).
  - apply negb_true_iff in Hd.
    destruct d as [[] [] [] [] [] [] [] []]; try reflexivity; discriminate Hd.
Qed.

(** Inside a tag, text without [">"] is skipped up to the [">"] that
    closes the tag. *)
Lemma count_open_tags_attrs (open attrs rest : string) :
  lacks ">" attrs = true ->
  count_open_tags open true (attrs ++ String ">" rest)
  = 1 + count_open_tags open false rest.
Proof.
  induction attrs as [|d attrs IH]; cbn [lacks append]; intros H.
  - reflexivity.
  - apply andb_true_iff in H as [Hd Ht]. apply negb_true_iff in Hd.
    cbn [count_open_tags]. rewrite Hd. exact (IH Ht).
Qed.

(** A URL set as sitemap generators write it. *)
Definition url_entry (loc : string) : string :=
  "<url><loc>" ++ loc ++ "</loc></url>".

Definition urlset_xml (attrs : string) (locs : list string) : string :=
  "<urlset" ++ attrs ++ ">" ++ String.concat "" (map url_entry locs) ++ "</urlset>".

Definition sitemap_entry (loc : string) : string :=
  "<sitemap><loc>" ++ loc ++ "</loc></sitemap>".

Definition sitemapindex_xml (attrs : string) (locs : list string) : string :=
  "<sitemapindex" ++ attrs ++ ">" ++ String.concat "" (map sitemap_entry locs)
  ++ "</sitemapindex>".

Lemma concat_empty_cons (x : string) (xs : list string) (rest : string) :
  String.concat "" (x :: xs) ++ rest = x ++ String.concat "" xs ++ rest.
Proof.
  destruct xs as [|y ys]; cbn [String.concat].
  - reflexivity.
  - now rewrite !StringFacts.append_assoc.
Qed.

Lemma count_url_entry (loc rest : string) :
  lacks "<" loc = true ->
  count_open_tags "<url" false (url_entry loc ++ rest)
  = 1 + count_open_tags "<url" false rest.
Proof.
  intros H. unfold url_entry. rewrite !StringFacts.append_assoc.
  change (count_open_tags "<url" false ("<url><loc>" ++ loc ++ "</loc></url>" ++ rest))
    with (1 + count_open_tags "<url" false (loc ++ "</loc></url>" ++ rest)).
  now rewrite (count_open_tags_text "url" loc _ H).
Qed.

Lemma count_sitemap_entry (loc rest : string) :
  lacks "<" loc = true ->
  count_open_tags "<sitemap" false (sitemap_entry loc ++ rest)
  = 1 + count_open_tags "<sitemap" false rest.
Proof.
  intros H. unfold sitemap_entry. rewrite !StringFacts.append_assoc.
  change (count_open_tags "<sitemap" false
            ("<sitemap><loc>" ++ loc ++ "</loc></sitemap>" ++ rest))
    with (1 + count_open_tags "<sitemap" false (loc ++ "</loc></sitemap>" ++ rest)).
  now rewrite (count_open_tags_text "sitemap" loc _ H).
Qed.

Lemma count_url_entries (locs : list string) (rest : string) :
  forallb (lacks "<") locs = true ->
  count_open_tags "<url" false (String.concat "" (map url_entry locs) ++ rest)
  = Z.of_nat (List.length locs) + count_open_tags "<url" false rest.
Proof.
  induction locs as [|loc locs IH]; intros H.
  - reflexivity.
  - cbn [forallb] in H. apply andb_true_iff in H as [Hl Hr].
    cbn [map]. rewrite concat_empty_cons, (count_url_entry _ _ Hl), (IH Hr).
    cbn [List.length]. lia.
Qed.

Lemma count_sitemap_entries (locs : list string) (rest : string) :
  forallb (lacks "<") locs = true ->
  count_open_tags "<sitemap" false (String.concat "" (map sitemap_entry locs) ++ rest)
  = Z.of_nat (List.length locs) + count_open_tags "<sitemap" false rest.
Proof.
  induction locs as [|loc locs IH]; intros H.
  - reflexivity.
  - cbn [forallb] in H. apply andb_true_iff in H as [Hl Hr].
    cbn [map]. rewrite concat_empty_cons, (count_sitemap_entry _ _ Hl), (IH Hr).
    cbn [List.length]. lia.
Qed.

(** X7. The two counting expressions also match the root element: a URL
    set that lists [n] URLs is counted as [n + 1] URLs, and a sitemap
    index that lists [n] sitemaps as [n + 1] sitemaps, whatever the
    attributes of the root. *)
Theorem counts_include_root_element (attrs : string) (locs : list string) :
  lacks ">" attrs = true ->
  forallb (lacks "<") locs = true ->
  countUrlsInSitemap (urlset_xml attrs locs) = Z.of_nat (List.length locs) + 1 /\
  countSitemapsInIndex (sitemapindex_xml attrs locs) = Z.of_nat (List.length locs) + 1.
Proof.
  intros Ha Hl. split.
  - unfold countUrlsInSitemap, urlset_xml.
    change (count_open_tags "<url" false
              ("<urlset" ++ attrs ++ ">" ++
               String.concat "" (map url_entry locs) ++ "</urlset>"))
      with (count_open_tags "<url" true
              ("urlset" ++ attrs ++ String ">"
                 (String.concat "" (map url_entry locs) ++ "</urlset>"))).
    change ("urlset" ++ attrs ++ String ">"
              (String.concat "" (map url_entry locs) ++ "</urlset>"))
      with (("urlset" ++ attrs) ++ String ">"
              (String.concat "" (map url_entry locs) ++ "</urlset>")).
    rewrite count_open_tags_attrs, (count_url_entries _ _ Hl).
    + change (count_open_tags "<url" false "</urlset>") with 0. lia.
    + cbn. exact Ha.
  - unfold countSitemapsInIndex, sitemapindex_xml.
    change (count_open_tags "<sitemap" false
              ("<sitemapindex" ++ attrs ++ ">" ++
               String.concat "" (map sitemap_entry locs) ++ "</sitemapindex>"))
      with (count_open_tags "<sitemap" true
              ("sitemapindex" ++ attrs ++ String ">"
                 (String.concat "" (map sitemap_entry locs) ++ "</sitemapindex>"))).
    change ("sitemapindex" ++ attrs ++ String ">"
              (String.concat "" (map sitemap_entry locs) ++ "</sitemapindex>"))
      with (("sitemapindex" ++ attrs) ++ String ">"
              (String.concat "" (map sitemap_entry locs) ++ "</sitemapindex>")).
    rewrite count_open_tags_attrs, (count_sitemap_entries _ _ Hl).
    + change (count_open_tags "<sitemap" false "</sitemapindex>") with 0. lia.
    + cbn. exact Ha.
Qed.

Lemma counts_include_root_element_witness :
  countUrlsInSitemap
    (urlset_xml " xmlns='http://www.sitemaps.org/schemas/sitemap/0.9'"
       ["https://a.com/"; "https://a.com/about"]) = 3 /\
  countSitemapsInIndex
    (sitemapindex_xml "" ["https://a.com/s1.xml"; "https://a.com/s2.xml"]) = 3.
Proof.
  split.
  - apply (counts_include_root_element
             " xmlns='http://www.sitemaps.org/schemas/sitemap/0.9'"
             ["https://a.com/"; "https://a.com/about"]); reflexivity.
  - apply (counts_include_root_element "" ["https://a.com/s1.xml"; "https://a.com/s2.xml"]);
      reflexivity.
Defined.

(** *** Reading the locations back *)

Lemma break_lacks (c : ascii) (a r : string) :
  lacks c a = true ->
  break (is_char c) (a ++ String c r) = (a, String c r).
Proof.
  induction a as [|d a IH]; cbn [lacks append break]; intros H.
  - unfold is_char. now rewrite Ascii.eqb_refl.
  - apply andb_true_iff in H as [Hd Ha]. apply negb_true_iff in Hd.
    unfold is_char at 1. rewrite Ascii.eqb_sym, Hd. now rewrite (IH Ha).
Qed.

(** Characters that belong to the previous match are passed over. *)
Lemma match_all_elements_skip (name a s : string) (k : nat) :
  match_all_elements name (String.length a + k) (a ++ s)
  = match_all_elements name k s.
Proof.
  induction a as [|c a IH]; [reflexivity|].
  cbn [String.length append Nat.add match_all_elements]. exact IH.
Qed.

(** Text without ["<"] holds no match. *)
Lemma match_all_elements_text (name text s : string) :
  lacks "<" text = true ->
  match_all_elements name O (text ++ s) = match_all_elements name O s.
Proof.
  induction text as [|d text IH]; cbn [lacks append]; intros H; [reflexivity|].
  apply andb_true_iff in H as [Hd Ht]. apply negb_true_iff in Hd.
  cbn [match_all_elements].
  assert (E : match_element name (String d (text ++ s)) = None).
  { unfold match_element. cbn [append]. rewrite prefix_ci_cons_neq; [reflexivity|].
    destruct d as [[] [] [] [] [] [] [] []]; try reflexivity; discriminate Hd. }
  rewrite E. exact (IH Ht).
Qed.

(** One [<loc>] element with a non-empty text without ["<"]. *)
Lemma match_loc_element (loc rest : string) :
  JS.truthy loc = true -> lacks "<" loc = true ->
  match_all_elements "loc" O ("<loc>" ++ loc ++ "</loc>" ++ rest)
  = JS.trim loc :: match_all_elements "loc" O rest.
Proof.
  intros Hne Hl.
  assert (E : match_element "loc" ("<loc>" ++ loc ++ "</loc>" ++ rest)
              = Some (loc, (11 + String.length loc)%nat)).
  { unfold match_element.
    change (prefix_ci ("<" ++ "loc") ("<loc>" ++ loc ++ "</loc>" ++ rest)) with true.
    cbv iota.
    change (break (is_char ">")
              (drop (String.length ("<" ++ "loc")) ("<loc>" ++ loc ++ "</loc>" ++ rest)))
      with (EmptyString, String ">" (loc ++ String "<" ("/loc>" ++ rest))).
    cbv iota beta. rewrite (break_lacks "<" loc _ Hl).
    destruct loc as [|c loc']; [discriminate Hne|].
    change (prefix_ci ("</" ++ "loc" ++ ">") (String "<" ("/loc>" ++ rest))) with true.
    cbv iota. do 2 f_equal. cbn [String.length append Nat.add]. lia. }
  change ("<loc>" ++ loc ++ "</loc>" ++ rest)
    with (String "<" ("loc>" ++ loc ++ "</loc>" ++ rest)) in *.
  cbn [match_all_elements]. rewrite E. f_equal.
  replace (Nat.pred (11 + String.length loc))
    with (String.length ("loc>" ++ loc ++ "</loc>") + 0)%nat
    by (rewrite !StringFacts.append_length; cbn [String.length]; lia).
  replace ("loc>" ++ loc ++ "</loc>" ++ rest) with (("loc>" ++ loc ++ "</loc>") ++ rest)
    by (now rewrite !StringFacts.append_assoc).
  apply match_all_elements_skip.
Qed.

Definition plain_loc (loc : string) : bool := JS.truthy loc && lacks "<" loc.

Lemma match_sitemap_entries (locs : list string) (rest : string) :
  forallb plain_loc locs = true ->
  match_all_elements "loc" O (String.concat "" (map sitemap_entry locs) ++ rest)
  = (map JS.trim locs ++ match_all_elements "loc" O rest)%list.
Proof.
  induction locs as [|loc locs IH]; intros H; [reflexivity|].
  cbn [forallb] in H. apply andb_true_iff in H as [Hl Hr].
  apply andb_true_iff in Hl as [Hne Hl].
  cbn [map]. rewrite concat_empty_cons. unfold sitemap_entry at 1.
  rewrite !StringFacts.append_assoc.
  change (match_all_elements "loc" O
            ("<sitemap><loc>" ++ loc ++ "</loc></sitemap>" ++
             String.concat "" (map sitemap_entry locs) ++ rest))
    with (match_all_elements "loc" O
            ("<loc>" ++ loc ++ "</loc>" ++ "</sitemap>" ++
             String.concat "" (map sitemap_entry locs) ++ rest)).
  rewrite (match_loc_element _ _ Hne Hl).
  change (match_all_elements "loc" O
            ("</sitemap>" ++ String.concat "" (map sitemap_entry locs) ++ rest))
    with (match_all_elements "loc" O
            (String.concat "" (map sitemap_entry locs) ++ rest)).
  now rewrite (IH Hr).
Qed.

Lemma match_url_entries (locs : list string) (rest : string) :
  forallb plain_loc locs = true ->
  match_all_elements "loc" O (String.concat "" (map url_entry locs) ++ rest)
  = (map JS.trim locs ++ match_all_elements "loc" O rest)%list.
Proof.
  induction locs as [|loc locs IH]; intros H; [reflexivity|].
  cbn [forallb] in H. apply andb_true_iff in H as [Hl Hr].
  apply andb_true_iff in Hl as [Hne Hl].
  cbn [map]. rewrite concat_empty_cons. unfold url_entry at 1.
  rewrite !StringFacts.append_assoc.
  change (match_all_elements "loc" O
            ("<url><loc>" ++ loc ++ "</loc></url>" ++
             String.concat "" (map url_entry locs) ++ rest))
    with (match_all_elements "loc" O
            ("<loc>" ++ loc ++ "</loc>" ++ "</url>" ++
             String.concat "" (map url_entry locs) ++ rest)).
  rewrite (match_loc_element _ _ Hne Hl).
  change (match_all_elements "loc" O
            ("</url>" ++ String.concat "" (map url_entry locs) ++ rest))
    with (match_all_elements "loc" O
            (String.concat "" (map url_entry locs) ++ rest)).
  now rewrite (IH Hr).
Qed.

(** X8. Reading a generated document back gives the locations it was
    written from, trimmed and in order: this holds for the index and for
    the URL set, when no location is empty or contains ["<"]. *)
Theorem extract_locations_round_trip (attrs : string) (locs : list string) :
  lacks "<" attrs = true ->
  forallb plain_loc locs = true ->
  extractSitemapUrlsFromIndex (sitemapindex_xml attrs locs) = map JS.trim locs /\
  extractUrlsFromSitemap (urlset_xml attrs locs) = map JS.trim locs.
Proof.
  intros Ha Hl. split.
  - unfold extractSitemapUrlsFromIndex, sitemapindex_xml.
    change (match_all_elements "loc" O
              ("<sitemapindex" ++ attrs ++ ">" ++
               String.concat "" (map sitemap_entry locs) ++ "</sitemapindex>"))
      with (match_all_elements "loc" O
              (attrs ++ ">" ++
               String.concat "" (map sitemap_entry locs) ++ "</sitemapindex>")).
    rewrite (match_all_elements_text _ _ _ Ha).
    change (match_all_elements "loc" O
              (">" ++ String.concat "" (map sitemap_entry locs) ++ "</sitemapindex>"))
      with (match_all_elements "loc" O
              (String.concat "" (map sitemap_entry locs) ++ "</sitemapindex>")).
    rewrite (match_sitemap_entries _ _ Hl).
    change (match_all_elements "loc" O "</sitemapindex>") with (@nil string).
    apply app_nil_r.
  - unfold extractUrlsFromSitemap, urlset_xml.
    change (match_all_elements "loc" O
              ("<urlset" ++ attrs ++ ">" ++
               String.concat "" (map url_entry locs) ++ "</urlset>"))
      with (match_all_elements "loc" O
              (attrs ++ ">" ++
               String.concat "" (map url_entry locs) ++ "</urlset>")).
    rewrite (match_all_elements_text _ _ _ Ha).
    change (match_all_elements "loc" O
              (">" ++ String.concat "" (map url_entry locs) ++ "</urlset>"))
      with (match_all_elements "loc" O
              (String.concat "" (map url_entry locs) ++ "</urlset>")).
    rewrite (match_url_entries _ _ Hl).
    change (match_all_elements "loc" O "</urlset>") with (@nil string).
    apply app_nil_r.
Qed.

Lemma extract_locations_round_trip_witness :
  extractSitemapUrlsFromIndex
    (sitemapindex_xml " xmlns='http://www.sitemaps.org/schemas/sitemap/0.9'"
       [" https://a.com/s1.xml "; "https://a.com/s2.xml"])
  = ["https://a.com/s1.xml"; "https://a.com/s2.xml"].
Proof.
  apply (extract_locations_round_trip
           " xmlns='http://www.sitemaps.org/schemas/sitemap/0.9'"
           [" https://a.com/s1.xml "; "https://a.com/s2.xml"]); reflexivity.
Defined.

End SitemapDocs.

(** ** The walk over a two-level sitemap *)

Module SitemapWalkMore.

Import SitemapAnalyzer SitemapProps.

Section WithHttp.

Context {http : HttpClient}.

(** The document at [url] is not read as a sitemap index: the request is
    rejected, or the status is not 200, or the content type is neither
    XML nor text, or the body has no index marker. *)
Definition is_leaf (url : string) : bool :=
  match http_get url with
  | Some response =>
      negb ((status response =? 200) &&
            (let contentType :=
               match content_type response with Some t => t | None => "" end in
             JS.includes contentType "xml" || JS.includes contentType "text") &&
            is_sitemap_index (data response))
  | None => true
  end.

(** What a leaf contributes: the URL count of a URL set served with status
    200 and an XML or text content type, and 0 otherwise. *)
Definition leaf_total (url : string) : Z :=
  match http_get url with
  | Some response =>
      if (status response =? 200) &&
         (let contentType :=
            match content_type response with Some t => t | None => "" end in
          JS.includes contentType "xml" || JS.includes contentType "text") &&
         is_urlset (data response)
      then countUrlsInSitemap (data response)
      else 0
  | None => 0
  end.

Lemma fetch_and_count_leaf recurse url w :
  is_leaf url = true ->
  fetch_and_count recurse url w = (leaf_total url, visit url w).
Proof.
  unfold is_leaf, leaf_total, fetch_and_count.
  destruct (http_get url) as [response|]; [|reflexivity].
  cbv zeta. destruct (status response =? 200); [|reflexivity].
  destruct (_ || _); [|reflexivity].
  cbn [andb negb]. intros H. apply negb_true_iff in H. rewrite H.
  now destruct (is_urlset _).
Qed.

Lemma count_from_S (depth : nat) (url : string) (w : walk) :
  count_from (S depth) url w
  = if has (visitedUrls w) url then (0, w)
    else fetch_and_count (count_from depth) url w.
Proof. reflexivity. Qed.

Definition sum_leaves (urls : list string) : Z :=
  fold_right (fun u total => leaf_total u + total) 0 urls.

Lemma fold_leaves (depth : nat) (urls : list string) :
  forall total w,
    forallb is_leaf urls = true ->
    NoDup urls ->
    (forall u, In u urls -> ~ In u (visitedUrls w)) ->
    fold_left
      (fun (acc : Z * walk) nestedSitemapUrl =>
         let '(totalUrls, w) := acc in
         let '(nestedUrlCount, w) := count_from (S depth) nestedSitemapUrl w in
         (totalUrls + nestedUrlCount, w))
      urls (total, w)
    = (total + sum_leaves urls,
       mkWalk (visitedUrls w ++ urls) (requests w ++ urls)).
Proof.
  induction urls as [|u urls IH]; intros total w Hleaf Hnd Hnew; cbn [fold_left].
  - cbn. rewrite !app_nil_r, Z.add_0_r. now destruct w.
  - cbn [forallb] in Hleaf. apply andb_true_iff in Hleaf as [Hu Hleaf].
    inversion Hnd as [|? ? Hnotin Hnd']; subst.
    assert (Hh : has (visitedUrls w) u = false).
    { destruct (has (visitedUrls w) u) eqn:E; [|reflexivity].
      apply has_In in E. now elim (Hnew u (or_introl eq_refl)). }
    rewrite count_from_S, Hh, (fetch_and_count_leaf _ u w Hu).
    rewrite IH; [| exact Hleaf | exact Hnd' |].
    + cbn [visit visitedUrls requests sum_leaves fold_right].
      rewrite <- !app_assoc. cbn [app]. f_equal. unfold sum_leaves. lia.
    + intros v Hv Hin. cbn [visit visitedUrls] in Hin.
      apply in_app_or in Hin as [Hin|[<-|[]]].
      * exact (Hnew v (or_intror Hv) Hin).
      * contradiction.
Qed.


End WithHttp.

(** An index of two URL sets and a missing document. *)
Definition two_level_site : HttpClient :=
  {| http_get url :=
       if String.eqb url "https://a.com/sitemap.xml" then
         Some (xml (SitemapDocs.sitemapindex_xml ""
                      ["https://a.com/pages.xml"; "https://a.com/gone.xml";
                       "https://a.com/posts.xml"]))
       else if String.eqb url "https://a.com/pages.xml" then
         Some (xml (SitemapDocs.urlset_xml "" ["https://a.com/"; "https://a.com/about"]))
       else if String.eqb url "https://a.com/posts.xml" then
         Some (xml (SitemapDocs.urlset_xml "" ["https://a.com/blog/1"]))
       else None |}.


End SitemapWalkMore.

(** ** Redirects, robots.txt and the domain analysis *)

Module SitemapDomainProps.

Import WebURL SitemapAnalyzer SitemapDomain.

Section WithCollaborators.

Context {platform : Platform} {probe : Probe} {http : HttpClient}.

(** *** followRedirects *)

Lemma follow_log_length (left : nat) :
  forall currentUrl log,
    (List.length (snd (follow left currentUrl log)) <= List.length log + left)%nat.
Proof.
  induction left as [|left IH]; intros currentUrl log; cbn [follow snd].
  - lia.
  - assert (Hlog : List.length (log ++ [currentUrl])%list = S (List.length log))
      by (rewrite length_app; cbn; lia).
    destruct (http_head currentUrl) as [|[[status [location|]]|]]; cbn [snd]; try lia.
    destruct (is_redirect_status status); cbn [snd]; try lia.
    destruct (JS.truthy location); cbn [snd]; try lia.
    destruct (JS.startsWith location "/").
    + destruct (URL_parse currentUrl None); cbn [snd]; try lia.
      etransitivity; [apply IH|lia].
    + destruct (JS.startsWith location "http").
      * etransitivity; [apply IH|lia].
      * destruct (URL_parse currentUrl None); cbn [snd]; try lia.
        etransitivity; [apply IH|lia].
Qed.

Lemma follow_self_redirect (url : string) (status : Z) (left : nat) :
  http_head url = HeadRejected (Some (status, Some url)) ->
  is_redirect_status status = true ->
  JS.startsWith url "http" = true ->
  forall log, follow left url log = (Some url, (log ++ repeat url left)%list).
Proof.
  intros Hhead Hstatus Hhttp.
  assert (Hslash : JS.startsWith url "/" = false).
  { destruct url as [|c r]; [discriminate Hhttp|].
    unfold JS.startsWith in *. cbn [JS.is_prefix] in *.
    apply andb_true_iff in Hhttp as [Hc _]. apply Ascii.eqb_eq in Hc. now subst c. }
  assert (Htruthy : JS.truthy url = true) by (destruct url; [discriminate Hhttp|reflexivity]).
  induction left as [|left IH]; intros log; cbn [follow repeat].
  - now rewrite app_nil_r.
  - rewrite Hhead, Hstatus, Htruthy, Hslash, Hhttp, IH.
    now rewrite <- app_assoc.
Qed.

(** X10. [followRedirects] issues at most [maxRedirects] HEAD requests:
    none when [maxRedirects] is not positive, one when the first answer is
    not a redirect, and exactly [maxRedirects] for a URL that redirects to
    itself, after which that URL is returned. *)
Theorem followRedirects_bounded (url : string) (maxRedirects : Z) :
  (List.length (snd (followRedirects url maxRedirects)) <= Z.to_nat maxRedirects)%nat /\
  (maxRedirects <= 0 -> followRedirects url maxRedirects = (Some url, [])) /\
  (0 < maxRedirects -> http_head url = HeadResolved ->
   followRedirects url maxRedirects = (Some url, [url])) /\
  (forall status,
     http_head url = HeadRejected (Some (status, Some url)) ->
     is_redirect_status status = true ->
     JS.startsWith url "http" = true ->
     followRedirects url maxRedirects = (Some url, repeat url (Z.to_nat maxRedirects))).
Proof.
  unfold followRedirects. split; [|split; [|split]].
  - apply (follow_log_length (Z.to_nat maxRedirects) url []).
  - intros Hle. replace (Z.to_nat maxRedirects) with O by lia. reflexivity.
  - intros Hpos Hhead.
    replace (Z.to_nat maxRedirects) with (S (Z.to_nat (maxRedirects - 1))) by lia.
    cbn [follow]. now rewrite Hhead.
  - intros status Hhead Hstatus Hhttp.
    now rewrite (follow_self_redirect url status _ Hhead Hstatus Hhttp).
Qed.

(** *** analyzeDomainSitemaps *)

(** X11. Whatever the collaborators answer, the result of the domain
    analysis is consistent: without a sitemap every sitemap field keeps
    its initial value; the type is one of the three tags or absent; for a
    URL set the total equals the size; a URL set or an index is reported
    together with an error only when the body came as a JSON array, and
    then nothing was counted or extracted; a body that came as a string
    leaves no error; a sitemap found through robots.txt is reported with
    the error of the direct probe still set, with size 0, and its URL is
    the first of the list. *)
Theorem analyzeDomainSitemaps_consistent (domainUrl : string) :
  let r := analyzeDomainSitemaps domainUrl in
  domain r = domainUrl /\
  (hasSitemap r = false ->
   sitemapType r = None /\ sitemapSize r = 0 /\ sitemapLastModified r = None /\
   sitemapUrls r = [] /\ totalUrls r = 0) /\
  (sitemapType r = None \/ sitemapType r = Some "urlset" \/
   sitemapType r = Some "sitemap_index" \/
   sitemapType r = Some "robots_txt_reference") /\
  (sitemapType r = Some "urlset" ->
   hasSitemap r = true /\ totalUrls r = sitemapSize r /\
   (error r <> None ->
    sitemapSize r = 0 /\ sitemapUrls r = [] /\ sitemapLastModified r = None)) /\
  (sitemapType r = Some "sitemap_index" ->
   hasSitemap r = true /\
   (error r <> None -> sitemapSize r = 0 /\ sitemapUrls r = [] /\ totalUrls r = 0)) /\
  (sitemapType r = Some "robots_txt_reference" ->
   hasSitemap r = true /\ error r <> None /\ sitemapSize r = 0 /\
   sitemapUrl r = hd_error (sitemapUrls r) /\ sitemapUrls r <> []) /\
  (forall final response content,
     fst (followRedirects (domainUrl ++ "/sitemap.xml") 5) = Some final ->
     http_get final = Some response ->
     content_of (data response) = JString content ->
     error r = None /\ sitemapUrl r = Some final /\
     sitemapType r <> Some "robots_txt_reference") /\
  (error r <> None ->
   sitemapType r <> Some "robots_txt_reference" ->
   sitemapSize r = 0 /\ sitemapUrls r = [] /\ totalUrls r = 0 /\
   sitemapLastModified r = None).
Proof.
  cbv zeta. unfold analyzeDomainSitemaps.
  destruct (fst (followRedirects (domainUrl ++ "/sitemap.xml") 5)) as [final|].
  - destruct (http_get final) as [response|] eqn:Hget.
    + unfold read_sitemap, set_hasSitemap, set_sitemapType;
        cbn [domain sitemapUrl hasSitemap sitemapType sitemapSize
             sitemapLastModified sitemapUrls totalUrls error].
      destruct (status response =? 200);
        [destruct (xml_or_text response);
         [destruct (content_of (data response)) as [|b|printed|content|elements|] eqn:Hcontent;
          [| | |destruct (is_sitemap_index content); [|destruct (is_urlset content)]
           |destruct (array_includes elements "<sitemapindex"
                      || array_includes elements "<sitemap:"
                      || array_includes elements "sitemapindex");
            [|destruct (array_includes elements "<urlset"
                        || array_includes elements "<url:"
                        || array_includes elements "urlset")]|]|]|];
        unfold robots_fallback;
        cbn [domain sitemapUrl hasSitemap sitemapType sitemapSize
             sitemapLastModified sitemapUrls totalUrls error];
        try (destruct (http_get (domainUrl ++ "/robots.txt")) as [robots|];
             [destruct (status robots =? 200);
              [destruct (extractSitemapsFromRobots _)|]|]);
        cbn [domain sitemapUrl hasSitemap sitemapType sitemapSize
             sitemapLastModified sitemapUrls totalUrls error hd_error];
        repeat split; auto; intros;
        repeat match goal with
               | H : Some _ = Some _ |- _ => injection H as H; subst
               end;
        try discriminate; try congruence.
    + unfold robots_fallback; cbn [domain sitemapUrl hasSitemap sitemapType sitemapSize
        sitemapLastModified sitemapUrls totalUrls error].
      destruct (http_get (domainUrl ++ "/robots.txt")) as [robots|];
        [destruct (status robots =? 200);
         [destruct (extractSitemapsFromRobots _)|]|];
        cbn; repeat split; auto; intros; try discriminate; try congruence.
  - unfold robots_fallback; cbn [domain sitemapUrl hasSitemap sitemapType sitemapSize
      sitemapLastModified sitemapUrls totalUrls error].
    destruct (http_get (domainUrl ++ "/robots.txt")) as [robots|];
      [destruct (status robots =? 200);
       [destruct (extractSitemapsFromRobots _)|]|];
      cbn; repeat split; auto; intros; try discriminate; try congruence.
Qed.

(** *** extractSitemapsFromRobots *)

(** The base handed to [new URL('/', base)] for a value that does not
    start with "http". *)
Definition relative_base (captured : string) : string :=
  let sitemapUrl := JS.trim captured in
  if JS.startsWith sitemapUrl "/" then sitemapUrl else "/" ++ sitemapUrl.

(** The platform rejects every base the file builds for its relative
    entries (a base has to be an absolute URL, and these start with "/"). *)
Definition relative_bases_rejected (robotsContent : string) : bool :=
  forallb
    (fun captured =>
       JS.startsWith (JS.trim captured) "http" ||
       match URL_parse "/" (Some (relative_base captured)) with
       | None => true
       | Some _ => false
       end)
    (robots_values true O robotsContent).

Lemma robots_entries (values : list string) :
  forallb
    (fun captured =>
       JS.startsWith (JS.trim captured) "http" ||
       match URL_parse "/" (Some (relative_base captured)) with
       | None => true
       | Some _ => false
       end) values = true ->
  flat_map robots_entry values
  = filter (fun u => JS.startsWith u "http") (map JS.trim values).
Proof.
  induction values as [|v values IH]; intros H; [reflexivity|].
  cbn [forallb] in H. apply andb_true_iff in H as [Hv Hr].
  cbn [flat_map map filter]. rewrite (IH Hr).
  unfold robots_entry. fold (relative_base v). cbv zeta.
  destruct (JS.startsWith (JS.trim v) "http"); cbn [negb orb] in *; [reflexivity|].
  now destruct (URL_parse "/" (Some (relative_base v))).
Qed.

(** X12. From robots.txt only the absolute entries come back: the result
    is the list of the trimmed values of the [Sitemap:] lines that start
    with "http", in order.  A relative entry is dropped, because the base
    built for it starts with "/" and the platform rejects such a base. *)
Theorem extractSitemapsFromRobots_absolute_only (robotsContent : string) :
  relative_bases_rejected robotsContent = true ->
  extractSitemapsFromRobots robotsContent
  = filter (fun u => JS.startsWith u "http")
           (map JS.trim (robots_values true O robotsContent)) /\
  Forall (fun u => JS.startsWith u "http" = true)
         (extractSitemapsFromRobots robotsContent).
Proof.
  intros H. unfold extractSitemapsFromRobots.
  rewrite (robots_entries _ H). split; [reflexivity|].
  apply Forall_forall. intros u Hu. now apply filter_In in Hu.
Qed.

End WithCollaborators.

(** *** Concrete collaborators *)

Definition line_feed : string := String (ascii_of_nat 10) "".

Definition robots_txt : string :=
  "User-agent: *" ++ line_feed ++
  "Sitemap: https://a.com/pages.xml  " ++ line_feed ++
  "sitemap:/relative.xml" ++ line_feed ++
  "SITEMAP:https://a.com/posts.xml".

Lemma extractSitemapsFromRobots_absolute_only_witness :
  robots_values true O robots_txt
    = ["https://a.com/pages.xml  "; "/relative.xml"; "https://a.com/posts.xml"] /\
  @extractSitemapsFromRobots simple robots_txt
    = ["https://a.com/pages.xml"; "https://a.com/posts.xml"].
Proof.
  split; [reflexivity|].
  destruct (@extractSitemapsFromRobots_absolute_only simple robots_txt eq_refl)
    as [-> _].
  reflexivity.
Defined.

Definition double_quote : string := String (ascii_of_nat 34) "".

(** The JSON text of the array with the one element "urlset". *)
Definition json_body : string := "[" ++ double_quote ++ "urlset" ++ double_quote ++ "]".

(** A site whose sitemap.xml redirects to itself and whose robots.txt
    names two sitemaps.  Of the bodies served below, [json_body] is the
    one that is valid JSON. *)
Definition looping_probe : Probe :=
  {| http_head url :=
       if String.eqb url "https://a.com/sitemap.xml"
       then HeadRejected (Some (301, Some "https://a.com/sitemap.xml"))
       else HeadResolved;
     JSON_parse body :=
       if String.eqb body json_body then Some (JArray [JString "urlset"]) else None;
     get_error_message url := "Request failed with status code 404";
     url_error_message := "Invalid URL";
     type_error_message value name :=
       match value with
       | JNull => "Cannot read properties of null (reading '" ++ name ++ "')"
       | _ =>
           (if String.eqb name "match" then "xmlContent." else "content.")
           ++ name ++ " is not a function"
       end |}.

(** A site that serves a JSON array as its sitemap.xml, as text. *)
Definition json_site : HttpClient :=
  {| http_get url :=
       if String.eqb url "https://j.com/sitemap.xml" then
         Some (mkResponse 200 (Some "text/plain") json_body)
       else None |}.

(** The array includes "urlset": the type is set, then counting throws,
    and robots.txt is tried. *)
Example analyzeDomainSitemaps_json_array :
  let r := @analyzeDomainSitemaps simple looping_probe json_site "https://j.com" in
  hasSitemap r = true /\ sitemapType r = Some "urlset" /\
  sitemapSize r = 0 /\ sitemapUrls r = [] /\ totalUrls r = 0 /\
  error r = Some ("xmlContent.match is not a function; robots.txt: "
                  ++ "Request failed with status code 404").
Proof. cbv zeta. repeat split; reflexivity. Qed.

Definition robots_only_site : HttpClient :=
  {| http_get url :=
       if String.eqb url "https://a.com/robots.txt" then
         Some (mkResponse 200 (Some "text/plain") robots_txt)
       else if String.eqb url "https://a.com/sitemap.xml" then None
       else http_get (HttpClient := SitemapWalkMore.two_level_site) url |}.

Lemma analyzeDomainSitemaps_consistent_witness :
  let r := @analyzeDomainSitemaps simple looping_probe robots_only_site "https://a.com" in
  sitemapType r = Some "robots_txt_reference" /\
  sitemapUrls r = ["https://a.com/pages.xml"; "https://a.com/posts.xml"] /\
  totalUrls r = 5 /\
  (hasSitemap r = true /\ error r <> None /\ sitemapSize r = 0 /\
   sitemapUrl r = hd_error (sitemapUrls r) /\ sitemapUrls r <> []).
Proof.
  cbv zeta. split; [reflexivity|]. split; [reflexivity|]. split; [reflexivity|].
  destruct (@analyzeDomainSitemaps_consistent simple looping_probe robots_only_site
              "https://a.com") as (_ & _ & _ & _ & _ & H).
  apply H. reflexivity.
Defined.

Lemma followRedirects_bounded_witness :
  @followRedirects simple looping_probe "https://a.com/sitemap.xml" 5
  = (Some "https://a.com/sitemap.xml", repeat "https://a.com/sitemap.xml" 5).
Proof.
  destruct (@followRedirects_bounded simple looping_probe
              "https://a.com/sitemap.xml" 5) as (_ & _ & _ & H).
  exact (H 301 eq_refl eq_refl eq_refl).
Defined.

End SitemapDomainProps.

(** ** The links collected and their liveness *)

Module LinkStatusProps.

Import WebURL SEOAnalyzer.

(** A link record as the callback of [links.each] builds it: not probed
    yet. *)
Definition unchecked (d : linkData) : Prop :=
  statusCode d = None /\ isBroken d = false.

(** The two counters are the lengths of the two arrays, and every record
    collected is unprobed. *)
Definition consistent (l : locals) : Prop :=
  internalLinksCount l = Z.of_nat (List.length (internalLinks l)) /\
  externalLinksCount l = Z.of_nat (List.length (externalLinks l)) /\
  Forall unchecked (internalLinks l) /\
  Forall unchecked (externalLinks l).

Lemma add_anchor_text_consistent (t : string) (l : locals) :
  consistent l -> consistent (add_anchor_text t l).
Proof.
  unfold add_anchor_text. now destruct (JS.truthy t).
Qed.

Lemma add_internal_consistent (d : linkData) (l : locals) :
  unchecked d -> consistent l -> consistent (add_internal d l).
Proof.
  intros Hd (Hi & He & Fi & Fe). unfold consistent, add_internal.
  cbn [internalLinksCount externalLinksCount internalLinks externalLinks].
  rewrite length_app, Forall_app. cbn [List.length].
  repeat split; auto; lia.
Qed.

Lemma add_external_consistent (d : linkData) (l : locals) :
  unchecked d -> consistent l -> consistent (add_external d l).
Proof.
  intros Hd (Hi & He & Fi & Fe). unfold consistent, add_external.
  cbn [internalLinksCount externalLinksCount internalLinks externalLinks].
  rewrite length_app, Forall_app. cbn [List.length].
  repeat split; auto; lia.
Qed.

Section WithPlatform.

Context {platform : Platform}.

Lemma each_link_consistent (baseUrl : string) (l : locals) (link : anchor) :
  consistent l -> consistent (each_link baseUrl l link).
Proof.
  intros H. unfold each_link.
  pose proof (add_anchor_text_consistent (JS.trim (text link)) l H) as H1.
  destruct (JS.truthy (attr_href link)); [|exact H1].
  destruct (URL_parse (attr_href link) (Some baseUrl)) as [url|]; [|exact H1].
  destruct (URL_parse baseUrl None) as [baseUrlObj|]; [|exact H1].
  destruct (isHashOnlyLink _ _ _ _); [exact H1|].
  destruct (String.eqb _ _).
  - apply add_internal_consistent; [now split|exact H1].
  - destruct (isSocialMedia _); cbn [negb]; [exact H1|].
    apply add_external_consistent; [now split|exact H1].
Qed.

Lemma fold_each_link_consistent (baseUrl : string) (links : list anchor) :
  forall l, consistent l -> consistent (fold_left (each_link baseUrl) links l).
Proof.
  induction links as [|a links IH]; intros l H; cbn [fold_left]; [exact H|].
  apply IH, each_link_consistent, H.
Qed.

Lemma count_class_both (baseUrl : string) (links : list anchor) :
  LinkProps.count_class baseUrl Internal links
  + LinkProps.count_class baseUrl External links
  <= Z.of_nat (List.length links).
Proof.
  unfold LinkProps.count_class.
  induction links as [|a links IH]; cbn [filter List.length]; [lia|].
  destruct (classify baseUrl (attr_href a)); cbn [List.length]; lia.
Qed.

(** The result of [analyzeLinks], read off the locals after the loop. *)
Lemma analyzeLinks_consistent (links : list anchor) (baseUrl : string) :
  let a := analyzeLinks links baseUrl in
  la_internalLinksCount a = Z.of_nat (List.length (la_internalLinks a)) /\
  la_externalLinksCount a = Z.of_nat (List.length (la_externalLinks a)) /\
  Forall unchecked (la_internalLinks a) /\
  Forall unchecked (la_externalLinks a).
Proof.
  cbv zeta.
  assert (H0 : consistent (mkLocals 0 0 0 [] [])).
  { repeat split; constructor. }
  exact (fold_each_link_consistent baseUrl links _ H0).
Qed.

(** X13. The two counters [analyzeLinks] returns are the lengths of the
    two arrays it returns, every record in them is built unprobed (no
    status code, not broken), and the two arrays together hold at most
    one record per anchor. *)
Theorem analyzeLinks_counters_match_arrays (links : list anchor) (baseUrl : string) :
  let a := analyzeLinks links baseUrl in
  la_internalLinksCount a = Z.of_nat (List.length (la_internalLinks a)) /\
  la_externalLinksCount a = Z.of_nat (List.length (la_externalLinks a)) /\
  Forall unchecked (la_internalLinks a ++ la_externalLinks a) /\
  (List.length (la_internalLinks a) + List.length (la_externalLinks a)
   <= List.length links)%nat.
Proof.
  cbv zeta.
  pose proof (analyzeLinks_consistent links baseUrl) as H. cbv zeta in H.
  destruct H as (Hi & He & Fi & Fe).
  pose proof (LinkProps.analyzeLinks_counts links baseUrl) as [Ci Ce].
  pose proof (count_class_both baseUrl links) as Hb.
  repeat split; auto.
  - apply Forall_app; now split.
  - lia.
Qed.

End WithPlatform.

Import LinkStatus.

(** What [validateStatus] leaves possible: a resolved request carries an
    HTTP status below 500, a rejection with a response a status of 500 or
    more. *)
Definition respects_validateStatus (o : head_outcome) : bool :=
  match o with
  | Resolved status => (100 <=? status) && (status <? 500)
  | Rejected (Some status) => 500 <=? status
  | Rejected None => true
  end.

(** The links that are settled without a request. *)
Definition settled_locally (u : string) : bool :=
  JS.startsWith u "mailto:" || JS.startsWith u "tel:"
  || JS.startsWith u "sms:" || JS.startsWith u "whatsapp:".

Section WithProbe.

Context {probe : LinkProbe}.

Lemma check_link_frame (link : linkData) :
  url (check_link link) = url link /\
  anchorText (check_link link) = anchorText link /\
  target (check_link link) = target link.
Proof.
  unfold check_link.
  destruct (JS.startsWith (url link) "mailto:").
  - destruct (_ && _); repeat split.
  - destruct (_ || _); [repeat split|].
    destruct (head_link (url link)); repeat split.
Qed.

(** X14. After the probe every link has a status code, and it is marked
    broken exactly when that code is 0 (no response) or at least 400;
    the probe changes nothing else of the record. *)
Theorem check_link_broken_iff (link : linkData) :
  respects_validateStatus (head_link (url link)) = true ->
  exists code,
    statusCode (check_link link) = Some code /\
    (isBroken (check_link link) = true <-> code = 0 \/ 400 <= code) /\
    url (check_link link) = url link /\
    anchorText (check_link link) = anchorText link /\
    target (check_link link) = target link.
Proof.
  intros Hv. pose proof (check_link_frame link) as (Hu & Ha & Ht).
  rewrite Hu, Ha, Ht. unfold check_link.
  destruct (JS.startsWith (url link) "mailto:").
  - destruct (_ && _); cbn [set_status statusCode isBroken]; eexists;
      (split; [reflexivity|]); (split; [|auto]); split; intros H;
      try discriminate; try lia; auto.
  - destruct (_ || _).
    + cbn [set_status statusCode isBroken]; eexists;
        (split; [reflexivity|]); (split; [|auto]); split; intros H;
        try discriminate; lia.
    + destruct (head_link (url link)) as [status|[status|]];
        cbn [respects_validateStatus] in Hv;
        cbn [set_status statusCode isBroken JS.or_num]; eexists;
        (split; [reflexivity|]); (split; [|auto]).
      * rewrite Z.geb_le. lia.
      * split; [intros _|reflexivity].
        unfold JS.or_num. destruct (status =? 0) eqn:E; lia.
      * split; [intros _; left|]; reflexivity.
Qed.

End WithProbe.

(** A probe that answers 404 for every URL. *)
Definition all_missing : LinkProbe := {| head_link := fun _ => Resolved 404 |}.

Lemma check_link_broken_iff_witness :
  respects_validateStatus
    (@head_link all_missing "https://samehost.com/gone") = true /\
  statusCode (@check_link all_missing
                (mkLinkData "https://samehost.com/gone" "Gone" None None false))
    = Some 404.
Proof.
  split; [reflexivity|].
  destruct (@check_link_broken_iff all_missing
              (mkLinkData "https://samehost.com/gone" "Gone" None None false)
              eq_refl) as (code & H & _).
  rewrite H. f_equal.
  vm_compute in H. congruence.
Defined.

Section WithProbeAndPlatform.

Context {probe : LinkProbe} {platform : Platform}.

Lemma count_broken_le (links : list linkData) :
  0 <= count_broken (checkLinkStatuses links) <= Z.of_nat (List.length links).
Proof.
  unfold count_broken, checkLinkStatuses.
  pose proof (filter_length_le isBroken (map check_link links)) as H.
  rewrite length_map in H. lia.
Qed.

(** X15. The broken-link figures of [analyzeLinks]: the broken internal
    and external links are at most the internal and external links
    counted, and the percentage is a whole number from 0 to 100: it is 0
    when no link was collected and when no link is broken, 100 when
    every link is broken, and never more than 1 away from a hundred
    times the broken share. *)
Theorem brokenLinksPercentage_range (links : list anchor) (baseUrl : string) :
  let r := analyzeLinksChecked links baseUrl in
  let n := LinkStatus.internalLinksCount r + LinkStatus.externalLinksCount r in
  0 <= brokenInternalLinks r <= LinkStatus.internalLinksCount r /\
  0 <= brokenExternalLinks r <= LinkStatus.externalLinksCount r /\
  totalBrokenLinks r = brokenInternalLinks r + brokenExternalLinks r /\
  exists p,
    brokenLinksPercentage r = JS.of_Z p /\ 0 <= p <= 100 /\
    (n = 0 -> p = 0) /\
    (totalBrokenLinks r = 0 -> p = 0) /\
    (0 < n -> totalBrokenLinks r = n -> p = 100) /\
    (0 < n -> (p - 1) * n <= 100 * totalBrokenLinks r <= (p + 1) * n).
Proof.
  cbv zeta.
  pose proof (analyzeLinks_consistent links baseUrl) as H.
  cbv zeta in H. destruct H as (Hi & He & _ & _).
  unfold analyzeLinksChecked.
  cbn [LinkStatus.internalLinksCount LinkStatus.externalLinksCount
       brokenInternalLinks brokenExternalLinks totalBrokenLinks
       brokenLinksPercentage].
  set (a := analyzeLinks links baseUrl) in *.
  pose proof (count_broken_le (la_internalLinks a)) as Bi.
  pose proof (count_broken_le (la_externalLinks a)) as Be.
  rewrite <- Hi in Bi. rewrite <- He in Be.
  set (bi := count_broken (checkLinkStatuses (la_internalLinks a))) in *.
  set (be := count_broken (checkLinkStatuses (la_externalLinks a))) in *.
  set (n := la_internalLinksCount a + la_externalLinksCount a).
  split; [exact Bi|]. split; [exact Be|]. split; [reflexivity|].
  destruct (Z.gtb_spec n 0) as [Hn|Hn].
  - pose proof (Percentages.percentage_value (bi + be) n ltac:(lia)) as Hp.
    unfold Main.percentage in Hp. rewrite Hp.
    pose proof (Percentages.rounded_percentage_range (bi + be) n
                  ltac:(unfold n; lia) ltac:(lia)) as (Hr & H0 & H100).
    cbv zeta in Hr, H0, H100.
    eexists. split; [reflexivity|]. split; [exact Hr|].
    split; [lia|].
    split; [intros Hz; apply H0; lia|].
    split; [intros _ Hall; apply H100; lia|].
    intros _.
    pose proof (LinkProps.nearest_div (100 * (bi + be)) n ltac:(lia)) as Hnear.
    cbv zeta in Hnear.
    replace (2 * (100 * (bi + be)) + n) with (200 * (bi + be) + n) in Hnear by lia.
    nia.
  - exists 0. split; [reflexivity|]. split; [lia|].
    split; [reflexivity|]. split; [reflexivity|]. split; lia.
Qed.

End WithProbeAndPlatform.

End LinkStatusProps.

(** ** The domain aggregator on a crawl with pages *)

Module DomainProps.

Import WebURL Main.

(** A whole number of percent. *)
Definition is_percent (x : JS.number) : Prop :=
  exists p, x = JS.of_Z p /\ 0 <= p <= 100.

Lemma percentage_is_percent (k n : Z) :
  0 <= k <= n -> 0 < n -> is_percent (percentage k n).
Proof.
  intros Hk Hn. rewrite (Percentages.percentage_value k n Hn).
  eexists. split; [reflexivity|].
  apply (Percentages.rounded_percentage_range k n Hk Hn).
Qed.

(** [results.filter(r => r.statusCode).map(r => r.statusCode)] *)
Definition statusCodes (results : list pageResult) : list Z :=
  flat_map (fun r => if JS.truthy_num (statusCode r)
                     then match statusCode r with Some c => [c] | None => [] end
                     else [])
           results.

Lemma statusCodes_length (results : list pageResult) :
  (List.length (statusCodes results) <= List.length results)%nat.
Proof.
  unfold statusCodes.
  induction results as [|r results IH]; cbn [flat_map List.length]; [lia|].
  rewrite length_app.
  destruct (JS.truthy_num (statusCode r)); [|cbn [List.length]; lia].
  destruct (statusCode r); cbn [List.length]; lia.
Qed.

Lemma count_status_le (p : Z -> bool) (results : list pageResult) :
  0 <= count p (statusCodes results) <= Z.of_nat (List.length results).
Proof.
  pose proof (Percentages.count_le p (statusCodes results)).
  pose proof (statusCodes_length results). lia.
Qed.

(** The three status classes do not overlap. *)
Lemma status_classes_disjoint (codes : list Z) :
  count (fun code => (code >=? 200) && (code <? 300)) codes
  + count (fun code => (code >=? 300) && (code <? 400)) codes
  + count (fun code => code >=? 400) codes
  <= Z.of_nat (List.length codes).
Proof.
  unfold count.
  induction codes as [|c codes IH]; cbn [filter List.length]; [lia|].
  destruct (Z.geb_spec c 200), (Z.ltb_spec c 300), (Z.geb_spec c 300),
           (Z.ltb_spec c 400), (Z.geb_spec c 400);
    cbn [andb List.length]; lia.
Qed.

Section WithPlatform.

Context {platform : Platform}.

(** X16. When at least one page result is passed and the first URL
    parses, every percentage of the domain analysis is a whole number
    from 0 to 100, all over the number of results passed, and the pages
    with a successful, a redirect and an error status are together at
    most the pages analysed. *)
Theorem calculateDomainAnalysis_percentages
  (results : list pageResult) (r : domainAnalysis) :
  results <> [] ->
  calculateDomainAnalysis results = Some r ->
  total_pages_analyzed r = Z.of_nat (List.length results) /\
  is_percent (pages_with_h1_percentage r) /\
  is_percent (pages_with_meta_description_percentage r) /\
  is_percent (pages_with_errors_percentage r) /\
  is_percent (pages_with_successful_status_percentage r) /\
  is_percent (pages_with_redirect_status_percentage r) /\
  is_percent (pages_with_error_status_percentage r) /\
  is_percent (pages_with_opengraph_percentage r) /\
  is_percent (pages_with_opengraph_title_percentage r) /\
  is_percent (pages_with_opengraph_description_percentage r) /\
  is_percent (pages_with_opengraph_image_percentage r) /\
  pages_with_successful_status r + pages_with_redirect_status r
    + pages_with_error_status r <= total_pages_analyzed r.
Proof.
  intros Hne H.
  assert (Hn : 0 < Z.of_nat (List.length results)).
  { destruct results; [congruence|cbn [List.length]; lia]. }
  unfold calculateDomainAnalysis in H. cbv zeta in H.
  fold (statusCodes results) in H.
  destruct (if JS.truthy _ then _ else _) as [domain|]; [|discriminate].
  injection H as <-.
  cbn [total_pages_analyzed pages_with_h1_percentage
       pages_with_meta_description_percentage pages_with_errors_percentage
       pages_with_successful_status_percentage
       pages_with_redirect_status_percentage pages_with_error_status_percentage
       pages_with_opengraph_percentage pages_with_opengraph_title_percentage
       pages_with_opengraph_description_percentage
       pages_with_opengraph_image_percentage
       pages_with_successful_status pages_with_redirect_status
       pages_with_error_status].
  split; [reflexivity|].
  repeat (split;
          [apply percentage_is_percent;
           [first [apply Percentages.count_le|apply count_status_le]|exact Hn]|]).
  pose proof (status_classes_disjoint (statusCodes results)).
  pose proof (statusCodes_length results). lia.
Qed.

End WithPlatform.

(** Two pages of one site, the second one failed with a 404. *)
Definition two_pages : list pageResult :=
  [ mkPageResult "https://a.com/" (Some 58) (Some 1) (Some 0) "" (Some 200)
                 false None (Some 5) (Some 100) (Some 3);
    mkPageResult "https://a.com/gone" None None None "Request failed"
                 (Some 404) false None None None None ].

Lemma calculateDomainAnalysis_percentages_witness :
  exists r,
    @calculateDomainAnalysis simple two_pages = Some r /\
    total_pages_analyzed r = 2 /\
    pages_with_h1_percentage r = JS.of_Z 50 /\
    is_percent (pages_with_errors_percentage r).
Proof.
  eexists. split; [reflexivity|].
  split; [reflexivity|]. split; [reflexivity|].
  apply (@calculateDomainAnalysis_percentages simple two_pages _
           ltac:(discriminate) eq_refl).
Defined.

(** A result pushed after a failed request: it has no score. *)
Definition without_score (r : pageResult) : bool :=
  match seo_page_score r with Some _ => false | None => true end.

Lemma filter_without_score (failed : list pageResult) :
  forallb without_score failed = true ->
  filter (fun r => match seo_page_score r with Some _ => true | None => false end)
         failed = [].
Proof.
  induction failed as [|r failed IH]; cbn [forallb filter]; [reflexivity|].
  unfold without_score at 1. destruct (seo_page_score r); cbn [andb];
    [discriminate|exact IH].
Qed.

Section WithPlatform.

Context {platform : Platform}.

(** X17. Results without a score (failed requests) that follow the first
    result change neither the average score nor the grade nor the name
    of the domain, but each of them counts as a page analysed, the
    number every percentage and every other average is taken over. *)
Theorem failed_pages_leave_average_score
  (results failed : list pageResult) :
  results <> [] ->
  forallb without_score failed = true ->
  match calculateDomainAnalysis results,
        calculateDomainAnalysis (results ++ failed) with
  | Some r, Some r' =>
      average_seo_score r' = average_seo_score r /\
      seo_score r' = seo_score r /\
      overall_grade r' = overall_grade r /\
      seo_grade r' = seo_grade r /\
      domain_name r' = domain_name r /\
      total_pages_analyzed r'
        = total_pages_analyzed r + Z.of_nat (List.length failed) /\
      pages_with_h1 r' >= pages_with_h1 r
  | None, None => True
  | _, _ => False
  end.
Proof.
  intros Hne Hf.
  unfold calculateDomainAnalysis. cbv zeta.
  rewrite filter_app, (filter_without_score failed Hf), app_nil_r.
  destruct results as [|r0 results]; [congruence|].
  cbn [app].
  destruct (if JS.truthy (url r0) then _ else _) as [domain|]; [|exact I].
  cbn [average_seo_score seo_score overall_grade seo_grade domain_name
       total_pages_analyzed pages_with_h1].
  repeat split.
  - change (r0 :: results ++ failed)%list with ((r0 :: results) ++ failed)%list.
    rewrite length_app. lia.
  - change (r0 :: results ++ failed)%list with ((r0 :: results) ++ failed)%list.
    unfold count. rewrite filter_app, length_app. lia.
Qed.

End WithPlatform.

Lemma failed_pages_leave_average_score_witness :
  option_map overall_grade (@calculateDomainAnalysis simple (firstn 1 two_pages))
    = Some "F" /\
  option_map overall_grade (@calculateDomainAnalysis simple two_pages) = Some "F".
Proof.
  split; [reflexivity|].
  pose proof (@failed_pages_leave_average_score simple
                (firstn 1 two_pages) (skipn 1 two_pages)
                ltac:(discriminate) eq_refl) as H.
  change (firstn 1 two_pages ++ skipn 1 two_pages)%list with two_pages in H.
  destruct (@calculateDomainAnalysis simple (firstn 1 two_pages)) as [r|] eqn:E;
    [|discriminate E].
  destruct (@calculateDomainAnalysis simple two_pages) as [r'|]; [|destruct H].
  destruct H as (_ & _ & H & _). cbn [option_map]. rewrite H.
  injection E as <-. reflexivity.
Defined.

End DomainProps.

(** ** The crawl loop *)

Module CrawlProps.

Import WebURL Crawl.

Definition is_page (r : result) : bool :=
  match r with PageResult _ _ => true | ErrorResult _ _ _ => false end.

(** The page results and the error results among [results]. *)
Definition pages (rs : list result) : Z :=
  Z.of_nat (List.length (filter is_page rs)).

Definition errors (rs : list result) : Z :=
  Z.of_nat (List.length (filter (fun r => negb (is_page r)) rs)).

Lemma pages_app (rs rs' : list result) : pages (rs ++ rs') = pages rs + pages rs'.
Proof. unfold pages. rewrite filter_app, length_app. lia. Qed.

Lemma errors_app (rs rs' : list result) : errors (rs ++ rs') = errors rs + errors rs'.
Proof. unfold errors. rewrite filter_app, length_app. lia. Qed.

Lemma has_false (urls : list string) (u : string) :
  has urls u = false -> ~ In u urls.
Proof.
  unfold has. intros H Hin.
  assert (existsb (String.eqb u) urls = true); [|congruence].
  apply existsb_exists. exists u. split; [exact Hin|apply String.eqb_refl].
Qed.

Lemma NoDup_snoc {A} (xs : list A) (x : A) :
  NoDup xs -> ~ In x xs -> NoDup (xs ++ [x]).
Proof.
  induction 1 as [|y ys Hy Hnd IH]; intros Hx; cbn [app].
  - constructor; [intros []|constructor].
  - constructor.
    + rewrite in_app_iff. intros [H|[H|[]]]; [now apply Hy|].
      apply Hx. left. symmetry. exact H.
    + apply IH. intros H. apply Hx. right. exact H.
Qed.

Section Loop.

Context {platform : Platform} {site : Site}.

Variable maxRequestsPerCrawl : Z.
Variable crawlUrls : bool.

Local Abbreviation step := (step maxRequestsPerCrawl crawlUrls).
Local Abbreviation run := (run maxRequestsPerCrawl crawlUrls).

(** Splits a turn of the loop into the branches of its body. *)
Ltac step_branches H Hguard Hvisited :=
  unfold Crawl.step in H;
  match type of H with
  | (if ?g then _ else _) = _ => destruct g eqn:Hguard; [|discriminate H]
  end;
  match type of H with
  | match urlsToProcess ?st with _ => _ end = _ =>
      destruct (urlsToProcess st) as [|currentUrl rest] eqn:Hqueue; [discriminate H|]
  end;
  match type of H with
  | (if ?v then _ else _) = _ => destruct v eqn:Hvisited
  end;
  [|match type of H with
    | match visit_page ?u with _ => _ end = _ =>
        destruct (visit_page u) as [statusCode internalLinks|e] eqn:Hvisit
    end;
    [cbv zeta in H;
     match type of H with
     | (if ?c then _ else _) = _ => destruct c eqn:Hcrawl
     end;
     [match type of H with
      | match ?p with _ => _ end = _ => destruct p as [base|] eqn:Hbase
      end|]|]];
  injection H as <-;
  apply andb_prop in Hguard; destruct Hguard as [_ Hguard];
  apply Z.ltb_lt in Hguard.

Tactic Notation "step_cases" hyp(H) "as" ident(Hguard) ident(Hvisited) :=
  step_branches H Hguard Hvisited.

(** A turn either counts a page, below the budget, or shortens the
    queue. *)
Lemma step_measure (st st' : state) :
  step st = Some st' ->
  (processedCount st' = processedCount st + 1 /\
   processedCount st < maxRequestsPerCrawl) \/
  (processedCount st' = processedCount st /\
   (List.length (urlsToProcess st') < List.length (urlsToProcess st))%nat).
Proof.
  intros H. step_cases H as Hguard Hvisited; cbn [processedCount urlsToProcess List.length];
    first [left; split; [reflexivity|exact Hguard]|right; split; [reflexivity|lia]].
Qed.

Lemma run_step (fuel : nat) (st st' : state) :
  step st = Some st' -> run (S fuel) st = run fuel st'.
Proof.
  intros H. cbn [Crawl.run]. rewrite H. reflexivity.
Qed.

Lemma run_terminates (budget : nat) :
  forall (n : nat) (st : state),
    (Z.to_nat (maxRequestsPerCrawl - processedCount st) <= budget)%nat ->
    (List.length (urlsToProcess st) <= n)%nat ->
    exists fuel st', run fuel st = Some st' /\ step st' = None.
Proof.
  induction budget as [|budget IHb]; induction n as [|n IHn]; intros st Hb Hn;
    destruct (step st) as [st1|] eqn:E;
    try (exists 0%nat, st; split; [cbn [Crawl.run]; now rewrite E|exact E]);
    destruct (step_measure _ _ E) as [[Hp Hlt]|[Hp Hlen]]; try lia.
  - destruct (IHn st1 ltac:(lia) ltac:(lia)) as (fuel & st' & Hrun & Hend).
    exists (S fuel), st'. split; [now rewrite (run_step _ _ _ E)|exact Hend].
  - destruct (IHb (List.length (urlsToProcess st1)) st1 ltac:(lia) ltac:(lia))
      as (fuel & st' & Hrun & Hend).
    exists (S fuel), st'. split; [now rewrite (run_step _ _ _ E)|exact Hend].
  - destruct (IHb (List.length (urlsToProcess st1)) st1 ltac:(lia) ltac:(lia))
      as (fuel & st' & Hrun & Hend).
    exists (S fuel), st'. split; [now rewrite (run_step _ _ _ E)|exact Hend].
  - destruct (IHn st1 ltac:(lia) ltac:(lia)) as (fuel & st' & Hrun & Hend).
    exists (S fuel), st'. split; [now rewrite (run_step _ _ _ E)|exact Hend].
Qed.

(** More turns than needed change nothing. *)
Lemma run_more (fuel : nat) :
  forall (st st' : state) (extra : nat),
    run fuel st = Some st' -> run (fuel + extra) st = Some st'.
Proof.
  induction fuel as [|fuel IH]; intros st st' extra H.
  - cbn [Crawl.run] in H. destruct (step st) eqn:E; [discriminate|].
    injection H as <-. destruct extra; cbn [Nat.add Crawl.run]; now rewrite E.
  - cbn [Nat.add Crawl.run] in *. destruct (step st) eqn:E; [|exact H].
    apply IH, H.
Qed.

(** X18. The crawl loop ends, for every site, every list of start URLs
    and every budget: some number of turns reaches a state in which the
    queue is empty or the budget is used up, and allowing more turns
    gives the same state. *)
Theorem crawl_loop_terminates (startUrls : list string) :
  exists fuel st',
    (forall extra, run (fuel + extra) (start startUrls) = Some st') /\
    (urlsToProcess st' = [] \/ maxRequestsPerCrawl <= processedCount st').
Proof.
  destruct (run_terminates _ _ (start startUrls) (le_n _) (le_n _))
    as (fuel & st' & Hrun & Hend).
  exists fuel, st'. split; [intros extra; apply run_more, Hrun|].
  unfold Crawl.step in Hend.
  destruct (urlsToProcess st') as [|u rest]; [left; reflexivity|right].
  cbn [List.length] in Hend.
  destruct (Z.gtb_spec (Z.of_nat (S (List.length rest))) 0) as [_|]; [|lia].
  cbn [andb] in Hend.
  destruct (Z.ltb_spec (processedCount st') maxRequestsPerCrawl) as [|Hle];
    [|exact Hle].
  destruct (has _ _); [discriminate|].
  destruct (visit_page u); [|discriminate].
  cbv zeta in Hend. destruct (_ && _); [|discriminate].
  destruct (URL_parse _ _); discriminate.
Qed.

Lemma run_invariant (P : state -> Prop) :
  (forall st st', P st -> step st = Some st' -> P st') ->
  forall fuel st st', P st -> run fuel st = Some st' -> P st'.
Proof.
  intros Hstep. induction fuel as [|fuel IH]; intros st st' HP H;
    cbn [Crawl.run] in H; destruct (step st) as [st1|] eqn:E;
    try discriminate; try (injection H as <-; exact HP).
  apply (IH st1 st'); [apply (Hstep st st1 HP E)|exact H].
Qed.

(** What every turn of the loop keeps. *)
Definition invariant (st : state) : Prop :=
  NoDup (visitedUrls st) /\
  0 <= processedCount st <= Z.max 0 maxRequestsPerCrawl /\
  processedCount st <= pages (results st) <= Z.of_nat (List.length (visitedUrls st)) /\
  errors (results st) <= Z.of_nat (List.length (visitedUrls st)) /\
  (List.length (visitedUrls st) <= List.length (results st))%nat.

Lemma step_invariant (st st' : state) :
  invariant st -> step st = Some st' -> invariant st'.
Proof.
  intros (Hnd & Hp & Hpages & Herrors & Hlen) H.
  step_cases H as Hguard Hvisited; unfold invariant;
    cbn [visitedUrls processedCount results];
    rewrite ?pages_app, ?errors_app, ?length_app; cbn [List.length];
    change (pages [PageResult _ _]) with 1;
    change (errors [PageResult _ _]) with 0;
    try change (pages [error_result _ _]) with 0;
    try change (errors [error_result _ _]) with 1;
    (split; [first [exact Hnd|apply NoDup_snoc; [exact Hnd|apply has_false, Hvisited]]|]);
    repeat split; try lia.
Qed.

Lemma run_keeps_invariant (startUrls : list string) (fuel : nat) (st' : state) :
  run fuel (start startUrls) = Some st' -> invariant st'.
Proof.
  intros H.
  assert (H0 : invariant (start startUrls)).
  { unfold invariant, start, pages, errors; cbn. repeat split; try lia. constructor. }
  exact (run_invariant invariant step_invariant fuel _ _ H0 H).
Qed.

(** X19. In the state the loop ends in, no URL was requested twice, the
    pages counted are at most the budget, every page counted left a page
    result, and every URL requested left one or two results: failed
    requests leave an error result and are not counted, so the results
    can be more than the budget.  With a budget of 0 or less the loop
    does nothing. *)
Theorem crawl_loop_invariants (startUrls : list string) (fuel : nat) (st' : state) :
  run fuel (start startUrls) = Some st' ->
  NoDup (visitedUrls st') /\
  0 <= processedCount st' <= Z.max 0 maxRequestsPerCrawl /\
  processedCount st' <= pages (results st') /\
  pages (results st') <= Z.of_nat (List.length (visitedUrls st')) /\
  errors (results st') <= Z.of_nat (List.length (visitedUrls st')) /\
  (List.length (visitedUrls st') <= List.length (results st')
   <= 2 * List.length (visitedUrls st'))%nat /\
  (maxRequestsPerCrawl <= 0 -> st' = start startUrls).
Proof.
  intros H.
  pose proof (run_keeps_invariant startUrls fuel st' H)
    as (Hnd & Hp & Hpages & Herrors & Hlen).
  repeat split; try lia; try exact Hnd.
  - assert (Hsum : Z.of_nat (List.length (results st'))
                   = pages (results st') + errors (results st')).
    { unfold pages, errors. clear.
      induction (results st') as [|r rs IH]; cbn [filter List.length]; [lia|].
      destruct (is_page r); cbn [negb List.length]; lia. }
    lia.
  - intros Hmax. destruct fuel; cbn [Crawl.run] in H;
      (assert (E : step (start startUrls) = None);
       [unfold Crawl.step, start; cbn [processedCount urlsToProcess];
        destruct (Z.ltb_spec 0 maxRequestsPerCrawl); [lia|];
        now rewrite Bool.andb_false_r|]);
      rewrite E in H; now injection H as <-.
Qed.

End Loop.

(** A site of two pages that link to each other, to a missing page and to
    another host; every other request fails. *)
Definition not_found : error := mkError None "ENOTFOUND" "getaddrinfo ENOTFOUND".

Definition small_site : Site :=
  {| visit_page := fun u =>
       if String.eqb u "https://a.com/" then
         Analysed 200 ["https://a.com/about"; "https://a.com/";
                       "https://a.com/missing"; "https://a.com/about/"]
       else if String.eqb u "https://a.com/about" then
         Analysed 200 ["https://a.com/"; "https://b.com/x"]
       else Threw not_found |}.

Lemma crawl_loop_invariants_witness :
  exists st',
    @run simple small_site 3 true 10 (start ["https://a.com/"]) = Some st' /\
    visitedUrls st'
      = ["https://a.com/"; "https://a.com/about"; "https://a.com/missing"] /\
    processedCount st' = 2 /\
    pages (results st') = 2 /\ errors (results st') = 1 /\
    NoDup (visitedUrls st').
Proof.
  eexists. split; [vm_compute; reflexivity|].
  do 4 (split; [reflexivity|]).
  apply (@crawl_loop_invariants simple small_site 3 true ["https://a.com/"] 10 _
           eq_refl).
Defined.

(** *** Without link following *)

Section StartUrlsOnly.

Context {platform : Platform} {site : Site}.

Variable maxRequestsPerCrawl : Z.
Variable startUrls : list string.

(** With [crawlUrls] off nothing enters the queue. *)
Definition from_start (st : state) : Prop :=
  incl (visitedUrls st ++ urlsToProcess st) startUrls /\
  List.length (results st) = List.length (visitedUrls st).

Lemma step_from_start (st st' : state) :
  from_start st -> step maxRequestsPerCrawl false st = Some st' -> from_start st'.
Proof.
  intros [Hincl Hlen] H. unfold step in H.
  destruct (_ && _); [|discriminate].
  destruct (urlsToProcess st) as [|currentUrl rest] eqn:Hqueue; [discriminate|].
  assert (Hin : forall u, In u (visitedUrls st ++ [currentUrl] ++ rest) -> In u startUrls).
  { intros u Hu. apply Hincl. exact Hu. }
  destruct (has _ _).
  - injection H as <-. split; cbn [visitedUrls urlsToProcess results]; [|exact Hlen].
    intros u Hu. apply Hin. rewrite !in_app_iff in *. tauto.
  - destruct (visit_page currentUrl); cbn [andb] in H; injection H as <-;
      (split; cbn [visitedUrls urlsToProcess results];
       [intros u Hu; apply Hin; rewrite !in_app_iff in *; tauto
       |rewrite !length_app; cbn [List.length]; lia]).
Qed.

(** X20. With link following switched off, only start URLs are
    requested, each at most once, and every request leaves exactly one
    result; so there are at most as many results as start URLs. *)
Theorem crawl_without_links_stays_on_startUrls (fuel : nat) (st' : state) :
  run maxRequestsPerCrawl false fuel (start startUrls) = Some st' ->
  incl (visitedUrls st') startUrls /\
  NoDup (visitedUrls st') /\
  List.length (results st') = List.length (visitedUrls st') /\
  (List.length (results st') <= List.length startUrls)%nat.
Proof.
  intros H.
  assert (H0 : from_start (start startUrls)).
  { split; cbn; [apply incl_refl|reflexivity]. }
  pose proof (run_invariant maxRequestsPerCrawl false from_start step_from_start
                fuel _ _ H0 H) as [Hincl Hlen].
  destruct (run_keeps_invariant maxRequestsPerCrawl false startUrls fuel st' H)
    as (Hnd & _).
  assert (Hv : incl (visitedUrls st') startUrls).
  { intros u Hu. apply Hincl. apply in_or_app. left. exact Hu. }
  repeat split; auto.
  rewrite Hlen. apply NoDup_incl_length; assumption.
Qed.

End StartUrlsOnly.

Lemma crawl_without_links_stays_on_startUrls_witness :
  exists st',
    @run simple small_site 5 false 10
         (start ["https://a.com/"; "https://a.com/x"; "https://a.com/"]) = Some st' /\
    visitedUrls st' = ["https://a.com/"; "https://a.com/x"] /\
    List.length (results st') = 2%nat.
Proof.
  eexists. split; [vm_compute; reflexivity|].
  split; [reflexivity|].
  destruct (@crawl_without_links_stays_on_startUrls simple small_site 5
              ["https://a.com/"; "https://a.com/x"; "https://a.com/"] 10 _ eq_refl)
    as (_ & _ & -> & _).
  reflexivity.
Defined.

(** *** A site that is down *)

Section AllRequestsFail.

Context {platform : Platform} {site : Site}.

Variable maxRequestsPerCrawl : Z.
Variable crawlUrls : bool.

Definition throws (u : string) : bool :=
  match visit_page u with Threw _ => true | Analysed _ _ => false end.

(** The error result a failed request leaves. *)
Definition failure (u : string) : list result :=
  match visit_page u with
  | Threw e => [error_result u e]
  | Analysed _ _ => []
  end.

(** The URLs of the queue that are requested: the first occurrence of
    each one not visited before. *)
Fixpoint requested (visitedUrls urlsToProcess : list string) : list string :=
  match urlsToProcess with
  | [] => []
  | u :: rest =>
      if has visitedUrls u then requested visitedUrls rest
      else u :: requested (visitedUrls ++ [u]) rest
  end.

Lemma run_all_fail (queue : list string) :
  0 < maxRequestsPerCrawl ->
  forallb throws queue = true ->
  forall (rs : list result) (visited : list string),
    run maxRequestsPerCrawl crawlUrls (List.length queue)
        (mkState rs visited queue 0)
    = Some (mkState (rs ++ flat_map failure (requested visited queue))
                    (visited ++ requested visited queue) [] 0).
Proof.
  intros Hmax. induction queue as [|u queue IH]; intros Hall rs visited.
  - cbn. now rewrite !app_nil_r.
  - cbn [forallb] in Hall. apply andb_prop in Hall. destruct Hall as [Hu Hall].
    cbn [List.length run]. unfold step at 1.
    cbn [urlsToProcess processedCount visitedUrls results List.length].
    destruct (Z.gtb_spec (Z.of_nat (S (List.length queue))) 0) as [_|]; [|lia].
    destruct (Z.ltb_spec 0 maxRequestsPerCrawl) as [_|]; [|lia].
    cbn [andb requested].
    destruct (has visited u); [apply IH, Hall|].
    unfold throws in Hu. unfold failure at 1. cbn [flat_map].
    destruct (visit_page u) as [|e]; [discriminate|].
    rewrite (IH Hall). cbn [app]. now rewrite <- !app_assoc.
Qed.

(** X21. A failed request does not use up the budget: when every start
    URL fails and the budget is at least 1, the loop requests every
    distinct start URL once, in order, and ends with one error result for
    each and no page counted, however small the budget. *)
Theorem failed_requests_are_not_counted (startUrls : list string) :
  0 < maxRequestsPerCrawl ->
  forallb throws startUrls = true ->
  exists fuel,
    run maxRequestsPerCrawl crawlUrls fuel (start startUrls)
    = Some (mkState (flat_map failure (requested [] startUrls))
                    (requested [] startUrls) [] 0) /\
    List.length (flat_map failure (requested [] startUrls))
    = List.length (requested [] startUrls).
Proof.
  intros Hmax Hall. exists (List.length startUrls). split.
  - apply (run_all_fail startUrls Hmax Hall [] []).
  - assert (Hreq : forall queue visited,
               forallb throws queue = true ->
               List.length (flat_map failure (requested visited queue))
               = List.length (requested visited queue)).
    { clear. induction queue as [|u queue IH]; intros visited Hall; [reflexivity|].
      cbn [forallb] in Hall. apply andb_prop in Hall. destruct Hall as [Hu Hall].
      cbn [requested]. destruct (has visited u); [apply IH, Hall|].
      cbn [flat_map]. rewrite length_app, (IH _ Hall).
      unfold throws in Hu. unfold failure.
      destruct (visit_page u); [discriminate|reflexivity]. }
    apply Hreq, Hall.
Qed.

End AllRequestsFail.

Lemma failed_requests_are_not_counted_witness :
  exists fuel,
    @run simple small_site 1 true fuel
         (start ["https://a.com/x"; "https://a.com/y"; "https://a.com/x"])
    = Some (mkState [ErrorResult "https://a.com/x" "getaddrinfo ENOTFOUND" 404;
                     ErrorResult "https://a.com/y" "getaddrinfo ENOTFOUND" 404]
                    ["https://a.com/x"; "https://a.com/y"] [] 0).
Proof.
  destruct (@failed_requests_are_not_counted simple small_site 1 true
              ["https://a.com/x"; "https://a.com/y"; "https://a.com/x"]
              ltac:(lia) eq_refl) as (fuel & H & _).
  exists fuel. exact H.
Defined.

End CrawlProps.

(** ** The normalizer on input the parser rejects *)

Module NormalizerFallback.

Import WebURL URLNormalizer.

Lemma strip_trailing_slashes_last (s : string) :
  JS.endsWith (strip_trailing_slashes s) "/" = false.
Proof.
  induction s as [|c r IH]; [reflexivity|].
  cbn [strip_trailing_slashes].
  destruct (strip_trailing_slashes r) as [|d r'] eqn:E.
  - destruct (Ascii.eqb c "/") eqn:Ec; [reflexivity|].
    cbn [JS.endsWith String.eqb]. rewrite Ec. reflexivity.
  - cbn [JS.endsWith] in *. cbn [String.eqb].
    destruct (Ascii.eqb c "/"); [|exact IH].
    cbn [String.eqb]. exact IH.
Qed.

Lemma lower_ascii_slash (c : ascii) :
  Ascii.eqb (JS.lower_ascii c) "/" = Ascii.eqb c "/".
Proof.
  destruct c as [[] [] [] [] [] [] [] []]; reflexivity.
Qed.

Lemma endsWith_toLowerCase_slash (s : string) :
  JS.endsWith (JS.toLowerCase s) "/" = JS.endsWith s "/".
Proof.
  induction s as [|c r IH]; [reflexivity|].
  cbn [JS.toLowerCase JS.endsWith String.eqb]. rewrite IH, lower_ascii_slash.
  destruct r; reflexivity.
Qed.

(** *** Lengths *)

Lemma utf16_length_app (a b : string) :
  JS.utf16_length (a ++ b) = (JS.utf16_length a + JS.utf16_length b)%nat.
Proof.
  induction a as [|c a IH]; cbn [append JS.utf16_length]; [reflexivity|].
  rewrite IH. lia.
Qed.

Lemma is_ascii_app (a b : string) :
  JS.is_ascii (a ++ b) = JS.is_ascii a && JS.is_ascii b.
Proof.
  induction a as [|c a IH]; cbn [append JS.is_ascii]; [reflexivity|].
  rewrite IH. apply andb_assoc.
Qed.

Lemma code_units_lower_ascii (c : ascii) :
  JS.code_units (JS.lower_ascii c) = JS.code_units c.
Proof.
  destruct c as [[] [] [] [] [] [] [] []]; reflexivity.
Qed.

Lemma toLowerCase_length (s : string) :
  JS.utf16_length (JS.toLowerCase s) = JS.utf16_length s.
Proof.
  induction s as [|c r IH]; cbn [JS.toLowerCase JS.utf16_length]; [reflexivity|].
  now rewrite IH, code_units_lower_ascii.
Qed.

Lemma is_ascii_lower_ascii (c : ascii) :
  (nat_of_ascii (JS.lower_ascii c) <? 128)%nat = (nat_of_ascii c <? 128)%nat.
Proof.
  destruct c as [[] [] [] [] [] [] [] []]; reflexivity.
Qed.

Lemma toLowerCase_ascii (s : string) :
  JS.is_ascii (JS.toLowerCase s) = JS.is_ascii s.
Proof.
  induction s as [|c r IH]; cbn [JS.toLowerCase JS.is_ascii]; [reflexivity|].
  now rewrite IH, is_ascii_lower_ascii.
Qed.

(** What is removed at the two ends: the result of a removal is the
    string without a prefix or without a suffix. *)
Lemma strip_trailing_slashes_prefix (s : string) :
  exists q, s = strip_trailing_slashes s ++ q.
Proof.
  induction s as [|c r [q IH]]; [now exists ""|].
  cbn [strip_trailing_slashes].
  destruct (strip_trailing_slashes r) as [|d r'] eqn:E.
  - destruct (Ascii.eqb c "/").
    + now exists (String c r).
    + exists r. reflexivity.
  - exists q. cbn [append]. now rewrite IH at 1.
Qed.

Lemma trimEnd_prefix (s : string) : exists q, s = JS.trimEnd s ++ q.
Proof.
  induction s as [|c r [q IH]]; [now exists ""|].
  cbn [JS.trimEnd]. destruct (JS.all_space (String c r)).
  - now exists (String c r).
  - exists q. cbn [append]. now rewrite IH at 1.
Qed.

Lemma trimStart_suffix_bounded (n : nat) :
  forall s, (String.length s <= n)%nat -> exists p, s = p ++ JS.trimStart s.
Proof.
  induction n as [|n IH]; intros s Hn.
  - destruct s; [now exists ""|cbn in Hn; lia].
  - destruct s as [|c1 r1]; [now exists ""|].
    cbn [String.length] in Hn. cbn [JS.trimStart].
    destruct (JS.is_space c1).
    { destruct (IH r1 ltac:(lia)) as [p Hp].
      exists (String c1 p). cbn [append]. now rewrite Hp at 1. }
    destruct r1 as [|c2 r2]; [now exists ""|].
    cbn [String.length] in Hn.
    destruct (JS.is_space2 c1 c2).
    { destruct (IH r2 ltac:(lia)) as [p Hp].
      exists (String c1 (String c2 p)). cbn [append]. now rewrite Hp at 1. }
    destruct r2 as [|c3 r3]; [now exists ""|].
    cbn [String.length] in Hn.
    destruct (JS.is_space3 c1 c2 c3); [|now exists ""].
    destruct (IH r3 ltac:(lia)) as [p Hp].
    exists (String c1 (String c2 (String c3 p))). cbn [append]. now rewrite Hp at 1.
Qed.

Lemma trimStart_suffix (s : string) : exists p, s = p ++ JS.trimStart s.
Proof. apply (trimStart_suffix_bounded (String.length s)), le_n. Qed.

(** The trimmed input without its trailing slashes is a part of the
    input. *)
Lemma cleaned_part (rawUrl : string) :
  exists p q, rawUrl = p ++ (strip_trailing_slashes (JS.trim rawUrl) ++ q).
Proof.
  unfold JS.trim.
  destruct (trimStart_suffix rawUrl) as [p Hp].
  destruct (trimEnd_prefix (JS.trimStart rawUrl)) as [q1 Hq1].
  destruct (strip_trailing_slashes_prefix (JS.trimEnd (JS.trimStart rawUrl)))
    as [q2 Hq2].
  exists p, (q2 ++ q1).
  rewrite Hp at 1. f_equal. rewrite Hq1 at 1. rewrite Hq2 at 1.
  now rewrite StringFacts.append_assoc.
Qed.

Section WithPlatform.

Context {platform : Platform}.

(** X22. When the parser rejects the trimmed input and the input is
    ASCII text, [normalize] returns the trimmed input without its
    trailing slashes, in lower case: the result is ASCII text not longer
    than the input, is its own lower case and does not end in a slash.
    When the parser also rejects what [normalizeForComparison] hands it,
    the comparison key is that same string, or null where it is empty. *)
Theorem normalize_of_rejected_input (rawUrl : string) :
  JS.is_ascii rawUrl = true ->
  URL_parse (JS.trim rawUrl) None = None ->
  let r := normalize rawUrl in
  r = JS.toLowerCase (strip_trailing_slashes (JS.trim rawUrl)) /\
  JS.is_ascii r = true /\
  JS.toLowerCase r = r /\
  JS.endsWith r "/" = false /\
  JS.length r <= JS.length rawUrl /\
  (URL_parse (if has_http_scheme (JS.trim rawUrl) then JS.trim rawUrl
              else "http://" ++ JS.trim rawUrl) None = None ->
   normalizeForComparison rawUrl
   = match r with EmptyString => None | _ => Some r end).
Proof.
  intros Hascii Hrej. cbv zeta.
  destruct (cleaned_part rawUrl) as (p & q & Hpart).
  assert (Hc : JS.is_ascii (strip_trailing_slashes (JS.trim rawUrl)) = true).
  { rewrite Hpart in Hascii. rewrite !is_ascii_app in Hascii.
    apply andb_prop in Hascii. destruct Hascii as [_ Hascii].
    apply andb_prop in Hascii. tauto. }
  pose proof (text_toLowerCase_ascii _ Hc) as Hlower.
  assert (Hr : normalize rawUrl
               = JS.toLowerCase (strip_trailing_slashes (JS.trim rawUrl))).
  { unfold normalize. destruct rawUrl as [|c raw]; [reflexivity|].
    cbn [JS.truthy negb]. rewrite Hrej. unfold normalize_fallback. cbv zeta.
    rewrite Hlower. now destruct (strip_trailing_slashes _). }
  rewrite Hr. split; [reflexivity|].
  split; [now rewrite toLowerCase_ascii|].
  split; [apply NormalizerProps.toLowerCase_idem|].
  split; [rewrite endsWith_toLowerCase_slash; apply strip_trailing_slashes_last|].
  split.
  - unfold JS.length. rewrite toLowerCase_length.
    rewrite Hpart at 2. rewrite !utf16_length_app. lia.
  - intros Hrej'. unfold normalizeForComparison.
    destruct rawUrl as [|c raw]; [reflexivity|].
    cbn [JS.truthy negb]. cbv zeta. rewrite Hrej'.
    destruct (strip_trailing_slashes _); [reflexivity|].
    now rewrite Hlower.
Qed.

End WithPlatform.

Lemma normalize_of_rejected_input_witness :
  JS.is_ascii "  Example.COM/Path// " = true /\
  @URL_parse simple (JS.trim "  Example.COM/Path// ") None = None /\
  @normalize simple "  Example.COM/Path// " = "example.com/path" /\
  JS.endsWith (@normalize simple "  Example.COM/Path// ") "/" = false.
Proof.
  split; [reflexivity|]. split; [reflexivity|]. split; [reflexivity|].
  apply (@normalize_of_rejected_input simple "  Example.COM/Path// "
           eq_refl eq_refl).
Defined.

End NormalizerFallback.

(** ** Duplicate words of a title *)

Module TitleWordsProps.

Import TitleWords.

(** The words the callback counts. *)
Definition counted (word : string) : bool :=
  (JS.length word >? 2) && negb (inherited word).

(** The number of occurrences of a word. *)
Definition occurrences (word : string) (ws : list string) : nat :=
  List.length (filter (String.eqb word) ws).

(** The different words of a list, in the order of their first
    occurrences. *)
Fixpoint distinct (ws : list string) : list string :=
  match ws with
  | [] => []
  | w :: r => w :: filter (fun v => negb (String.eqb w v)) (distinct r)
  end.

(** The words that occur at least twice. *)
Definition repeated (ws : list string) : list string :=
  filter (fun v => (2 <=? occurrences v ws)%nat) (distinct ws).

(** *** Lists *)

Lemma filter_split {A} (p q : A -> bool) (l : list A) :
  List.length (filter p l)
  = (List.length (filter p (filter q l))
     + List.length (filter p (filter (fun x => negb (q x)) l)))%nat.
Proof.
  induction l as [|a l IH]; [reflexivity|].
  cbn [filter]. destruct (q a); cbn [negb filter];
    destruct (p a); cbn [List.length]; lia.
Qed.

Lemma filter_filter_comm {A} (p q : A -> bool) (l : list A) :
  filter p (filter q l) = filter q (filter p l).
Proof.
  induction l as [|a l IH]; [reflexivity|].
  cbn [filter]. destruct (p a) eqn:Hp, (q a) eqn:Hq; cbn [filter];
    rewrite ?Hp, ?Hq, IH; reflexivity.
Qed.

Lemma filter_contradiction {A} (p : A -> bool) (l : list A) :
  filter p (filter (fun x => negb (p x)) l) = [].
Proof.
  induction l as [|a l IH]; [reflexivity|].
  cbn [filter]. destruct (p a) eqn:Hp; cbn [negb filter]; rewrite ?Hp; exact IH.
Qed.

Lemma occurrences_cons (v w : string) (r : list string) :
  occurrences v (w :: r)
  = ((if String.eqb v w then 1 else 0) + occurrences v r)%nat.
Proof.
  unfold occurrences. cbn [filter]. now destruct (String.eqb v w).
Qed.

(** A word is among the different words once, if it occurs at all. *)
Lemma filter_distinct (w : string) (r : list string) :
  filter (String.eqb w) (distinct r)
  = if (0 <? occurrences w r)%nat then [w] else [].
Proof.
  induction r as [|a r IH]; [reflexivity|].
  cbn [distinct filter]. rewrite occurrences_cons.
  destruct (String.eqb w a) eqn:E.
  - apply String.eqb_eq in E. subst a.
    rewrite (filter_contradiction (String.eqb w) (distinct r)). reflexivity.
  - rewrite filter_filter_comm, IH. cbn [Nat.add].
    destruct (0 <? occurrences w r)%nat; [|reflexivity].
    cbn [filter]. rewrite String.eqb_sym, E. reflexivity.
Qed.

(** *** The loop *)

(** [wordCount[word] || 0] *)
Definition count_of (m : wordCount) (word : string) : Z :=
  JS.or_num (lookup word m) 0.

(** The words that reach their second occurrence in [ws], when [c] gives
    the occurrences counted before. *)
Definition reaching_two (c : string -> Z) (ws : list string) : nat :=
  List.length
    (filter (fun v => (c v <? 2) && (2 <=? c v + Z.of_nat (occurrences v ws)))
            (distinct ws)).

Lemma reaching_two_cons (c c' : string -> Z) (w : string) (r : list string) :
  0 <= c w ->
  c' w = c w + 1 ->
  (forall v, String.eqb w v = false -> c' v = c v) ->
  reaching_two c (w :: r)
  = ((if (c w + 1 =? 2)%Z then 1 else 0) + reaching_two c' r)%nat.
Proof.
  intros Hw Hc' Hother. unfold reaching_two.
  rewrite (filter_split _ (String.eqb w) (distinct r)).
  rewrite filter_distinct.
  cbn [distinct filter]. rewrite occurrences_cons, String.eqb_refl.
  assert (Hrest :
    filter (fun v => (c v <? 2) && (2 <=? c v + Z.of_nat (occurrences v (w :: r))))
           (filter (fun v => negb (String.eqb w v)) (distinct r))
    = filter (fun v => (c' v <? 2) && (2 <=? c' v + Z.of_nat (occurrences v r)))
             (filter (fun v => negb (String.eqb w v)) (distinct r))).
  { apply filter_ext_in. intros v Hv. apply filter_In in Hv. destruct Hv as [_ Hv].
    apply Bool.negb_true_iff in Hv.
    rewrite occurrences_cons, (Hother v Hv), String.eqb_sym, Hv. reflexivity. }
  rewrite Hrest.
  set (rest := List.length (filter _ (filter (fun v => negb (String.eqb w v)) _))).
  destruct (Nat.ltb_spec 0 (occurrences w r)) as [Hocc|Hocc]; cbn [filter];
    rewrite ?Hc';
    destruct (Z.ltb_spec (c w) 2), (Z.leb_spec 2 (c w + Z.of_nat (1 + occurrences w r))),
             (Z.eqb_spec (c w + 1) 2);
    cbn [andb List.length Nat.add]; try lia;
    destruct (Z.ltb_spec (c w + 1) 2),
             (Z.leb_spec 2 (c w + 1 + Z.of_nat (occurrences w r)));
    cbn [andb List.length Nat.add]; lia.
Qed.

Lemma or_num_nonneg (a : option Z) :
  (forall n, a = Some n -> 0 <= n) -> 0 <= JS.or_num a 0.
Proof.
  intros H. unfold JS.or_num. destruct a as [n|]; [|lia].
  destruct (n =? 0); [lia|]. now apply H.
Qed.

(** The numbers written into the map are positive. *)
Definition positive (m : wordCount) : Prop :=
  forall w n, lookup w m = Some n -> 0 < n.

Lemma count_of_nonneg (m : wordCount) (w : string) :
  positive m -> 0 <= count_of m w.
Proof.
  intros H. apply or_num_nonneg. intros n Hn. specialize (H w n Hn). lia.
Qed.

Lemma fold_each_word (ws : list string) :
  forallb counted ws = true ->
  forall (m : wordCount) (d : Z),
    positive m ->
    snd (fold_left each_word ws (m, d))
    = d + Z.of_nat (reaching_two (count_of m) ws).
Proof.
  induction ws as [|w r IH]; intros Hall m d Hm.
  - cbn. lia.
  - cbn [forallb] in Hall. apply andb_prop in Hall. destruct Hall as [Hw Hall].
    unfold counted in Hw. apply andb_prop in Hw. destruct Hw as [Hlen Hown].
    apply Bool.negb_true_iff in Hown.
    cbn [fold_left]. unfold each_word at 2. rewrite Hlen, Hown.
    fold (count_of m w).
    pose proof (count_of_nonneg m w Hm) as Hc.
    assert (Hm' : positive ((w, count_of m w + 1) :: m)).
    { intros v n. cbn [lookup]. destruct (String.eqb w v); [|apply Hm].
      intros [= <-]. lia. }
    rewrite (IH Hall _ _ Hm').
    rewrite (reaching_two_cons (count_of m)
               (count_of ((w, count_of m w + 1) :: m)) w r Hc).
    + destruct (count_of m w + 1 =? 2); lia.
    + unfold count_of at 1. cbn [lookup]. rewrite String.eqb_refl.
      unfold JS.or_num. destruct (Z.eqb_spec (count_of m w + 1) 0); lia.
    + intros v Hv. unfold count_of. cbn [lookup]. now rewrite Hv.
Qed.

(** A word the callback does not count leaves the map and the counter. *)
Lemma fold_each_word_filter (ws : list string) :
  forall acc,
    fold_left each_word ws acc = fold_left each_word (filter counted ws) acc.
Proof.
  induction ws as [|w r IH]; intros [m d]; [reflexivity|].
  cbn [fold_left filter]. unfold counted at 1. unfold each_word at 2.
  destruct (JS.length w >? 2) eqn:Hlen; cbn [andb]; [|apply IH].
  destruct (inherited w) eqn:Hown; cbn [negb]; [apply IH|].
  cbn [fold_left]. unfold each_word at 3. rewrite Hlen, Hown. apply IH.
Qed.

(** *** Counting *)

Lemma sum_distinct (ws : list string) :
  fold_right (fun v sum => (occurrences v ws + sum)%nat) 0%nat (distinct ws)
  = List.length ws.
Proof.
  induction ws as [|w r IH]; [reflexivity|].
  cbn [distinct fold_right List.length]. rewrite occurrences_cons, String.eqb_refl.
  rewrite <- IH. cbn [Nat.add]. f_equal.
  assert (Hsplit : forall (f : string -> nat) (l : list string),
             fold_right (fun v sum => (f v + sum)%nat) 0%nat l
             = (fold_right (fun v sum => (f v + sum)%nat) 0%nat (filter (String.eqb w) l)
                + fold_right (fun v sum => (f v + sum)%nat) 0%nat
                    (filter (fun v => negb (String.eqb w v)) l))%nat).
  { intros f l. induction l as [|a l IHl]; [reflexivity|].
    cbn [filter fold_right]. destruct (String.eqb w a); cbn [negb fold_right]; lia. }
  rewrite (Hsplit (fun v => occurrences v r) (distinct r)), filter_distinct.
  assert (Hrest :
    fold_right (fun v sum => (occurrences v (w :: r) + sum)%nat) 0%nat
               (filter (fun v => negb (String.eqb w v)) (distinct r))
    = fold_right (fun v sum => (occurrences v r + sum)%nat) 0%nat
                 (filter (fun v => negb (String.eqb w v)) (distinct r))).
  { clear IH. induction (distinct r) as [|a l IHl]; [reflexivity|].
    cbn [filter]. destruct (String.eqb w a) eqn:E; cbn [negb]; [exact IHl|].
    cbn [fold_right]. rewrite IHl, occurrences_cons, String.eqb_sym, E. reflexivity. }
  rewrite Hrest.
  destruct (Nat.ltb_spec 0 (occurrences w r)); cbn [fold_right]; lia.
Qed.

Lemma repeated_twice (ws : list string) :
  (2 * List.length (repeated ws) <= List.length ws)%nat.
Proof.
  rewrite <- (sum_distinct ws). unfold repeated.
  generalize (distinct ws) as l. intros l.
  induction l as [|a l IH]; cbn [filter fold_right List.length]; [lia|].
  destruct (Nat.leb_spec 2 (occurrences a ws)); cbn [List.length]; lia.
Qed.

(** X23. The number [countDuplicateWords] returns is the number of
    different words that occur at least twice among the words it counts:
    the pieces of the lower-cased text between white space that are
    longer than two UTF-16 code units and are not a name every object
    inherits.  A word that occurs three times counts once, so the number
    is at most half the number of the words counted.  This holds for
    text in any script, whatever the platform's [toLowerCase] does to
    it. *)
Theorem countDuplicateWords_counts_repeated_words
    (platform : WebURL.Platform) (text : string) :
  let words := filter counted (Headings.split (WebURL.text_toLowerCase text)) in
  countDuplicateWords text = Z.of_nat (List.length (repeated words)) /\
  2 * countDuplicateWords text <= Z.of_nat (List.length words).
Proof.
  cbv zeta.
  assert (H : countDuplicateWords text
              = Z.of_nat (List.length
                  (repeated (filter counted (Headings.split (WebURL.text_toLowerCase text)))))).
  { unfold countDuplicateWords. destruct text as [|c text].
    { rewrite (WebURL.text_toLowerCase_ascii "" eq_refl). reflexivity. }
    cbn [JS.truthy negb]. rewrite fold_each_word_filter.
    rewrite fold_each_word.
    - unfold reaching_two, repeated, count_of. cbn [lookup JS.or_num Z.add].
      f_equal. f_equal. apply filter_ext. intros v.
      cbn [Z.ltb Z.compare andb].
      destruct (Z.leb_spec 2 (Z.of_nat (occurrences v (filter counted
                 (Headings.split (WebURL.text_toLowerCase (String c text))))))),
               (Nat.leb_spec 2 (occurrences v (filter counted
                 (Headings.split (WebURL.text_toLowerCase (String c text))))));
        try reflexivity; lia.
    - apply forallb_forall. intros w Hw. apply filter_In in Hw. tauto.
    - intros w n [=]. }
  split; [exact H|]. rewrite H.
  pose proof (repeated_twice (filter counted (Headings.split (WebURL.text_toLowerCase text)))).
  lia.
Qed.

(** A title in which one word comes three times, two words twice
    (one of them in different letter case) and a short word twice: the
    short word is not counted, and neither is the word with a colon
    attached, which is another word. *)
Example countDuplicateWords_title :
  @countDuplicateWords WebURL.simple
    "SEO tips: the The best SEO tips for SEO of of Tips" = 3.
Proof. vm_compute. reflexivity. Qed.

(** *** A title outside ASCII *)

(** [toLowerCase] on text in ASCII and Latin-1: the letters A to Z and
    the letters U+00C0 to U+00DE (C3 80 to C3 9E in UTF-8, without the
    multiplication sign C3 97) are mapped. *)
Fixpoint latin1_toLowerCase (s : string) : string :=
  match s with
  | EmptyString => EmptyString
  | String c r =>
      if (nat_of_ascii c =? 195)%nat then
        match r with
        | EmptyString => String c EmptyString
        | String d r' =>
            let n := nat_of_ascii d in
            String c
              (String (if ((128 <=? n) && (n <=? 158) && negb (n =? 151))%nat
                       then ascii_of_nat (n + 32) else d)
                      (latin1_toLowerCase r'))
        end
      else String (JS.lower_ascii c) (latin1_toLowerCase r)
  end.

Lemma latin1_toLowerCase_ascii (text : string) :
  JS.is_ascii text = true -> latin1_toLowerCase text = JS.toLowerCase text.
Proof.
  induction text as [|c r IH]; intros H; [reflexivity|].
  cbn [JS.is_ascii] in H. apply andb_true_iff in H as [Hc Hr].
  apply Nat.ltb_lt in Hc.
  cbn [latin1_toLowerCase JS.toLowerCase].
  destruct (Nat.eqb_spec (nat_of_ascii c) 195) as [E|_]; [lia|].
  now rewrite (IH Hr).
Qed.

Definition latin1_platform : WebURL.Platform :=
  {| WebURL.URL_parse := WebURL.simple_parse;
     WebURL.searchParams_entries := WebURL.simple_entries;
     WebURL.URLSearchParams_toString := WebURL.simple_toString;
     WebURL.text_toLowerCase := latin1_toLowerCase;
     WebURL.text_toLowerCase_ascii := latin1_toLowerCase_ascii |}.

(** The title with the word of three accented letters in upper and in
    lower case: the two are the same word after lower-casing, and each
    is three code units long. *)
Example countDuplicateWords_accented_title :
  let title :=
    JSFacts.E_acute ++ "T" ++ JSFacts.E_acute ++ " "
    ++ JSFacts.e_acute ++ "t" ++ JSFacts.e_acute in
  JS.length title = 7 /\
  @countDuplicateWords latin1_platform title = 1.
Proof. cbv zeta. split; vm_compute; reflexivity. Qed.

End TitleWordsProps.

(** ** Images *)

Module ImageProps.

Import WebURL Images.

Lemma type_of_extension_image (pathname : string) :
  JS.startsWith (type_of_extension pathname) "image/" = true.
Proof.
  unfold type_of_extension.
  repeat match goal with
         | |- context [if ?b then _ else _] => destruct b
         end; reflexivity.
Qed.

Section WithCollaborators.

Context {platform : Platform} {probe : ImageProbe}.

(** X24. For a URL that is not a data URI, the content type
    [detectImageInfo] reports always starts with ["image/"]: it is the
    type the response declares when that is an image type, and the type
    of the file extension (or ["image/unknown"]) otherwise; when the
    HEAD request is rejected both sizes are 0. *)
Theorem detectImageInfo_reports_image_type (imageUrl : string) (info : imageInfo) :
  JS.startsWith imageUrl "data:" = false ->
  detectImageInfo imageUrl = Some info ->
  JS.startsWith (contentType info) "image/" = true /\
  (exists url,
     URL_parse imageUrl None = Some url /\
     (contentType info = type_of_extension (JS.toLowerCase (pathname url)) \/
      exists response,
        head_image imageUrl = Some response /\
        contentType info = content_type response)) /\
  (head_image imageUrl = None ->
   sizeInBytes info = JS.of_Z 0 /\ sizeInKb info = JS.of_Z 0).
Proof.
  intros Hdata H. unfold detectImageInfo in H. rewrite Hdata in H.
  destruct (URL_parse imageUrl None) as [url|]; [|discriminate].
  destruct (head_image imageUrl) as [response|] eqn:Hhead.
  - cbv zeta in H.
    destruct (if JS.truthy (content_length response) then _ else _) as [bytes kb].
    destruct (JS.truthy (content_type response)
              && JS.startsWith (content_type response) "image/") eqn:Htype;
      injection H as <-; cbn [contentType].
    + apply andb_prop in Htype. destruct Htype as [_ Htype].
      split; [exact Htype|]. split; [|discriminate].
      exists url. split; [reflexivity|]. right. now exists response.
    + split; [apply type_of_extension_image|]. split; [|discriminate].
      exists url. split; [reflexivity|]. now left.
  - injection H as <-. cbn [contentType sizeInBytes sizeInKb].
    split; [apply type_of_extension_image|].
    split; [exists url; split; [reflexivity|now left]|].
    intros _. split; reflexivity.
Qed.

(** The images the loop pushes from index [i] on. *)
Fixpoint collect (baseUrl : string) (maxImages : Z) (i : Z) (imageElements : list img)
  : list image :=
  match imageElements with
  | [] => []
  | el :: rest =>
      if i <? maxImages then
        (match image_at baseUrl i el with Some im => [im] | None => [] end
         ++ collect baseUrl maxImages (i + 1) rest)%list
      else []
  end.

Lemma loop_collect (baseUrl : string) (maxImages : Z) (imageElements : list img) :
  forall (i : Z) (images : list image),
    loop baseUrl maxImages i imageElements images
    = (images ++ collect baseUrl maxImages i imageElements)%list.
Proof.
  induction imageElements as [|el rest IH]; intros i images; cbn [loop collect].
  - now rewrite app_nil_r.
  - destruct (i <? maxImages); [|now rewrite app_nil_r].
    rewrite IH. destruct (image_at baseUrl i el); [|reflexivity].
    now rewrite <- app_assoc.
Qed.

(** What holds of an image pushed for an element between [i] and [j]. *)
Definition pushed_between (i j : Z) (im : image) : Prop :=
  i < imageIndex im <= j /\
  statusCode im = 200 /\
  sizeInByte im = contentLength im.

Lemma image_at_pushed (baseUrl : string) (i : Z) (el : img) (im : image) :
  image_at baseUrl i el = Some im ->
  imageIndex im = i + 1 /\ statusCode im = 200 /\ sizeInByte im = contentLength im.
Proof.
  unfold image_at. destruct (negb _); [discriminate|].
  destruct (fullUrl _ _); [|discriminate].
  destruct (detectImageInfo _); [|discriminate].
  intros [= <-]. repeat split.
Qed.

Lemma collect_spec (baseUrl : string) (maxImages : Z) (imageElements : list img) :
  forall i,
    let images := collect baseUrl maxImages i imageElements in
    Forall (pushed_between i (Z.min maxImages (i + Z.of_nat (List.length imageElements))))
           images /\
    StronglySorted Z.lt (map imageIndex images) /\
    Z.of_nat (List.length images)
      <= Z.min (Z.max 0 (maxImages - i)) (Z.of_nat (List.length imageElements)).
Proof.
  induction imageElements as [|el rest IH]; intros i; cbv zeta; cbn [collect].
  - cbn. repeat split; [constructor|constructor|lia].
  - destruct (Z.ltb_spec i maxImages) as [Hlt|Hge];
      [|cbn; repeat split; [constructor|constructor|lia]].
    specialize (IH (i + 1)). cbv zeta in IH. destruct IH as (Hall & Hsorted & Hlen).
    assert (Hall' : Forall
              (pushed_between i (Z.min maxImages
                                   (i + Z.of_nat (List.length (el :: rest)))))
              (collect baseUrl maxImages (i + 1) rest)).
    { eapply Forall_impl; [|exact Hall].
      intros im (Hi & Hs & Hb). cbn [List.length]. split; [lia|now split]. }
    destruct (image_at baseUrl i el) as [im|] eqn:E; cbn [app].
    + destruct (image_at_pushed _ _ _ _ E) as (Hi & Hs & Hb).
      repeat split.
      * constructor; [|exact Hall'].
        cbn [List.length]. split; [lia|now split].
      * cbn [map]. constructor; [exact Hsorted|].
        rewrite Forall_map. eapply Forall_impl; [|exact Hall].
        intros im' (Hi' & _). lia.
      * cbn [List.length]. lia.
    + repeat split; [exact Hall'|exact Hsorted|cbn [List.length]; lia].
Qed.

(** X25. The images [analyzeImagesDetailed] returns carry the 1-based
    positions of their elements among the elements selected, in
    increasing order (an element that is skipped leaves a gap); there are
    at most [maxImagesPerPage] of them unless that is -1, none when it is
    0 or below -1 or when images are switched off, and every one has
    status code 200 and the same number in both size fields. *)
Theorem analyzeImagesDetailed_indexes
  (imageElements : list img) (baseUrl : string)
  (includeImages : bool) (maxImagesPerPage : Z) :
  let images :=
    analyzeImagesDetailed imageElements baseUrl includeImages maxImagesPerPage in
  let n := Z.of_nat (List.length imageElements) in
  (includeImages = false -> images = []) /\
  StronglySorted Z.lt (map imageIndex images) /\
  Forall (fun im => 1 <= imageIndex im <= n /\
                    statusCode im = 200 /\
                    sizeInByte im = contentLength im) images /\
  Z.of_nat (List.length images) <= n /\
  (maxImagesPerPage <> -1 ->
   Z.of_nat (List.length images) <= Z.max 0 maxImagesPerPage /\
   Forall (fun im => imageIndex im <= maxImagesPerPage) images).
Proof.
  cbv zeta. unfold analyzeImagesDetailed.
  destruct includeImages; cbn [negb].
  2:{ cbn. repeat split; try constructor; try lia. }
  split; [discriminate|].
  rewrite loop_collect. cbn [app].
  set (maxImages := if maxImagesPerPage =? -1 then _ else _).
  pose proof (collect_spec baseUrl maxImages imageElements 0) as H.
  cbv zeta in H. destruct H as (Hall & Hsorted & Hlen).
  split; [exact Hsorted|].
  split; [|split; [lia|]].
  - eapply Forall_impl; [|exact Hall]. intros im (Hi & Hs & Hb).
    split; [lia|now split].
  - intros Hmax. assert (maxImages = maxImagesPerPage) as ->.
    { unfold maxImages. destruct (Z.eqb_spec maxImagesPerPage (-1)); [lia|reflexivity]. }
    split; [lia|].
    eapply Forall_impl; [|exact Hall]. intros im (Hi & _). lia.
Qed.

End WithCollaborators.

(** A probe that is rejected for every image. *)
Definition unreachable : ImageProbe := {| head_image := fun _ => None |}.

Lemma detectImageInfo_reports_image_type_witness :
  JS.startsWith "https://a.com/img/Logo.PNG?v=2" "data:" = false /\
  @detectImageInfo simple unreachable "https://a.com/img/Logo.PNG?v=2"
    = Some (mkImageInfo "image/png" (JS.of_Z 0) (JS.of_Z 0)) /\
  JS.startsWith "image/png" "image/" = true.
Proof.
  split; [reflexivity|]. split; [reflexivity|].
  apply (@detectImageInfo_reports_image_type simple unreachable
           "https://a.com/img/Logo.PNG?v=2"
           (mkImageInfo "image/png" (JS.of_Z 0) (JS.of_Z 0)) eq_refl eq_refl).
Defined.

End ImageProps.
